(** * LyricSensei: the song-resolution and analysis pipeline

    A shallow embedding of [server/lyricsApi.ts], [server/openai.ts],
    [server/storage.ts] and [server/routes.ts], and of the state
    transformers of the client pages that call the handlers.

    JavaScript strings are modelled as [string]s whose characters are the
    code units below 256; numbers are the integer-valued doubles ([Z]) plus
    [NaN]; a JavaScript object used as a record is a [gmap string jsval], so
    that a key that is present with value [undefined] differs from a key that
    is absent (object spread tells them apart).  Every external call (HTTP
    fetch, language model) is an oracle of the environment [Env]. *)

From Stdlib Require Import ZArith Ascii String List Lia.
From stdpp Require Import base option list strings gmap sorting pretty.

Local Open Scope Z_scope.

(** ** JavaScript values *)

#[warning="-register-all"]
Inductive jsval :=
  | JUndefined
  | JNull
  | JBool (b : bool)
  | JNum (n : Z)
  | JNaN
  | JStr (s : string)
  | JArr (items : list jsval)
  | JObj (props : list (string * jsval)).

(** ToBoolean. *)
Definition truthy (v : jsval) : bool :=
  match v with
  | JUndefined | JNull | JNaN => false
  | JBool b => b
  | JNum n => negb (n =? 0)
  | JStr s => negb (bool_decide (s = ""))
  | JArr _ | JObj _ => true
  end.

(** [a || b] *)
Definition js_or (a b : jsval) : jsval := if truthy a then a else b.

(** An optional string of a typed response, read as a value. *)
Definition of_opt_str (o : option string) : jsval :=
  match o with Some s => JStr s | None => JUndefined end.

(** Objects used as records, [o.k], object literals and [{...a, ...b}]. *)
Abbreviation jsobj := (gmap string jsval).

Definition get (o : jsobj) (k : string) : jsval := default JUndefined (o !! k).

(** [{...o, k1: v1, ..., kn: vn}]: later properties win. *)
Definition extend (o : jsobj) (props : list (string * jsval)) : jsobj :=
  foldl (λ acc kv, <[kv.1 := kv.2]> acc) o props.

Definition object (props : list (string * jsval)) : jsobj := extend ∅ props.

Definition spread (a b : jsobj) : jsobj := b ∪ a.

(** ** Characters and string primitives *)

Module Chars.

(** WhiteSpace and LineTerminator code units below 256: what [trim] strips
    and what [\s] matches. *)
Definition is_ws (c : ascii) : bool :=
  match c with
  | "009" | "010" | "011" | "012" | "013" | " " | "160" => true
  | _ => false
  end%char.

(** [.] matches everything but a line terminator. *)
Definition is_dot (c : ascii) : bool :=
  match c with
  | "010" | "013" => false
  | _ => true
  end%char.

Definition is_digit (c : ascii) : bool :=
  match c with
  | "0" | "1" | "2" | "3" | "4" | "5" | "6" | "7" | "8" | "9" => true
  | _ => false
  end%char.

Definition upper (c : ascii) : ascii :=
  let n := nat_of_ascii c in
  if ((97 <=? n) && (n <=? 122))%nat then ascii_of_nat (n - 32) else c.

(** A literal character, under the [i] flag or not. *)
Definition lit (ci : bool) (c d : ascii) : bool :=
  if ci then bool_decide (upper c = upper d) else bool_decide (c = d).

End Chars.

Fixpoint trimStart (s : string) : string :=
  match s with
  | String c s' => if Chars.is_ws c then trimStart s' else s
  | EmptyString => EmptyString
  end.

Fixpoint trimEnd (s : string) : string :=
  match s with
  | String c s' =>
      match trimEnd s' with
      | EmptyString => if Chars.is_ws c then EmptyString else String c EmptyString
      | t => String c t
      end
  | EmptyString => EmptyString
  end.

Definition trim (s : string) : string := trimEnd (trimStart s).

Fixpoint starts_with (sep s : string) : bool :=
  match sep, s with
  | EmptyString, _ => true
  | String a sep', String b s' => bool_decide (a = b) && starts_with sep' s'
  | String _ _, EmptyString => false
  end.

Fixpoint drop_chars (n : nat) (s : string) : string :=
  match n, s with
  | S n', String _ s' => drop_chars n' s'
  | _, _ => s
  end.

Fixpoint take_chars (n : nat) (s : string) : string :=
  match n, s with
  | S n', String c s' => String c (take_chars n' s')
  | _, _ => EmptyString
  end.

(** [s.includes(sep)] *)
Fixpoint includes (sep s : string) : bool :=
  starts_with sep s ||
  match s with
  | String _ s' => includes sep s'
  | EmptyString => false
  end.

(** [s.split(sep)] for a non-empty separator: scan from the left, cut at
    every match and resume after it.  Each step consumes a character, so
    [S (length s)] steps are enough. *)
Fixpoint split_go (fuel : nat) (sep cur s : string) : list string :=
  match fuel with
  | O => [cur +:+ s]
  | S fuel' =>
      match s with
      | EmptyString => [cur]
      | String c s' =>
          if starts_with sep s
          then cur :: split_go fuel' sep "" (drop_chars (String.length sep) s)
          else split_go fuel' sep (cur +:+ String c "") s'
      end
  end.

Definition split (sep s : string) : list string :=
  split_go (S (String.length s)) sep "" s.

(** [parts.join(sep)] *)
Fixpoint join (sep : string) (parts : list string) : string :=
  match parts with
  | [] => ""
  | [p] => p
  | p :: rest => p +:+ sep +:+ join sep rest
  end.

(** [parts.slice(1)] *)
Definition slice1 {A} (l : list A) : list A := drop 1 l.

(** ** Regular expressions

    The patterns of this program are sequences of single characters,
    quantified character classes, groups and anchors; [exec] runs one at the
    start of a string with JavaScript's backtracking priorities and returns
    the captured groups with the unread rest. *)

Module Regex.

Inductive item :=
  | Lit (p : ascii → bool)
  | Rep (greedy plus : bool) (p : ascii → bool)
  | Open
  | Close
  | Eos.

(** A quantified class: [here] says whether stopping now is allowed. *)
Fixpoint rep {R} (p : ascii → bool) (greedy : bool) (k : string → option R)
    (here : bool) (s : string) : option R :=
  if greedy then
    match
      match s with
      | String c s' => if p c then rep p greedy k true s' else None
      | EmptyString => None
      end
    with
    | Some r => Some r
    | None => if here then k s else None
    end
  else
    match (if here then k s else None) with
    | Some r => Some r
    | None =>
        match s with
        | String c s' => if p c then rep p greedy k true s' else None
        | EmptyString => None
        end
    end.

Fixpoint exec (r : list item) (opened : list string) (s : string)
    : option (list string * string) :=
  match r with
  | [] => Some ([], s)
  | Lit p :: r' =>
      match s with
      | String c s' => if p c then exec r' opened s' else None
      | EmptyString => None
      end
  | Rep greedy plus p :: r' => rep p greedy (exec r' opened) (negb plus) s
  | Open :: r' => exec r' (s :: opened) s
  | Close :: r' =>
      match opened with
      | o :: os =>
          match exec r' os s with
          | Some (caps, rest) =>
              Some (take_chars (String.length o - String.length s) o :: caps, rest)
          | None => None
          end
      | [] => None
      end
  | Eos :: r' =>
      match s with
      | EmptyString => exec r' opened s
      | String _ _ => None
      end
  end.

(** The literal text [t], case-insensitively or not. *)
Fixpoint text (ci : bool) (t : string) : list item :=
  match t with
  | String c t' => Lit (Chars.lit ci c) :: text ci t'
  | EmptyString => []
  end.

(** [s.match(r)] for a pattern without [^]: the leftmost position where
    the pattern matches. *)
Fixpoint search (r : list item) (s : string) : option (list string * string) :=
  match exec r [] s with
  | Some m => Some m
  | None =>
      match s with
      | String _ s' => search r s'
      | EmptyString => None
      end
  end.

(** [s.replace(r, '')] under the [g] flag, for a pattern that never
    matches the empty string. *)
Fixpoint remove_all (fuel : nat) (r : list item) (s : string) : string :=
  match fuel with
  | O => s
  | S fuel' =>
      match exec r [] s with
      | Some (_, rest) => remove_all fuel' r rest
      | None =>
          match s with
          | String c s' => String c (remove_all fuel' r s')
          | EmptyString => EmptyString
          end
      end
  end.

End Regex.

(** ** lyricsApi.ts: the query parser *)

Record ParsedQuery := { artist : option string; title : option string }.

(** [/^(.+?)\s+by\s+(.+)$/i] *)
Definition byPattern : list Regex.item :=
  [Regex.Open; Regex.Rep false true Chars.is_dot; Regex.Close;
   Regex.Rep true true Chars.is_ws]
  ++ Regex.text true "by"
  ++ [Regex.Rep true true Chars.is_ws;
      Regex.Open; Regex.Rep true true Chars.is_dot; Regex.Close; Regex.Eos].

(** [/^(.+?)\s*\((.+?)\)$/] *)
Definition parenthesesPattern : list Regex.item :=
  [Regex.Open; Regex.Rep false true Chars.is_dot; Regex.Close;
   Regex.Rep true false Chars.is_ws]
  ++ Regex.text false "("
  ++ [Regex.Open; Regex.Rep false true Chars.is_dot; Regex.Close]
  ++ Regex.text false ")"
  ++ [Regex.Eos].

Definition parseQuery (query : string) : ParsedQuery :=
  let trimmed := trim query in
  let dash :=
    if includes " - " trimmed then
      let parts := split " - " trimmed in
      if bool_decide (2 ≤ length parts)%nat then
        Some {| artist := Some (trim (default "" (head parts)));
                title := Some (trim (join " - " (slice1 parts))) |}
      else None
    else None in
  match dash with
  | Some r => r
  | None =>
  let colon :=
    if includes ": " trimmed then
      let parts := split ": " trimmed in
      if bool_decide (2 ≤ length parts)%nat then
        Some {| artist := Some (trim (default "" (head parts)));
                title := Some (trim (join ": " (slice1 parts))) |}
      else None
    else None in
  match colon with
  | Some r => r
  | None =>
  match Regex.exec byPattern [] trimmed with
  | Some ([g1; g2], _) => {| artist := Some (trim g2); title := Some (trim g1) |}
  | _ =>
  match Regex.exec parenthesesPattern [] trimmed with
  | Some ([g1; g2], _) => {| artist := Some (trim g2); title := Some (trim g1) |}
  | _ => {| artist := None; title := Some trimmed |}
  end end end end.

Example parse_dash : parseQuery "Sia - Chandelier - Live"
  = {| artist := Some "Sia"; title := Some "Chandelier - Live" |}.
Proof. vm_compute. reflexivity. Qed.

Example parse_by : parseQuery "Hotel California by Eagles"
  = {| artist := Some "Eagles"; title := Some "Hotel California" |}.
Proof. vm_compute. reflexivity. Qed.

Example parse_parens : parseQuery "  Stay (Rihanna)"
  = {| artist := Some "Rihanna"; title := Some "Stay" |}.
Proof. vm_compute. reflexivity. Qed.

Example parse_colon : parseQuery "Queen: Bohemian Rhapsody: live"
  = {| artist := Some "Queen"; title := Some "Bohemian Rhapsody: live" |}.
Proof. vm_compute. reflexivity. Qed.

Example parse_plain : parseQuery "Stay " = {| artist := None; title := Some "Stay" |}.
Proof. vm_compute. reflexivity. Qed.

(** ** Number and string conversions *)

Definition digit_value (radix : Z) (c : ascii) : option Z :=
  let n := Z.of_nat (nat_of_ascii c) in
  let v :=
    if (48 <=? n) && (n <=? 57) then Some (n - 48)
    else if (97 <=? n) && (n <=? 122) then Some (n - 87)
    else if (65 <=? n) && (n <=? 90) then Some (n - 55)
    else None in
  match v with
  | Some d => if d <? radix then Some d else None
  | None => None
  end.

(** The longest run of leading digits, read in [radix]. *)
Fixpoint read_digits (radix : Z) (acc : option Z) (s : string) : option Z :=
  match s with
  | String c s' =>
      match digit_value radix c with
      | Some d => read_digits radix (Some (radix * default 0 acc + d)) s'
      | None => acc
      end
  | EmptyString => acc
  end.

(** [parseInt(s)]: leading white space, a sign, an optional [0x] prefix and
    digits; [NaN] without a digit.  Exact up to 2^53. *)
Definition parseInt (s : string) : jsval :=
  let s1 := trimStart s in
  let '(neg, s2) :=
    match s1 with
    | String "-" r => (true, r)
    | String "+" r => (false, r)
    | _ => (false, s1)
    end in
  let '(radix, s3) :=
    if starts_with "0x" s2 || starts_with "0X" s2 then (16, drop_chars 2 s2)
    else (10, s2) in
  match read_digits radix None s3 with
  | Some n => JNum (if neg : bool then - n else n)
  | None => JNaN
  end.

(** ToString, and [Array.prototype.join] on values. *)
Fixpoint ToString (v : jsval) : string :=
  match v with
  | JUndefined => "undefined"
  | JNull => "null"
  | JBool true => "true"
  | JBool false => "false"
  | JNum n => pretty n
  | JNaN => "NaN"
  | JStr s => s
  | JArr items =>
      join "," (map (λ x, match x with JUndefined | JNull => "" | _ => ToString x end) items)
  | JObj _ => "[object Object]"
  end.

Definition join_values (sep : string) (items : list jsval) : string :=
  join sep (map (λ x, match x with JUndefined | JNull => "" | _ => ToString x end) items).

Definition nl : string := String "010" "".
Definition dq : string := String "034" "".

(** ** The environment of a request *)

(** The outcome of [fetch] followed by [response.json()]: an exception, a
    response that is not [ok], or the decoded body. *)
Inductive fetched (A : Type) :=
  | Threw
  | NotOk
  | Body (a : A).
Arguments Threw {A}.
Arguments NotOk {A}.
Arguments Body {A} a.

(** [hits[i].result] of [GeniusSearchResult]. *)
Record GeniusSong := {
  song_title : string;
  song_primary_artist_name : string;
  song_release_date_for_display : option string;
  song_url : string }.

(** [track] of [LastFmTrackInfo]: [toptags?.tag] as the list of tag names, and
    [album?.['@attr']?.year]. *)
Record LastFmTrack := {
  track_toptags_tag : option (list string);
  track_album_year : option string }.

(** A MusicBrainz recording: [title], [artist-credit]?.[0]?.name,
    [releases]?.[0]?.date and [tags]?.[0]?.name. *)
Record Recording := {
  recording_title : option string;
  recording_artist_credit_name : option string;
  recording_release_date : option string;
  recording_tag_name : option string }.

(** [openai.chat.completions.create]: an exception with its message, or
    [choices[0].message.content]. *)
Inductive completion :=
  | ChatThrew (message : string)
  | ChatContent (content : option string).

Record Env := {
  GENIUS_ACCESS_TOKEN : option string;
  LASTFM_API_KEY : option string;
  genius_search : string → fetched (list GeniusSong);
  lyrics_ovh : string → string → fetched (option string);
  lastfm_track_getInfo : string → string → fetched (option LastFmTrack);
  musicbrainz_recording : string → string → fetched (option (list Recording));
  chat_json : string → completion;
  chat_text : string → completion;
  db_ok : string → bool;
  now : Z }.

Definition env_set (v : option string) : bool := truthy (of_opt_str v).

(** ** lyricsApi.ts: the source adapters and the resolver *)

(** [!v] on a [string | null]. *)
Definition missing (v : option string) : bool := negb (truthy (of_opt_str v)).

(** [o?.k] on an object or [null]. *)
Definition opt_get (o : option jsobj) (k : string) : jsval :=
  match o with
  | Some o => get o k
  | None => JUndefined
  end.

Definition searchLyricsOvh (env : Env) (query : string) : option jsobj :=
  let p := parseQuery query in
  if missing (artist p) || missing (title p) then None
  else
    match lyrics_ovh env (default "" (artist p)) (default "" (title p)) with
    | Body data_lyrics =>
        if truthy (of_opt_str data_lyrics)
        then Some (object [("title", of_opt_str (title p));
                           ("artist", of_opt_str (artist p));
                           ("lyrics", of_opt_str data_lyrics)])
        else None
    | NotOk => None
    | Threw => None
    end.

Definition extractSongInfo (query : string) : option jsobj :=
  let p := parseQuery query in
  if missing (artist p) || missing (title p)
  then Some (object [("title", JStr (trim query)); ("artist", JStr "Unknown Artist")])
  else Some (object [("title", of_opt_str (title p)); ("artist", of_opt_str (artist p))]).

Definition getGeniusLyrics (songUrl : string) : jsval :=
  JStr "High-quality lyrics from Genius (lyrics extraction would require additional implementation)".

(** [/\d{4}/], the whole match as its only group. *)
Definition fourDigits : list Regex.item :=
  [Regex.Open; Regex.Lit Chars.is_digit; Regex.Lit Chars.is_digit;
   Regex.Lit Chars.is_digit; Regex.Lit Chars.is_digit; Regex.Close].

Definition searchGenius (env : Env) (query : string) : option jsobj :=
  if negb (env_set (GENIUS_ACCESS_TOKEN env)) then None
  else
    let p := parseQuery query in
    let searchQuery :=
      if missing (artist p) || missing (title p) then query
      else default "" (artist p) +:+ " " +:+ default "" (title p) in
    match genius_search env searchQuery with
    | Body (song :: _) =>
        let year :=
          if truthy (of_opt_str (song_release_date_for_display song)) then
            match Regex.search fourDigits (default "" (song_release_date_for_display song)) with
            | Some (yearMatch :: _, _) => parseInt yearMatch
            | _ => JUndefined
            end
          else JUndefined in
        let lyrics := getGeniusLyrics (song_url song) in
        Some (object [("title", JStr (song_title song));
                      ("artist", JStr (song_primary_artist_name song));
                      ("year", year);
                      ("lyrics", lyrics)])
    | Body [] => None
    | NotOk => None
    | Threw => None
    end.

Definition getLastFmTrackInfo (env : Env) (title artist : jsval) : option jsobj :=
  if negb (env_set (LASTFM_API_KEY env)) then None
  else
    match lastfm_track_getInfo env (ToString artist) (ToString title) with
    | Body (Some track) =>
        let genre :=
          match track_toptags_tag track with
          | Some (tag :: _) => JStr tag
          | _ => JUndefined
          end in
        let year :=
          if truthy (of_opt_str (track_album_year track))
          then parseInt (default "" (track_album_year track))
          else JUndefined in
        Some (object [("genre", genre); ("year", year)])
    | Body None => None
    | NotOk => None
    | Threw => None
    end.

(** Every adapter catches its own exceptions, so the outer [catch] of
    [searchSong] (the only path to [null]) is never entered. *)
Definition searchSong (env : Env) (query : string) : option jsobj :=
  match searchGenius env query with
  | Some geniusResult =>
      let lastFmData :=
        getLastFmTrackInfo env (get geniusResult "title") (get geniusResult "artist") in
      Some (object
        [("title", get geniusResult "title");
         ("artist", get geniusResult "artist");
         ("genre", js_or (opt_get lastFmData "genre") (get geniusResult "genre"));
         ("year", js_or (opt_get lastFmData "year") (get geniusResult "year"));
         ("lyrics", js_or (get geniusResult "lyrics") (JStr "Lyrics not found"))])
  | None =>
      match searchLyricsOvh env query with
      | Some lyricsOvhResult =>
          let lastFmData :=
            getLastFmTrackInfo env (get lyricsOvhResult "title") (get lyricsOvhResult "artist") in
          Some (extend lyricsOvhResult
            [("genre", js_or (opt_get lastFmData "genre") (get lyricsOvhResult "genre"));
             ("year", js_or (opt_get lastFmData "year") (get lyricsOvhResult "year"))])
      | None => extractSongInfo query
      end
  end.

Definition getSongDetails (env : Env) (title artist : jsval) : jsobj :=
  match musicbrainz_recording env (ToString title) (ToString artist) with
  | Body (Some (recording :: _)) =>
      let releaseDate := of_opt_str (recording_release_date recording) in
      let year :=
        if truthy releaseDate then parseInt (take_chars 4 (ToString releaseDate))
        else JUndefined in
      object [("title", js_or (of_opt_str (recording_title recording)) title);
              ("artist", js_or (of_opt_str (recording_artist_credit_name recording)) artist);
              ("year", year);
              ("genre", of_opt_str (recording_tag_name recording))]
  | _ => object [("title", title); ("artist", artist)]
  end.

(** ** openai.ts: the analysis engine *)

Inductive result (A : Type) :=
  | Ok (a : A)
  | Throw (message : string).
Arguments Ok {A} a.
Arguments Throw {A} message.

Record LyricsAnalysis := {
  meaning : jsval;
  themes : list jsval;
  mood : jsval;
  interpretation : jsval }.

(** [result.k] on a parsed JSON value: a property of an object (the last
    duplicate wins), a TypeError on [null], [undefined] on anything else. *)
Definition prop_get (props : list (string * jsval)) (k : string) : jsval :=
  foldl (λ acc kv, if bool_decide (kv.1 = k) then kv.2 else acc) JUndefined props.

Definition member (v : jsval) (k : string) : result jsval :=
  match v with
  | JNull => Throw ("Cannot read properties of null (reading '" +:+ k +:+ "')")
  | JUndefined => Throw ("Cannot read properties of undefined (reading '" +:+ k +:+ "')")
  | JObj props => Ok (prop_get props k)
  | _ => Ok JUndefined
  end.

(** The user messages sent to the model, in the wording of the first of the
    two copies of the file (the second words the requests differently and
    handles the answers the same way). *)
Definition lyricsPrompt (songTitle artist lyrics : jsval) : string :=
  "Analyze the lyrics of " +:+ dq +:+ ToString songTitle +:+ dq +:+ " by "
  +:+ ToString artist +:+ ". Here are the lyrics:" +:+ nl +:+ nl
  +:+ ToString lyrics +:+ nl +:+ nl
  +:+ "Provide a thoughtful analysis of the song's meaning, themes, mood, and interpretation.".

Definition meaningPrompt (songTitle artist genre year : jsval) : string :=
  "Analyze the song " +:+ dq +:+ ToString songTitle +:+ dq +:+ " by "
  +:+ ToString artist
  +:+ (if truthy genre then " (" +:+ ToString genre +:+ ")" else "")
  +:+ (if truthy year then " from " +:+ ToString year else "")
  +:+ ". " +:+ nl +:+ nl
  +:+ "Use your knowledge to provide accurate genre and release year information for this song in your analysis. Follow the exact format specified in the system prompt starting with "
  +:+ dq +:+ "## Core Theme" +:+ dq
  +:+ ". Do not include any title header or "
  +:+ dq +:+ "Analysis of..." +:+ dq +:+ " text.".

Section AnalysisEngine.

(** [JSON.parse]: the parsed value, or the message of the SyntaxError. *)
Variable JSON_parse : string → result jsval.

Definition analyzeLyrics (env : Env) (songTitle artist lyrics : jsval)
    : result LyricsAnalysis :=
  let failed m := Throw ("Failed to analyze lyrics: " +:+ m) in
  match chat_json env (lyricsPrompt songTitle artist lyrics) with
  | ChatThrew m => failed m
  | ChatContent content =>
      match JSON_parse (ToString (js_or (of_opt_str content) (JStr "{}"))) with
      | Throw m => failed m
      | Ok parsed =>
          match member parsed "meaning", member parsed "themes",
                member parsed "mood", member parsed "interpretation" with
          | Ok r_meaning, Ok r_themes, Ok r_mood, Ok r_interpretation =>
              Ok {| meaning :=
                      js_or r_meaning (JStr "Unable to analyze the meaning of this song.");
                    themes := match r_themes with JArr items => items | _ => [] end;
                    mood := js_or r_mood (JStr "Unknown");
                    interpretation :=
                      js_or r_interpretation
                            (JStr "No additional interpretation available.") |}
          | Throw m, _, _, _ => failed m
          | _, Throw m, _, _ => failed m
          | _, _, Throw m, _ => failed m
          | _, _, _, Throw m => failed m
          end
      end
  end.

Definition generateSongMeaning (env : Env) (songTitle artist genre year : jsval)
    : result string :=
  match chat_text env (meaningPrompt songTitle artist genre year) with
  | ChatThrew m => Throw ("Failed to generate song meaning: " +:+ m)
  | ChatContent content =>
      Ok (ToString (js_or (of_opt_str content)
                          (JStr "Unable to generate analysis for this song.")))
  end.

End AnalysisEngine.

(** ** storage.ts: the tables of shared/schema.ts and [DatabaseStorage]

    The database is the four tables with their serial keys, NOT NULL and
    foreign-key constraints.  A statement fails when the environment says the
    database cannot be reached ([db_ok]) or when a constraint is violated;
    an insert that a constraint refuses has already taken its id from the
    sequence.  [created_at] defaults to the clock of the environment. *)

Record SongAnalysis := {
  sa_id : Z;
  sa_title : string;
  sa_artist : string;
  sa_genre : option string;
  sa_yearReleased : option Z;
  sa_lyricsAnalysis : string;
  sa_userId : string;
  sa_createdAt : Z }.

Record Favorite := {
  fav_id : Z;
  fav_userId : string;
  fav_songAnalysisId : Z;
  fav_createdAt : Z }.

Record SearchHistory := {
  sh_id : Z;
  sh_userId : string;
  sh_searchQuery : string;
  sh_songAnalysisId : option Z;
  sh_createdAt : Z }.

Record DB := {
  users : gset string;
  songAnalyses : list SongAnalysis;
  favorites : list Favorite;
  searchHistory : list SearchHistory;
  songAnalyses_seq : Z;
  favorites_seq : Z;
  searchHistory_seq : Z }.

Record InsertSongAnalysis := {
  ins_title : jsval;
  ins_artist : jsval;
  ins_genre : jsval;
  ins_yearReleased : jsval;
  ins_lyricsAnalysis : string;
  ins_userId : string }.

Record InsertFavorite := {
  insf_userId : string;
  insf_songAnalysisId : Z }.

Record InsertSearchHistory := {
  inss_userId : string;
  inss_searchQuery : string;
  inss_songAnalysisId : option Z }.

(** A value bound to a [text] column: [None] when it cannot be bound. *)
Definition as_text (v : jsval) : option (option string) :=
  match v with
  | JStr s => Some (Some s)
  | JNull | JUndefined => Some None
  | _ => None
  end.

Definition int4 (n : Z) : bool := (-2147483648 <=? n) && (n <=? 2147483647).

(** A value bound to an [integer] column. *)
Definition as_integer (v : jsval) : option (option Z) :=
  match v with
  | JNum n => if int4 n then Some (Some n) else None
  | JNull | JUndefined => Some None
  | _ => None
  end.

(** [desc(created_at)] *)
Definition newest_first {A} (created : A → Z) : relation A :=
  λ a b, created b ≤ created a.

Global Instance newest_first_dec {A} (created : A → Z) : RelDecision (newest_first created).
Proof. intros a b. unfold newest_first. apply _. Defined.

Module Storage.

Definition unavailable {A} : result A := Throw "database unavailable".

Inductive table := SongAnalysesTable | FavoritesTable | SearchHistoryTable.

(** The database after the sequence of a table's [serial] key has given out
    its next value. *)
Definition nextval (t : table) (db : DB) : DB :=
  {| users := users db;
     songAnalyses := songAnalyses db;
     favorites := favorites db;
     searchHistory := searchHistory db;
     songAnalyses_seq :=
       songAnalyses_seq db + match t with SongAnalysesTable => 1 | _ => 0 end;
     favorites_seq := favorites_seq db + match t with FavoritesTable => 1 | _ => 0 end;
     searchHistory_seq :=
       searchHistory_seq db + match t with SearchHistoryTable => 1 | _ => 0 end |}.

(** An insert first binds its values to the column types; a value that
    cannot be bound fails the statement before it runs.  Then the row is
    formed, which takes the next value of the [serial] key, and only then are
    the not-null and foreign-key constraints checked: a refused insert has
    used up an id. *)
Definition createSongAnalysis (env : Env) (analysis : InsertSongAnalysis) (db : DB)
    : result SongAnalysis * DB :=
  if negb (db_ok env "createSongAnalysis") then (unavailable, db)
  else
    match as_text (ins_title analysis), as_text (ins_artist analysis),
          as_text (ins_genre analysis), as_integer (ins_yearReleased analysis) with
    | Some title, Some artist, Some g, Some y =>
        let refused message := (Throw message, nextval SongAnalysesTable db) in
        match title, artist with
        | Some t, Some a =>
            if bool_decide (ins_userId analysis ∈ users db) then
              let row := {| sa_id := songAnalyses_seq db; sa_title := t; sa_artist := a;
                            sa_genre := g; sa_yearReleased := y;
                            sa_lyricsAnalysis := ins_lyricsAnalysis analysis;
                            sa_userId := ins_userId analysis; sa_createdAt := now env |} in
              (Ok row, {| users := users db;
                          songAnalyses := songAnalyses db ++ [row];
                          favorites := favorites db;
                          searchHistory := searchHistory db;
                          songAnalyses_seq := songAnalyses_seq db + 1;
                          favorites_seq := favorites_seq db;
                          searchHistory_seq := searchHistory_seq db |})
            else refused "insert on song_analyses violates foreign key constraint"
        | _, _ => refused "null value in a column of song_analyses violates not-null constraint"
        end
    | _, _, _, _ => (Throw "invalid input for a column of song_analyses", db)
    end.

Definition getSongAnalysis (env : Env) (id : Z) (db : DB) : result (option SongAnalysis) :=
  if negb (db_ok env "getSongAnalysis") then unavailable
  else Ok (head (filter (λ a, sa_id a = id) (songAnalyses db))).

(** [.limit(n)]: the query builder writes a LIMIT clause only for
    [n >= 0]; a negative [n] leaves the query without a limit. *)
Definition limited {A} (limit : Z) (rows : list A) : list A :=
  if limit <? 0 then rows else take (Z.to_nat limit) rows.

Definition getUserSongAnalyses (env : Env) (userId : string) (limit : option Z) (db : DB)
    : result (list SongAnalysis) :=
  if negb (db_ok env "getUserSongAnalyses") then unavailable
  else
    Ok (limited (default 50 limit)
          (merge_sort (newest_first sa_createdAt)
             (filter (λ a, sa_userId a = userId) (songAnalyses db)))).

Definition addToFavorites (env : Env) (favorite : InsertFavorite) (db : DB)
    : result Favorite * DB :=
  if negb (db_ok env "addToFavorites") then (unavailable, db)
  else if bool_decide (insf_userId favorite ∈ users db)
       && bool_decide (insf_songAnalysisId favorite ∈ sa_id <$> songAnalyses db) then
    let row := {| fav_id := favorites_seq db; fav_userId := insf_userId favorite;
                  fav_songAnalysisId := insf_songAnalysisId favorite;
                  fav_createdAt := now env |} in
    (Ok row, {| users := users db;
                songAnalyses := songAnalyses db;
                favorites := favorites db ++ [row];
                searchHistory := searchHistory db;
                songAnalyses_seq := songAnalyses_seq db;
                favorites_seq := favorites_seq db + 1;
                searchHistory_seq := searchHistory_seq db |})
  else
    (Throw "insert on favorites violates foreign key constraint", nextval FavoritesTable db).

Definition removeFromFavorites (env : Env) (userId : string) (songAnalysisId : Z) (db : DB)
    : result (unit * DB) :=
  if negb (db_ok env "removeFromFavorites") then unavailable
  else
    Ok (tt, {| users := users db;
               songAnalyses := songAnalyses db;
               favorites :=
                 filter (λ f, ¬ (fav_userId f = userId ∧ fav_songAnalysisId f = songAnalysisId))
                        (favorites db);
               searchHistory := searchHistory db;
               songAnalyses_seq := songAnalyses_seq db;
               favorites_seq := favorites_seq db;
               searchHistory_seq := searchHistory_seq db |}).

(** The rows of [favorites] inner-joined with [song_analyses]. *)
Definition joined (db : DB) : list (Favorite * SongAnalysis) :=
  f ← favorites db;
  a ← filter (λ a, fav_songAnalysisId f = sa_id a) (songAnalyses db);
  [(f, a)].

Definition userFavorites (userId : string) (db : DB) : list (Favorite * SongAnalysis) :=
  filter (λ r, fav_userId r.1 = userId) (joined db).

Definition getUserFavorites (env : Env) (userId : string) (db : DB)
    : result (list (Favorite * SongAnalysis)) :=
  if negb (db_ok env "getUserFavorites") then unavailable
  else
    Ok (limited 20
          (merge_sort (newest_first (λ r, fav_createdAt r.1)) (userFavorites userId db))).

Definition isFavorite (env : Env) (userId : string) (songAnalysisId : Z) (db : DB)
    : result bool :=
  if negb (db_ok env "isFavorite") then unavailable
  else
    match filter (λ f, fav_userId f = userId ∧ fav_songAnalysisId f = songAnalysisId)
                 (favorites db) with
    | _ :: _ => Ok true
    | [] => Ok false
    end.

Definition addToSearchHistory (env : Env) (search : InsertSearchHistory) (db : DB)
    : result SearchHistory * DB :=
  if negb (db_ok env "addToSearchHistory") then (unavailable, db)
  else if bool_decide (inss_userId search ∈ users db)
       && match inss_songAnalysisId search with
          | Some id => bool_decide (id ∈ sa_id <$> songAnalyses db)
          | None => true
          end then
    let row := {| sh_id := searchHistory_seq db; sh_userId := inss_userId search;
                  sh_searchQuery := inss_searchQuery search;
                  sh_songAnalysisId := inss_songAnalysisId search;
                  sh_createdAt := now env |} in
    (Ok row, {| users := users db;
                songAnalyses := songAnalyses db;
                favorites := favorites db;
                searchHistory := searchHistory db ++ [row];
                songAnalyses_seq := songAnalyses_seq db;
                favorites_seq := favorites_seq db;
                searchHistory_seq := searchHistory_seq db + 1 |})
  else
    (Throw "insert on search_history violates foreign key constraint",
     nextval SearchHistoryTable db).

Definition getUserSearchHistory (env : Env) (userId : string) (limit : option Z) (db : DB)
    : result (list SearchHistory) :=
  if negb (db_ok env "getUserSearchHistory") then unavailable
  else
    Ok (limited (default 20 limit)
          (merge_sort (newest_first sh_createdAt)
             (filter (λ h, sh_userId h = userId) (searchHistory db)))).

Definition clearUserSearchHistory (env : Env) (userId : string) (db : DB)
    : result (unit * DB) :=
  if negb (db_ok env "clearUserSearchHistory") then unavailable
  else
    Ok (tt, {| users := users db;
               songAnalyses := songAnalyses db;
               favorites := favorites db;
               searchHistory := filter (λ h, sh_userId h ≠ userId) (searchHistory db);
               songAnalyses_seq := songAnalyses_seq db;
               favorites_seq := favorites_seq db;
               searchHistory_seq := searchHistory_seq db |}).

End Storage.

(** ** routes.ts: the request handlers

    A handler maps a request and the database to a response and the database
    it leaves behind.  [claims_sub] is the authenticated user
    ([req.user.claims.sub]); the authentication routes are not modelled. *)

Record Request := {
  claims_sub : string;
  body : jsval;
  query_limit : option string;
  params_songAnalysisId : string }.

Inductive payload :=
  | Message (message : string)
  | Failure (message error : string)
  | AnalysisJson (a : SongAnalysis)
  | AnalysesJson (l : list SongAnalysis)
  | FavoriteJson (f : Favorite)
  | FavoritesJson (l : list (Favorite * SongAnalysis))
  | HistoryJson (l : list SearchHistory)
  | NoContent.

Record Response := { status : Z; json : payload }.

(** [/Genre:\s*(.+)/i] and [/Release Year:\s*(\d{4})/i] *)
Definition genrePattern : list Regex.item :=
  Regex.text true "Genre:"
  ++ [Regex.Rep true false Chars.is_ws;
      Regex.Open; Regex.Rep true true Chars.is_dot; Regex.Close].

Definition yearPattern : list Regex.item :=
  Regex.text true "Release Year:"
  ++ [Regex.Rep true false Chars.is_ws;
      Regex.Open; Regex.Lit Chars.is_digit; Regex.Lit Chars.is_digit;
      Regex.Lit Chars.is_digit; Regex.Lit Chars.is_digit; Regex.Close].

(** [analysis.replace(r, '')] with the [g] flag. *)
Definition replace_all (r : list Regex.item) (s : string) : string :=
  Regex.remove_all (S (String.length s)) r s.

(** Which of the two analysis variants the handler calls. *)
Inductive variant := LyricsGrounded | MetadataOnly.

Definition dispatch (finalSongInfo : jsobj) : variant :=
  if truthy (get finalSongInfo "lyrics") then LyricsGrounded else MetadataOnly.

Section Routes.

Variable JSON_parse : string → result jsval.

(** Lines 36-44 of the search handler: [searchSong], then
    [getSongDetails] spread over its result; [None] is the 404. *)
Definition resolve (env : Env) (query : string) : option jsobj :=
  match searchSong env (trim query) with
  | None => None
  | Some songInfo =>
      let detailedInfo := getSongDetails env (get songInfo "title") (get songInfo "artist") in
      Some (spread songInfo detailedInfo)
  end.

(** Lines 47-65: the analysis text. *)
Definition analyse (env : Env) (finalSongInfo : jsobj) : result string :=
  match dispatch finalSongInfo with
  | LyricsGrounded =>
      match analyzeLyrics JSON_parse env (get finalSongInfo "title")
              (get finalSongInfo "artist") (get finalSongInfo "lyrics") with
      | Ok lyricsAnalysis =>
          Ok (ToString (meaning lyricsAnalysis) +:+ nl +:+ nl
              +:+ "Key themes: " +:+ join_values ", " (themes lyricsAnalysis) +:+ nl
              +:+ "Mood: " +:+ ToString (mood lyricsAnalysis) +:+ nl +:+ nl
              +:+ ToString (interpretation lyricsAnalysis))
      | Throw m => Throw m
      end
  | MetadataOnly =>
      generateSongMeaning env (get finalSongInfo "title") (get finalSongInfo "artist")
        (get finalSongInfo "genre") (get finalSongInfo "year")
  end.

(** Lines 67-88: the record that is saved. *)
Definition toInsert (userId : string) (finalSongInfo : jsobj) (analysis : string)
    : InsertSongAnalysis :=
  let extractedGenre :=
    match Regex.search genrePattern analysis with
    | Some (genre :: _, _) => JStr (trim genre)
    | _ => get finalSongInfo "genre"
    end in
  let extractedYear :=
    match Regex.search yearPattern analysis with
    | Some (year :: _, _) => parseInt year
    | _ => get finalSongInfo "year"
    end in
  let cleanedAnalysis :=
    trim (replace_all (Regex.text true "Release Year:"
                         ++ [Regex.Rep true false Chars.is_ws;
                             Regex.Lit Chars.is_digit; Regex.Lit Chars.is_digit;
                             Regex.Lit Chars.is_digit; Regex.Lit Chars.is_digit])
            (replace_all (Regex.text true "Genre:"
                            ++ [Regex.Rep true false Chars.is_ws;
                                Regex.Rep true true Chars.is_dot])
               analysis)) in
  {| ins_title := get finalSongInfo "title";
     ins_artist := get finalSongInfo "artist";
     ins_genre := js_or extractedGenre JNull;
     ins_yearReleased := js_or extractedYear JNull;
     ins_lyricsAnalysis := cleanedAnalysis;
     ins_userId := userId |}.

Definition failed (db : DB) (message error : string) : Response * DB :=
  ({| status := 500; json := Failure message error |}, db).

(** POST /api/songs/search *)
Definition searchRoute (env : Env) (req : Request) (db : DB) : Response * DB :=
  match member (body req) "query" with
  | Throw m => failed db "Failed to analyze song" m
  | Ok (JStr query) =>
      if bool_decide (query = "")
      then ({| status := 400; json := Message "Query is required" |}, db)
      else
        match resolve env query with
        | None => ({| status := 404; json := Message "Song not found" |}, db)
        | Some finalSongInfo =>
            match analyse env finalSongInfo with
            | Throw m => failed db "Failed to analyze song" m
            | Ok analysis =>
                match Storage.createSongAnalysis env
                        (toInsert (claims_sub req) finalSongInfo analysis) db with
                | (Throw m, db1) => failed db1 "Failed to analyze song" m
                | (Ok songAnalysis, db1) =>
                    match Storage.addToSearchHistory env
                            {| inss_userId := claims_sub req;
                               inss_searchQuery := query;
                               inss_songAnalysisId := Some (sa_id songAnalysis) |} db1 with
                    | (Throw m, db2) => failed db2 "Failed to analyze song" m
                    | (Ok _, db2) =>
                        ({| status := 200; json := AnalysisJson songAnalysis |}, db2)
                    end
                end
            end
        end
  | Ok _ => ({| status := 400; json := Message "Query is required" |}, db)
  end.

(** [parseInt(req.query.limit as string) || 20] *)
Definition limitOf (req : Request) : Z :=
  match js_or (parseInt (ToString (of_opt_str (query_limit req)))) (JNum 20) with
  | JNum n => n
  | _ => 20
  end.

(** GET /api/songs/history *)
Definition songsHistoryRoute (env : Env) (req : Request) (db : DB) : Response * DB :=
  match Storage.getUserSongAnalyses env (claims_sub req) (Some (limitOf req)) db with
  | Ok analyses => ({| status := 200; json := AnalysesJson analyses |}, db)
  | Throw _ => ({| status := 500; json := Message "Failed to fetch history" |}, db)
  end.

(** [insertFavoriteSchema.parse({...req.body, userId})]: [songAnalysisId]
    must be an integer of the column's range. *)
Definition validateFavorite (req : Request) : result InsertFavorite :=
  match
    match body req with
    | JObj props => prop_get props "songAnalysisId"
    | _ => JUndefined
    end
  with
  | JNum n =>
      if int4 n then Ok {| insf_userId := claims_sub req; insf_songAnalysisId := n |}
      else Throw "ZodError"
  | _ => Throw "ZodError"
  end.

(** POST /api/favorites *)
Definition addFavoriteRoute (env : Env) (req : Request) (db : DB) : Response * DB :=
  let error := {| status := 500; json := Message "Failed to add to favorites" |} in
  match validateFavorite req with
  | Throw _ => (error, db)
  | Ok validatedData =>
      match Storage.isFavorite env (claims_sub req) (insf_songAnalysisId validatedData) db with
      | Throw _ => (error, db)
      | Ok true => ({| status := 400; json := Message "Song is already in favorites" |}, db)
      | Ok false =>
          match Storage.addToFavorites env validatedData db with
          | (Throw _, db1) => (error, db1)
          | (Ok favorite, db1) => ({| status := 201; json := FavoriteJson favorite |}, db1)
          end
      end
  end.

(** DELETE /api/favorites/:songAnalysisId *)
Definition removeFavoriteRoute (env : Env) (req : Request) (db : DB) : Response * DB :=
  let error := ({| status := 500; json := Message "Failed to remove from favorites" |}, db) in
  match as_integer (parseInt (params_songAnalysisId req)) with
  | Some (Some songAnalysisId) =>
      match Storage.removeFromFavorites env (claims_sub req) songAnalysisId db with
      | Ok (_, db1) => ({| status := 204; json := NoContent |}, db1)
      | Throw _ => error
      end
  | _ => error
  end.

(** GET /api/favorites *)
Definition favoritesRoute (env : Env) (req : Request) (db : DB) : Response * DB :=
  match Storage.getUserFavorites env (claims_sub req) db with
  | Ok favorites => ({| status := 200; json := FavoritesJson favorites |}, db)
  | Throw _ => ({| status := 500; json := Message "Failed to fetch favorites" |}, db)
  end.

(** GET /api/search/history *)
Definition searchHistoryRoute (env : Env) (req : Request) (db : DB) : Response * DB :=
  match Storage.getUserSearchHistory env (claims_sub req) (Some (limitOf req)) db with
  | Ok history => ({| status := 200; json := HistoryJson history |}, db)
  | Throw _ => ({| status := 500; json := Message "Failed to fetch search history" |}, db)
  end.

(** DELETE /api/search/history *)
Definition clearSearchHistoryRoute (env : Env) (req : Request) (db : DB) : Response * DB :=
  match Storage.clearUserSearchHistory env (claims_sub req) db with
  | Ok (_, db1) => ({| status := 204; json := NoContent |}, db1)
  | Throw _ => ({| status := 500; json := Message "Failed to clear search history" |}, db)
  end.

End Routes.

(** GET /api/songs/:id, with [id] the text of [req.params.id].  The handler
    reads nothing else of the request. *)
Definition songRoute (env : Env) (id : string) (db : DB) : Response * DB :=
  let error := ({| status := 500; json := Message "Failed to fetch song analysis" |}, db) in
  match as_integer (parseInt id) with
  | Some (Some n) =>
      match Storage.getSongAnalysis env n db with
      | Ok (Some analysis) => ({| status := 200; json := AnalysisJson analysis |}, db)
      | Ok None => ({| status := 404; json := Message "Song analysis not found" |}, db)
      | Throw _ => error
      end
  | _ => error
  end.

(** ** The client: DataContext.tsx and the pages

    The state transformers of the pages that call the handlers above. *)

Module Client.

(** [favorites.some(fav => fav.songAnalysisId === songId)] *)
Definition isFavorited (favorites : list (Favorite * SongAnalysis)) (songId : Z) : bool :=
  existsb (λ fav, bool_decide (fav_songAnalysisId fav.1 = songId)) favorites.

(** [l.findIndex(p)], with [None] for -1. *)
Fixpoint findIndex {A} (p : A → bool) (l : list A) : option nat :=
  match l with
  | [] => None
  | x :: l' => if p x then Some O else S <$> findIndex p l'
  end.

(** [l.filter((_, index) => keep(index))], counting from [i]. *)
Fixpoint filter_index {A} (keep : nat → bool) (i : nat) (l : list A) : list A :=
  match l with
  | [] => []
  | x :: l' =>
      if keep i then x :: filter_index keep (S i) l' else filter_index keep (S i) l'
  end.

(** [user && typeof user === 'object' && 'id' in user], then
    [String(user.id)]. *)
Definition user_id (user : jsval) : option string :=
  match user with
  | JObj props =>
      if existsb (λ kv, bool_decide (kv.1 = "id")) props
      then Some (ToString (prop_get props "id"))
      else None
  | _ => None
  end.

(** The state update of [optimisticToggleFavorite]; [now] is the reading of
    the clock used for the temporary id and the date. *)
Definition optimisticToggleFavorite (user : jsval) (now : Z) (history : list SongAnalysis)
    (songAnalysisId : Z) (prevFavorites : list (Favorite * SongAnalysis))
    : list (Favorite * SongAnalysis) :=
  match findIndex (λ fav, bool_decide (fav_songAnalysisId fav.1 = songAnalysisId))
                  prevFavorites with
  | Some existingIndex =>
      filter_index (λ index, negb (index =? existingIndex)%nat) 0 prevFavorites
  | None =>
      match find (λ song, bool_decide (sa_id song = songAnalysisId)) history, user_id user with
      | Some songAnalysis, Some userId =>
          prevFavorites ++
          [({| fav_id := now; fav_userId := userId;
               fav_songAnalysisId := songAnalysisId; fav_createdAt := now |},
            songAnalysis)]
      | _, _ => prevFavorites
      end
  end.

(** [handleSearch]: the body posted to /api/songs/search, or [None] when
    nothing is sent. *)
Definition handleSearch (searchQuery : string) : option jsval :=
  if bool_decide (trim searchQuery = "") then None
  else Some (JObj [("query", JStr (trim searchQuery))]).

(** [toLowerCase] on code units below 256. *)
Definition lower (c : ascii) : ascii :=
  let n := nat_of_ascii c in
  if ((65 <=? n) && (n <=? 90)
      || (192 <=? n) && (n <=? 222) && negb (n =? 215))%nat
  then ascii_of_nat (n + 32) else c.

Fixpoint toLowerCase (s : string) : string :=
  match s with
  | String c s' => String (lower c) (toLowerCase s')
  | EmptyString => EmptyString
  end.

(** [filteredHistory] and [recentAnalyses] of the history page. *)
Definition filteredHistory (history : list SongAnalysis) (localSearchQuery : string)
    : list SongAnalysis :=
  filter (λ analysis,
            includes (toLowerCase localSearchQuery) (toLowerCase (sa_title analysis))
            || includes (toLowerCase localSearchQuery) (toLowerCase (sa_artist analysis))
            || match sa_genre analysis with
               | Some genre =>
                   truthy (JStr genre)
                   && includes (toLowerCase localSearchQuery) (toLowerCase genre)
               | None => false
               end = true)
         history.

Definition recentAnalyses (history : list SongAnalysis) (localSearchQuery : string)
    : list SongAnalysis :=
  take 10 (filteredHistory history localSearchQuery).

End Client.

(** ** A reference [JSON.parse]

    The handlers are stated over any [JSON.parse].  This is a reader of the
    JSON grammar whose numbers are integers (a fraction or an exponent is
    refused) and whose [\u] escapes stay below 256, to run them on concrete
    responses. *)

Module Json.

Fixpoint skip_ws (s : string) : string :=
  match s with
  | String c s' =>
      match c with
      | " "%char | "009"%char | "010"%char | "013"%char => skip_ws s'
      | _ => s
      end
  | EmptyString => EmptyString
  end.

Definition hex4 (s : string) : option ascii :=
  match s with
  | String a (String b (String c (String d _))) =>
      match digit_value 16 a, digit_value 16 b, digit_value 16 c, digit_value 16 d with
      | Some 0, Some 0, Some x, Some y => Some (ascii_of_N (Z.to_N (16 * x + y)))
      | _, _, _, _ => None
      end
  | _ => None
  end.

(** The characters of a string literal, after its opening quote. *)
Fixpoint chars (fuel : nat) (s : string) : option (string * string) :=
  match fuel with
  | O => None
  | S fuel' =>
      match s with
      | String "034" rest => Some ("", rest)
      | String "\" (String e rest) =>
          let escaped :=
            match e with
            | "034"%char | "\"%char | "/"%char => Some (e, rest)
            | "b"%char => Some ("008"%char, rest)
            | "f"%char => Some ("012"%char, rest)
            | "n"%char => Some ("010"%char, rest)
            | "r"%char => Some ("013"%char, rest)
            | "t"%char => Some ("009"%char, rest)
            | "u"%char =>
                match hex4 rest with
                | Some c => Some (c, drop_chars 4 rest)
                | None => None
                end
            | _ => None
            end in
          match escaped with
          | Some (c, rest') =>
              match chars fuel' rest' with
              | Some (t, r) => Some (String c t, r)
              | None => None
              end
          | None => None
          end
      | String c rest =>
          if (nat_of_ascii c <? 32)%nat then None
          else
            match chars fuel' rest with
            | Some (t, r) => Some (String c t, r)
            | None => None
            end
      | EmptyString => None
      end
  end.

(** An optional minus sign, then 0 or a run of digits that does not start
    with 0; refused when a fraction or an exponent follows. *)
Definition number (s : string) : option (jsval * string) :=
  let '(neg, s1) :=
    match s with
    | String "-" r => (true, r)
    | _ => (false, s)
    end in
  let fix digits (t : string) : string :=
    match t with
    | String c t' => if Chars.is_digit c then digits t' else t
    | EmptyString => EmptyString
    end in
  let rest :=
    match s1 with
    | String "0" r => r
    | _ => digits s1
    end in
  match s1, rest with
  | EmptyString, _ => None
  | String c _, String ("." | "e" | "E") _ => None
  | String c _, _ =>
      if Chars.is_digit c then
        match read_digits 10 None (take_chars (String.length s1 - String.length rest) s1) with
        | Some n => Some (JNum (if neg : bool then - n else n), rest)
        | None => None
        end
      else None
  end.

Fixpoint value (fuel : nat) (s : string) : option (jsval * string) :=
  match fuel with
  | O => None
  | S fuel' =>
      match skip_ws s with
      | String "n" r => if starts_with "ull" r then Some (JNull, drop_chars 3 r) else None
      | String "t" r => if starts_with "rue" r then Some (JBool true, drop_chars 3 r) else None
      | String "f" r => if starts_with "alse" r then Some (JBool false, drop_chars 4 r) else None
      | String "034" r =>
          match chars (S (String.length r)) r with
          | Some (t, r') => Some (JStr t, r')
          | None => None
          end
      | String "[" r =>
          match skip_ws r with
          | String "]" r' => Some (JArr [], r')
          | _ => elements fuel' r []
          end
      | String "{" r =>
          match skip_ws r with
          | String "}" r' => Some (JObj [], r')
          | _ => members fuel' r []
          end
      | s' => number s'
      end
  end
with elements (fuel : nat) (s : string) (acc : list jsval) : option (jsval * string) :=
  match fuel with
  | O => None
  | S fuel' =>
      match value fuel' s with
      | Some (v, r) =>
          match skip_ws r with
          | String "," r' => elements fuel' r' (acc ++ [v])
          | String "]" r' => Some (JArr (acc ++ [v]), r')
          | _ => None
          end
      | None => None
      end
  end
with members (fuel : nat) (s : string) (acc : list (string * jsval))
    : option (jsval * string) :=
  match fuel with
  | O => None
  | S fuel' =>
      match skip_ws s with
      | String "034" r =>
          match chars (S (String.length r)) r with
          | Some (k, r1) =>
              match skip_ws r1 with
              | String ":" r2 =>
                  match value fuel' r2 with
                  | Some (v, r3) =>
                      match skip_ws r3 with
                      | String "," r4 => members fuel' r4 (acc ++ [(k, v)])
                      | String "}" r4 => Some (JObj (acc ++ [(k, v)]), r4)
                      | _ => None
                      end
                  | None => None
                  end
              | _ => None
              end
          | None => None
          end
      | _ => None
      end
  end.

Definition parse (s : string) : result jsval :=
  match value (2 * String.length s + 2) s with
  | Some (v, rest) =>
      match skip_ws rest with
      | EmptyString => Ok v
      | String _ _ => Throw "Unexpected non-whitespace character after JSON"
      end
  | None => Throw "Unexpected token in JSON"
  end.

End Json.

Example json_empty_object : Json.parse "{}" = Ok (JObj []).
Proof. vm_compute. reflexivity. Qed.

Example json_object :
  Json.parse ("{" +:+ dq +:+ "mood" +:+ dq +:+ ": " +:+ dq +:+ "Wistful" +:+ dq
              +:+ ", " +:+ dq +:+ "themes" +:+ dq +:+ ": [" +:+ dq +:+ "loss" +:+ dq
              +:+ ", 7, null]}")
  = Ok (JObj [("mood", JStr "Wistful"); ("themes", JArr [JStr "loss"; JNum 7; JNull])]).
Proof. vm_compute. reflexivity. Qed.

Example json_garbage : Json.parse "Sorry, I cannot analyse this song."
  = Throw "Unexpected token in JSON".
Proof. vm_compute. reflexivity. Qed.

(** * Properties *)

(** ** Strings *)

Section StringFacts.

Implicit Types (s t sep cur pre post : string) (c : ascii).

Lemma str_app_nil_l s : "" +:+ s = s.
Proof. reflexivity. Qed.

Lemma str_app_cons c s t : String c s +:+ t = String c (s +:+ t).
Proof. reflexivity. Qed.

Lemma str_app_nil_r s : s +:+ "" = s.
Proof. induction s as [|c s IH]; [done|]. by rewrite str_app_cons, IH. Qed.

Lemma str_app_assoc s t u : (s +:+ t) +:+ u = s +:+ t +:+ u.
Proof. induction s as [|c s IH]; [done|]. by rewrite !str_app_cons, IH. Qed.

Lemma str_length_app s t : String.length (s +:+ t) = (String.length s + String.length t)%nat.
Proof. induction s as [|c s IH]; [done|]. rewrite str_app_cons. simpl. by rewrite IH. Qed.

Lemma str_app_inj_length s s' t t' :
  s +:+ t = s' +:+ t' → String.length s = String.length s' → s = s' ∧ t = t'.
Proof.
  revert s'. induction s as [|c s IH]; intros [|c' s'] Heq Hlen; try done.
  rewrite !str_app_cons in Heq. simplify_eq/=. destruct (IH s') as [-> ->]; done.
Qed.

Lemma starts_with_app sep s : starts_with sep (sep +:+ s) = true.
Proof.
  induction sep as [|c sep IH]; [done|].
  rewrite str_app_cons. simpl. rewrite bool_decide_eq_true_2 by done. exact IH.
Qed.

Lemma starts_with_drop sep s :
  starts_with sep s = true → s = sep +:+ drop_chars (String.length sep) s.
Proof.
  revert s. induction sep as [|c sep IH]; intros [|d s] H; simplify_eq/=; [done..|].
  apply andb_true_iff in H as [Hc Hs]. apply bool_decide_eq_true_1 in Hc as ->.
  rewrite str_app_cons. f_equal. by apply IH.
Qed.

Lemma drop_chars_app sep s : drop_chars (String.length sep) (sep +:+ s) = s.
Proof. induction sep as [|c sep IH]; [by destruct s|]. rewrite str_app_cons. exact IH. Qed.

Lemma includes_app pre sep post : includes sep (pre +:+ sep +:+ post) = true.
Proof.
  induction pre as [|c pre IH].
  - rewrite str_app_nil_l. destruct (sep +:+ post) eqn:E; simpl; rewrite <- E;
      by rewrite starts_with_app.
  - rewrite str_app_cons. simpl includes. rewrite IH. apply orb_true_r.
Qed.

(** [includes] finds exactly the strings that contain the separator. *)
Lemma includes_spec sep s :
  includes sep s = true ↔ ∃ pre post, s = pre +:+ sep +:+ post.
Proof.
  split.
  - induction s as [|c s IH]; simpl; intros H.
    + rewrite orb_false_r in H. exists "", "". destruct sep; simplify_eq/=. done.
    + apply orb_true_iff in H as [H|H].
      * exists "", (drop_chars (String.length sep) (String c s)).
        rewrite str_app_nil_l. by apply starts_with_drop.
      * destruct (IH H) as (pre & post & ->). by exists (String c pre), post.
  - intros (pre & post & ->). apply includes_app.
Qed.

Lemma split_go_nonempty fuel sep cur s : split_go fuel sep cur s ≠ [].
Proof.
  revert cur s. induction fuel as [|fuel IH]; intros cur [|c s]; simpl; try done.
  destruct (starts_with sep (String c s)); [done | apply IH].
Qed.

Lemma join_cons sep p rest : rest ≠ [] → join sep (p :: rest) = p +:+ sep +:+ join sep rest.
Proof. by destruct rest. Qed.

(** Joining the pieces of a split gives the string back. *)
Lemma join_split_go fuel sep cur s : join sep (split_go fuel sep cur s) = cur +:+ s.
Proof.
  revert cur s. induction fuel as [|fuel IH]; intros cur [|c s]; simpl; try done.
  - by rewrite str_app_nil_r.
  - destruct (starts_with sep (String c s)) eqn:E.
    + rewrite join_cons by apply split_go_nonempty.
      rewrite IH, str_app_nil_l. f_equal. symmetry. by apply starts_with_drop.
    + by rewrite IH, str_app_assoc.
Qed.

(** The first piece of a split ends at the leftmost separator. *)
Lemma split_go_first sep pre : ∀ fuel cur post,
  sep ≠ "" →
  (String.length pre < fuel)%nat →
  (∀ a b, pre +:+ sep +:+ post = a +:+ sep +:+ b → (String.length pre ≤ String.length a)%nat) →
  ∃ fuel', split_go fuel sep cur (pre +:+ sep +:+ post)
           = (cur +:+ pre) :: split_go fuel' sep "" post.
Proof.
  induction pre as [|c pre IH]; intros fuel cur post Hsep Hfuel Hfirst.
  - destruct fuel as [|fuel]; [simpl in Hfuel; lia|].
    rewrite str_app_nil_l, str_app_nil_r. exists fuel.
    destruct sep as [|d sep]; [done|].
    rewrite str_app_cons. simpl split_go.
    rewrite bool_decide_eq_true_2 by done.
    by rewrite starts_with_app, drop_chars_app.
  - destruct fuel as [|fuel]; [simpl in Hfuel; lia|].
    rewrite str_app_cons. simpl split_go.
    destruct (starts_with sep (String c (pre +:+ sep +:+ post))) eqn:E.
    + apply starts_with_drop in E.
      specialize (Hfirst "" _ E). simpl in Hfirst. lia.
    + destruct (IH fuel (cur +:+ String c "") post Hsep) as [fuel' ->].
      * simpl in Hfuel. lia.
      * intros a b Hab. specialize (Hfirst (String c a) b).
        rewrite !str_app_cons, Hab in Hfirst. specialize (Hfirst eq_refl).
        simpl in Hfirst. lia.
      * exists fuel'. by rewrite str_app_assoc.
Qed.

(** [parts[0]] and [parts.slice(1).join(sep)] are the text before and
    after the leftmost separator. *)
Lemma split_leftmost sep pre post :
  sep ≠ "" →
  (∀ a b, pre +:+ sep +:+ post = a +:+ sep +:+ b → (String.length pre ≤ String.length a)%nat) →
  (2 ≤ length (split sep (pre +:+ sep +:+ post)))%nat
  ∧ head (split sep (pre +:+ sep +:+ post)) = Some pre
  ∧ join sep (slice1 (split sep (pre +:+ sep +:+ post))) = post.
Proof.
  intros Hsep Hfirst. unfold split.
  destruct (split_go_first sep pre (S (String.length (pre +:+ sep +:+ post))) "" post)
    as [fuel' ->]; [done| |done|].
  { rewrite str_length_app. lia. }
  rewrite str_app_nil_l. split_and!.
  - pose proof (split_go_nonempty fuel' sep "" post).
    destruct (split_go fuel' sep "" post); [done|]. simpl. lia.
  - done.
  - unfold slice1. change (drop 1 (pre :: ?l)) with l. by rewrite join_split_go.
Qed.

End StringFacts.

(** ** The query parser *)

(** [pre] and [post] surround the leftmost occurrence of [sep] in [s]. *)
Definition leftmost (sep pre post s : string) : Prop :=
  s = pre +:+ sep +:+ post
  ∧ ∀ a b, s = a +:+ sep +:+ b → (String.length pre ≤ String.length a)%nat.

(** The dash rule, reading the separator in [s] while parsing [query]: the
    text before the leftmost separator is the artist and the text after it,
    later separators included, the title. *)
Definition dash_rule (s query : string) : Prop :=
  ∀ pre post, leftmost " - " pre post s →
    parseQuery query = {| artist := Some (trim pre); title := Some (trim post) |}.

Lemma parseQuery_dash query pre post :
  leftmost " - " pre post (trim query) →
  parseQuery query = {| artist := Some (trim pre); title := Some (trim post) |}.
Proof.
  intros [Heq Hfirst]. unfold parseQuery. rewrite Heq in *.
  rewrite includes_app.
  destruct (split_leftmost " - " pre post) as (Hlen & Hhead & Hjoin); [done..|].
  rewrite bool_decide_eq_true_2 by done. by rewrite Hhead, Hjoin.
Qed.

(** C6, as amended: whenever the trimmed query contains " - ", the parser
    cuts it at the leftmost " - " only; the trimmed text before it is the
    artist and the trimmed text after it, further separators included, is
    the title.  No later rule (colon, "by", parentheses) is consulted. *)
Theorem dash_rule_on_trimmed_query query : dash_rule (trim query) query.
Proof. intros pre post. apply parseQuery_dash. Qed.

Lemma leftmost_sia : leftmost " - " "Sia" "Chandelier - Live" (trim "Sia - Chandelier - Live").
Proof.
  split; [reflexivity|].
  intros a b H. destruct a as [|? [|? [|? a]]]; [vm_compute in H; discriminate..|simpl; lia].
Qed.

Lemma dash_rule_on_trimmed_query_witness :
  parseQuery "Sia - Chandelier - Live"
  = {| artist := Some "Sia"; title := Some "Chandelier - Live" |}.
Proof.
  exact (dash_rule_on_trimmed_query "Sia - Chandelier - Live" "Sia" "Chandelier - Live"
           leftmost_sia).
Defined.

Example dash_before_by : parseQuery "Eagles - Hotel California by Don Henley"
  = {| artist := Some "Eagles"; title := Some "Hotel California by Don Henley" |}.
Proof. vm_compute. reflexivity. Qed.

(** C6 as stated fails: the query " - Hello" contains " - ", yet after
    trimming it no longer does, and the whole text becomes the title. *)
Lemma dash_rule_untrimmed_counterexample : ¬ dash_rule " - Hello" " - Hello".
Proof.
  intros H. specialize (H "" "Hello").
  assert (leftmost " - " "" "Hello" " - Hello") as Hl.
  { split; [reflexivity|]. intros a b _. simpl. lia. }
  specialize (H Hl). vm_compute in H. discriminate.
Qed.

(** ** Objects *)

Lemma lookup_spread (a b : jsobj) k :
  spread a b !! k = match b !! k with Some v => Some v | None => a !! k end.
Proof. unfold spread. rewrite lookup_union. by destruct (b !! k), (a !! k). Qed.

Lemma get_spread (a b : jsobj) k :
  get (spread a b) k = match b !! k with Some v => v | None => get a k end.
Proof. unfold get. rewrite lookup_spread. by destruct (b !! k). Qed.

Lemma truthy_js_or a b : truthy b = true → truthy (js_or a b) = true.
Proof. unfold js_or. by destruct (truthy a) eqn:E. Qed.

(** ** The resolver: enrichment and canonical metadata *)

(** The oracle found a recording for the song known so far. *)
Definition recording_found (env : Env) (songInfo : jsobj) (r : Recording) : Prop :=
  ∃ rest, musicbrainz_recording env (ToString (get songInfo "title"))
            (ToString (get songInfo "artist")) = Body (Some (r :: rest)).

Lemma getSongDetails_found env t a r rest :
  musicbrainz_recording env (ToString t) (ToString a) = Body (Some (r :: rest)) →
  getSongDetails env t a
  = object [("title", js_or (of_opt_str (recording_title r)) t);
            ("artist", js_or (of_opt_str (recording_artist_credit_name r)) a);
            ("year", if truthy (of_opt_str (recording_release_date r))
                     then parseInt (take_chars 4 (ToString (of_opt_str (recording_release_date r))))
                     else JUndefined);
            ("genre", of_opt_str (recording_tag_name r))].
Proof. intros H. unfold getSongDetails. by rewrite H. Qed.

Lemma getSongDetails_fallback env t a :
  (∀ r rest, musicbrainz_recording env (ToString t) (ToString a) ≠ Body (Some (r :: rest))) →
  getSongDetails env t a = object [("title", t); ("artist", a)].
Proof.
  intros H. unfold getSongDetails.
  destruct (musicbrainz_recording env (ToString t) (ToString a)) as [| |[[|r rest]|]] eqn:E;
    try done.
  by destruct (H r rest).
Qed.

(** C1 as the specification states it: a field that the lyrics or enrichment
    step has set keeps its value through the canonical lookup. *)
Definition canonical_fills_absent_only (env : Env) (query : string) : Prop :=
  ∀ songInfo finalSongInfo k,
    searchSong env (trim query) = Some songInfo →
    resolve env query = Some finalSongInfo →
    get songInfo k ≠ JUndefined →
    get finalSongInfo k = get songInfo k.

(** C1, as amended: the canonical lookup comes last, keyed on the title and
    artist known so far, and the fields it supplies replace the earlier
    values.  When a recording is found, its title and artist (where it has
    them) are the final title and artist, and its release year and first tag
    (where it has them) are the final year and genre, whatever an earlier
    step had set; when no recording is found, title, artist, year and genre
    keep their earlier values.  The lyrics always come from the earlier
    step. *)
Theorem canonical_fields_override env query songInfo :
  searchSong env (trim query) = Some songInfo →
  let detailedInfo := getSongDetails env (get songInfo "title") (get songInfo "artist") in
  ∃ finalSongInfo,
    resolve env query = Some finalSongInfo
    ∧ (∀ k, get detailedInfo k ≠ JUndefined → get finalSongInfo k = get detailedInfo k)
    ∧ (∀ k, detailedInfo !! k = None → get finalSongInfo k = get songInfo k)
    ∧ get finalSongInfo "lyrics" = get songInfo "lyrics"
    ∧ (∀ r, recording_found env songInfo r →
         get finalSongInfo "title"
         = js_or (of_opt_str (recording_title r)) (get songInfo "title")
         ∧ get finalSongInfo "artist"
           = js_or (of_opt_str (recording_artist_credit_name r)) (get songInfo "artist")
         ∧ (∀ date, recording_release_date r = Some date → date ≠ "" →
              get finalSongInfo "year" = parseInt (take_chars 4 date))
         ∧ (∀ tag, recording_tag_name r = Some tag → get finalSongInfo "genre" = JStr tag))
    ∧ ((∀ r, ¬ recording_found env songInfo r) →
         get finalSongInfo "title" = get songInfo "title"
         ∧ get finalSongInfo "artist" = get songInfo "artist"
         ∧ get finalSongInfo "year" = get songInfo "year"
         ∧ get finalSongInfo "genre" = get songInfo "genre").
Proof.
  intros Hsong detailedInfo. unfold resolve. rewrite Hsong. fold detailedInfo.
  eexists. split; [reflexivity|]. split_and!.
  - intros k Hk. rewrite get_spread. unfold get in *.
    destruct (detailedInfo !! k); [done|]. by destruct Hk.
  - intros k Hk. by rewrite get_spread, Hk.
  - rewrite get_spread. subst detailedInfo. unfold getSongDetails.
    by destruct (musicbrainz_recording _ _ _) as [| |[[|r rest]|]].
  - intros r [rest Hr]. subst detailedInfo.
    rewrite !get_spread, (getSongDetails_found _ _ _ _ _ Hr). split_and!; [done..| |].
    + intros date Hdate Hne. change (_ !! "year") with
        (Some (if truthy (of_opt_str (recording_release_date r))
               then parseInt (take_chars 4 (ToString (of_opt_str (recording_release_date r))))
               else JUndefined)).
      rewrite Hdate. simpl. by rewrite bool_decide_eq_false_2.
    + intros tag Htag. change (_ !! "genre") with (Some (of_opt_str (recording_tag_name r))).
      by rewrite Htag.
  - intros Hnone. subst detailedInfo. rewrite !get_spread, getSongDetails_fallback; [done|].
    intros r rest Hr. apply (Hnone r). by exists rest.
Qed.

(** A request environment in which no external service answers. *)
Definition offline : Env :=
  {| GENIUS_ACCESS_TOKEN := None;
     LASTFM_API_KEY := None;
     genius_search := λ _, Threw;
     lyrics_ovh := λ _ _, Threw;
     lastfm_track_getInfo := λ _ _, Threw;
     musicbrainz_recording := λ _ _, Threw;
     chat_json := λ _, ChatThrew "Connection error.";
     chat_text := λ _, ChatThrew "Connection error.";
     db_ok := λ _, true;
     now := 0 |}.

Definition believe : GeniusSong :=
  {| song_title := "Believe";
     song_primary_artist_name := "Cher";
     song_release_date_for_display := Some "October 19, 1998";
     song_url := "https://genius.com/Cher-believe-lyrics" |}.

(** Genius knows the song and its release date; MusicBrainz has a recording
    whose first release is dated a year later. *)
Definition genius_and_musicbrainz : Env :=
  {| GENIUS_ACCESS_TOKEN := Some "token";
     LASTFM_API_KEY := None;
     genius_search := λ _, Body [believe];
     lyrics_ovh := λ _ _, Threw;
     lastfm_track_getInfo := λ _ _, Threw;
     musicbrainz_recording := λ _ _,
       Body (Some [{| recording_title := Some "Believe";
                      recording_artist_credit_name := Some "Cher";
                      recording_release_date := Some "1999-02-22";
                      recording_tag_name := None |}]);
     chat_json := λ _, ChatThrew "Connection error.";
     chat_text := λ _, ChatThrew "Connection error.";
     db_ok := λ _, true;
     now := 0 |}.

Lemma canonical_fields_override_witness :
  ∃ finalSongInfo,
    resolve genius_and_musicbrainz "Cher - Believe" = Some finalSongInfo
    ∧ get finalSongInfo "year" = JNum 1999
    ∧ get finalSongInfo "genre" = JUndefined.
Proof.
  assert (searchSong genius_and_musicbrainz (trim "Cher - Believe")
          = Some (object [("title", JStr "Believe"); ("artist", JStr "Cher");
                          ("genre", JUndefined); ("year", JNum 1998);
                          ("lyrics", getGeniusLyrics "")])) as Hsong
    by reflexivity.
  destruct (canonical_fields_override genius_and_musicbrainz "Cher - Believe" _ Hsong)
    as (final & Hres & _ & Hkept & _ & Hfound & _).
  exists final. split; [exact Hres|].
  destruct (Hfound {| recording_title := Some "Believe";
                      recording_artist_credit_name := Some "Cher";
                      recording_release_date := Some "1999-02-22";
                      recording_tag_name := None |}) as (_ & _ & Hyear & _).
  { eexists. reflexivity. }
  split; [by apply (Hyear "1999-02-22")|].
  destruct (canonical_fields_override genius_and_musicbrainz "Cher - Believe" _ Hsong)
    as (final' & Hres' & Hcanon & _).
  rewrite Hres in Hres'. injection Hres' as <-.
  unfold resolve in Hres. rewrite Hsong in Hres. injection Hres as <-. reflexivity.
Defined.

(** C1 as stated fails: Genius dates the song 1998, the canonical recording
    is dated 1999, and the resolved year is 1999. *)
Lemma canonical_overrides_year_counterexample :
  ¬ canonical_fills_absent_only genius_and_musicbrainz "Cher - Believe".
Proof.
  intros H.
  specialize (H (object [("title", JStr "Believe"); ("artist", JStr "Cher");
                         ("genre", JUndefined); ("year", JNum 1998);
                         ("lyrics", getGeniusLyrics "")])
                (object [("title", JStr "Believe"); ("artist", JStr "Cher");
                         ("genre", JUndefined); ("year", JNum 1999);
                         ("lyrics", getGeniusLyrics "")])
                "year").
  assert (JNum 1999 = JNum 1998) as Habs; [|discriminate].
  apply H; [reflexivity..|vm_compute; discriminate].
Qed.

(** C2 as the specification states it: where the lyrics source supplies a
    genre or year and the enrichment source a different one, the lyrics
    source's value is the resolved one. *)
Definition lyrics_result_has_priority (env : Env) (query : string) : Prop :=
  ∀ lyricsResult enrichment resolved k,
    k = "genre" ∨ k = "year" →
    searchGenius env query = Some lyricsResult →
    getLastFmTrackInfo env (get lyricsResult "title") (get lyricsResult "artist")
      = Some enrichment →
    searchSong env query = Some resolved →
    get lyricsResult k ≠ JUndefined →
    get enrichment k ≠ get lyricsResult k →
    get resolved k = get lyricsResult k.

(** The result of the first lyrics source that answers: Genius, else
    lyrics.ovh. *)
Definition lyrics_source (env : Env) (query : string) : option jsobj :=
  match searchGenius env query with
  | Some geniusResult => Some geniusResult
  | None => searchLyricsOvh env query
  end.

(** C2, as amended: in the merge of a lyrics-source result with the
    enrichment result, title and artist are the lyrics source's, while for
    genre and year the enrichment value is taken whenever it is truthy; the
    lyrics source's genre or year is used only where enrichment has none. *)
Theorem enrichment_has_priority env query lyricsResult :
  lyrics_source env query = Some lyricsResult →
  let enrichment :=
    getLastFmTrackInfo env (get lyricsResult "title") (get lyricsResult "artist") in
  ∃ resolved,
    searchSong env query = Some resolved
    ∧ get resolved "title" = get lyricsResult "title"
    ∧ get resolved "artist" = get lyricsResult "artist"
    ∧ ∀ k, k = "genre" ∨ k = "year" →
        get resolved k
        = if truthy (opt_get enrichment k) then opt_get enrichment k
          else get lyricsResult k.
Proof.
  intros Hsrc enrichment. unfold lyrics_source in Hsrc. unfold searchSong.
  destruct (searchGenius env query) as [geniusResult|].
  - simplify_eq. fold enrichment. eexists. split; [reflexivity|].
    split_and!; [done..|]. by intros k [-> | ->].
  - rewrite Hsrc. fold enrichment. eexists. split; [reflexivity|].
    unfold extend, get. simpl foldl. split_and!.
    + by rewrite !lookup_insert_ne.
    + by rewrite !lookup_insert_ne.
    + intros k [-> | ->].
      * by rewrite lookup_insert_ne, lookup_insert_eq.
      * by rewrite lookup_insert_eq.
Qed.

(** Genius dates the song 1998; Last.fm tags it and dates its album 1999. *)
Definition genius_and_lastfm : Env :=
  {| GENIUS_ACCESS_TOKEN := Some "token";
     LASTFM_API_KEY := Some "key";
     genius_search := λ _, Body [believe];
     lyrics_ovh := λ _ _, Threw;
     lastfm_track_getInfo := λ _ _,
       Body (Some {| track_toptags_tag := Some ["pop"; "dance"];
                     track_album_year := Some "1999" |});
     musicbrainz_recording := λ _ _, Threw;
     chat_json := λ _, ChatThrew "Connection error.";
     chat_text := λ _, ChatThrew "Connection error.";
     db_ok := λ _, true;
     now := 0 |}.

Lemma enrichment_has_priority_witness :
  ∃ resolved,
    searchSong genius_and_lastfm "Cher - Believe" = Some resolved
    ∧ get resolved "year" = JNum 1999
    ∧ get resolved "genre" = JStr "pop".
Proof.
  assert (lyrics_source genius_and_lastfm "Cher - Believe"
          = Some (object [("title", JStr "Believe"); ("artist", JStr "Cher");
                          ("year", JNum 1998); ("lyrics", getGeniusLyrics "")])) as Hsrc
    by reflexivity.
  destruct (enrichment_has_priority genius_and_lastfm "Cher - Believe" _ Hsrc)
    as (resolved & Hres & _ & _ & Hk).
  exists resolved. split; [exact Hres|]. split.
  - rewrite (Hk "year") by (by right). vm_compute. reflexivity.
  - rewrite (Hk "genre") by (by left). vm_compute. reflexivity.
Defined.

(** C2 as stated fails: the lyrics source gives the year 1998, enrichment
    gives 1999, and the resolved year is 1999. *)
Lemma enrichment_overrides_year_counterexample :
  ¬ lyrics_result_has_priority genius_and_lastfm "Cher - Believe".
Proof.
  intros H.
  specialize (H (object [("title", JStr "Believe"); ("artist", JStr "Cher");
                         ("year", JNum 1998); ("lyrics", getGeniusLyrics "")])
                (object [("genre", JStr "pop"); ("year", JNum 1999)])
                (object [("title", JStr "Believe"); ("artist", JStr "Cher");
                         ("genre", JStr "pop"); ("year", JNum 1999);
                         ("lyrics", getGeniusLyrics "")])
                "year").
  assert (JNum 1999 = JNum 1998) as Habs; [|discriminate].
  apply H; [by right|reflexivity..|vm_compute; discriminate|vm_compute; discriminate].
Qed.

(** ** Dispatch of the analysis engine *)

Lemma searchGenius_lyrics env query geniusResult :
  searchGenius env query = Some geniusResult →
  get geniusResult "lyrics"
  = JStr "High-quality lyrics from Genius (lyrics extraction would require additional implementation)".
Proof.
  unfold searchGenius. intros H. destruct (negb _); [done|].
  destruct (genius_search env _) as [| |[|song hits]]; by simplify_eq.
Qed.

Lemma getSongDetails_no_lyrics env t a : getSongDetails env t a !! "lyrics" = None.
Proof. unfold getSongDetails. by destruct (musicbrainz_recording _ _ _) as [| |[[|r rest]|]]. Qed.

(** C3: the handler tests the truthiness of the lyrics field only.  An
    absent lyrics field selects the metadata-only variant.  But the
    "Lyrics not found" sentinel that [searchSong] writes is a non-empty
    string and selects the lyrics-grounded variant, and so does the
    placeholder that stands for the lyrics of every Genius hit: the
    lyrics-grounded variant runs without genuine lyric text. *)
Theorem placeholder_selects_lyrics_grounded :
  (∀ finalSongInfo : jsobj,
     get finalSongInfo "lyrics" = JUndefined → dispatch finalSongInfo = MetadataOnly)
  ∧ (∀ finalSongInfo : jsobj,
       get finalSongInfo "lyrics" = JStr "Lyrics not found" →
       dispatch finalSongInfo = LyricsGrounded)
  ∧ (∀ env query geniusResult,
       searchGenius env (trim query) = Some geniusResult →
       ∃ finalSongInfo,
         resolve env query = Some finalSongInfo
         ∧ get finalSongInfo "lyrics"
           = JStr "High-quality lyrics from Genius (lyrics extraction would require additional implementation)"
         ∧ dispatch finalSongInfo = LyricsGrounded).
Proof.
  split_and!.
  - intros final H. unfold dispatch. by rewrite H.
  - intros final H. unfold dispatch. by rewrite H.
  - intros env query g Hg. unfold resolve, searchSong. rewrite Hg. cbv zeta.
    match goal with |- context [spread (object ?props)] => set (songInfo := object props) end.
    eexists. split; [reflexivity|].
    assert (get (spread songInfo
                   (getSongDetails env (get songInfo "title") (get songInfo "artist")))
                "lyrics"
            = JStr "High-quality lyrics from Genius (lyrics extraction would require additional implementation)")
      as Hl.
    { rewrite get_spread, getSongDetails_no_lyrics.
      change (get songInfo "lyrics") with (js_or (get g "lyrics") (JStr "Lyrics not found")).
      by rewrite (searchGenius_lyrics _ _ _ Hg). }
    unfold dispatch. by rewrite Hl.
Qed.

Lemma placeholder_selects_lyrics_grounded_witness :
  dispatch (object [("title", JStr "Stay"); ("artist", JStr "Rihanna");
                    ("lyrics", JStr "Lyrics not found")]) = LyricsGrounded
  ∧ ∃ finalSongInfo,
      resolve genius_and_musicbrainz "Cher - Believe" = Some finalSongInfo
      ∧ dispatch finalSongInfo = LyricsGrounded.
Proof.
  destruct placeholder_selects_lyrics_grounded as (_ & Hsentinel & Hgenius).
  split.
  - apply Hsentinel. reflexivity.
  - destruct (Hgenius genius_and_musicbrainz "Cher - Believe"
                (object [("title", JStr "Believe"); ("artist", JStr "Cher");
                         ("year", JNum 1998); ("lyrics", getGeniusLyrics "")]) eq_refl)
      as (final & Hres & _ & Hd).
    by exists final.
Defined.

(** ** Resolution and NotFound *)

Fixpoint whitespace_only (s : string) : bool :=
  match s with
  | String c s' => Chars.is_ws c && whitespace_only s'
  | EmptyString => true
  end.

Lemma trimStart_not_blank s :
  whitespace_only s = false → ∃ c t, trimStart s = String c t ∧ Chars.is_ws c = false.
Proof.
  induction s as [|c s IH]; simpl; [done|]. intros H.
  destruct (Chars.is_ws c) eqn:E; [by apply IH|]. by exists c, s.
Qed.

Lemma trimStart_blank s : whitespace_only s = true → trimStart s = "".
Proof.
  induction s as [|c s IH]; simpl; [done|]. intros [-> H]%andb_true_iff. by apply IH.
Qed.

Lemma trimEnd_head c t : Chars.is_ws c = false → ∃ t', trimEnd (String c t) = String c t'.
Proof. intros H. simpl. rewrite H. destruct (trimEnd t); eauto. Qed.

Lemma trim_not_blank s :
  whitespace_only s = false → ∃ c t, trim s = String c t ∧ Chars.is_ws c = false.
Proof.
  intros (c & t & Hs & Hc)%trimStart_not_blank. unfold trim. rewrite Hs.
  destruct (trimEnd_head c t Hc) as [t' ->]. eauto.
Qed.

Lemma trim_blank s : whitespace_only s = true → trim s = "".
Proof. intros H. unfold trim. by rewrite trimStart_blank. Qed.


Lemma searchSong_is_Some env query : is_Some (searchSong env query).
Proof.
  unfold searchSong, extractSongInfo.
  destruct (searchGenius env query); [done|].
  destruct (searchLyricsOvh env query); [done|].
  by destruct (_ || _).
Qed.






(** ** The lyrics-grounded analysis *)

(** The documented all-defaults result. *)
Definition allDefaults : LyricsAnalysis :=
  {| meaning := JStr "Unable to analyze the meaning of this song.";
     themes := [];
     mood := JStr "Unknown";
     interpretation := JStr "No additional interpretation available." |}.

(** C5 as the specification states it: content that does not parse as JSON
    yields the all-defaults result. *)
Definition parse_failure_degrades (JSON_parse : string → result jsval) (env : Env)
    (songTitle artist lyrics : jsval) : Prop :=
  ∀ content m,
    chat_json env (lyricsPrompt songTitle artist lyrics) = ChatContent (Some content) →
    JSON_parse content = Throw m →
    analyzeLyrics JSON_parse env songTitle artist lyrics = Ok allDefaults.

(** C5, as amended: content that is not parseable as JSON makes the
    lyrics-grounded analysis throw "Failed to analyze lyrics: " followed by
    the parser's message, and the search request then fails with status 500
    and "Failed to analyze song", leaving the database as it was.  Only an
    absent or empty content degrades to the all-defaults result, through the
    "{}" that replaces it. *)
Theorem parse_failure_is_rethrown JSON_parse env (finalSongInfo : jsobj) :
  let songTitle := get finalSongInfo "title" in
  let artist := get finalSongInfo "artist" in
  let lyrics := get finalSongInfo "lyrics" in
  (∀ content m,
     chat_json env (lyricsPrompt songTitle artist lyrics) = ChatContent (Some content) →
     content ≠ "" →
     JSON_parse content = Throw m →
     analyzeLyrics JSON_parse env songTitle artist lyrics
     = Throw ("Failed to analyze lyrics: " +:+ m)
     ∧ ∀ req db query,
         member (body req) "query" = Ok (JStr query) →
         query ≠ "" →
         resolve env query = Some finalSongInfo →
         dispatch finalSongInfo = LyricsGrounded →
         searchRoute JSON_parse env req db
         = ({| status := 500;
               json := Failure "Failed to analyze song"
                               ("Failed to analyze lyrics: " +:+ m) |}, db))
  ∧ (∀ content,
       chat_json env (lyricsPrompt songTitle artist lyrics) = ChatContent content →
       content = None ∨ content = Some "" →
       JSON_parse "{}" = Ok (JObj []) →
       analyzeLyrics JSON_parse env songTitle artist lyrics = Ok allDefaults).
Proof.
  intros songTitle artist lyrics. split.
  - intros content m Hchat Hne Hparse.
    assert (analyzeLyrics JSON_parse env songTitle artist lyrics
            = Throw ("Failed to analyze lyrics: " +:+ m)) as Han.
    { unfold analyzeLyrics. rewrite Hchat. unfold js_or. simpl.
      rewrite bool_decide_eq_false_2 by done. simpl. by rewrite Hparse. }
    split; [exact Han|].
    intros req db query Hq Hne' Hres Hdisp. unfold searchRoute.
    rewrite Hq, bool_decide_eq_false_2, Hres by done.
    unfold analyse. rewrite Hdisp. fold songTitle artist lyrics. by rewrite Han.
  - intros content Hchat Hcontent Hparse. unfold analyzeLyrics. rewrite Hchat.
    destruct Hcontent as [-> | ->]; simpl; by rewrite Hparse.
Qed.

(** lyrics.ovh has the lyrics; the model answers in prose. *)
Definition prose_answer : Env :=
  {| GENIUS_ACCESS_TOKEN := None;
     LASTFM_API_KEY := None;
     genius_search := λ _, Threw;
     lyrics_ovh := λ _ _, Body (Some "No matter how hard I try");
     lastfm_track_getInfo := λ _ _, Threw;
     musicbrainz_recording := λ _ _, Threw;
     chat_json := λ _, ChatContent (Some "Sorry, I cannot analyse this song.");
     chat_text := λ _, ChatThrew "Connection error.";
     db_ok := λ _, true;
     now := 0 |}.

Definition believe_ovh : jsobj :=
  object [("title", JStr "Believe"); ("artist", JStr "Cher");
          ("lyrics", JStr "No matter how hard I try");
          ("genre", JUndefined); ("year", JUndefined)].

Definition one_user : DB :=
  {| users := {["u1"]}; songAnalyses := []; favorites := []; searchHistory := [];
     songAnalyses_seq := 1; favorites_seq := 1; searchHistory_seq := 1 |}.

Definition search_request (query : string) : Request :=
  {| claims_sub := "u1"; body := JObj [("query", JStr query)];
     query_limit := None; params_songAnalysisId := "" |}.

Lemma parse_failure_is_rethrown_witness :
  searchRoute Json.parse prose_answer (search_request "Cher - Believe") one_user
  = ({| status := 500;
        json := Failure "Failed to analyze song"
                        "Failed to analyze lyrics: Unexpected token in JSON" |}, one_user).
Proof.
  destruct (parse_failure_is_rethrown Json.parse prose_answer believe_ovh) as [H _].
  destruct (H "Sorry, I cannot analyse this song." "Unexpected token in JSON")
    as [_ Hroute]; [reflexivity|discriminate|reflexivity|].
  apply (Hroute (search_request "Cher - Believe") one_user "Cher - Believe");
    [reflexivity|discriminate|reflexivity|reflexivity].
Defined.

(** C5 as stated fails: prose instead of JSON is an error of the analysis,
    not the all-defaults result. *)
Lemma parse_failure_counterexample :
  ¬ parse_failure_degrades Json.parse prose_answer
      (JStr "Believe") (JStr "Cher") (JStr "No matter how hard I try").
Proof.
  intros H.
  specialize (H "Sorry, I cannot analyse this song." "Unexpected token in JSON"
                eq_refl eq_refl).
  vm_compute in H. discriminate.
Qed.

(** A key of the expected type: a string, or for the themes a list of
    strings. *)
Definition is_text (v : jsval) : bool :=
  match v with JStr _ => true | _ => false end.

Definition is_text_list (v : jsval) : bool :=
  match v with JArr items => forallb is_text items | _ => false end.

(** C7 as the specification states it: a key that is missing or not of the
    expected type is replaced by its default. *)
Definition malformed_keys_get_defaults (JSON_parse : string → result jsval) (env : Env)
    (songTitle artist lyrics : jsval) : Prop :=
  ∀ content props r,
    chat_json env (lyricsPrompt songTitle artist lyrics) = ChatContent (Some content) →
    JSON_parse content = Ok (JObj props) →
    analyzeLyrics JSON_parse env songTitle artist lyrics = Ok r →
    (is_text (prop_get props "meaning") = false → meaning r = meaning allDefaults)
    ∧ (is_text_list (prop_get props "themes") = false → themes r = themes allDefaults)
    ∧ (is_text (prop_get props "mood") = false → mood r = mood allDefaults)
    ∧ (is_text (prop_get props "interpretation") = false →
         interpretation r = interpretation allDefaults).

(** C7, as amended: a key of the model's JSON object that is missing or
    holds a falsy value (null, false, 0, the empty string) is replaced by its
    documented default, and a themes value that is not an array by the empty
    list; a truthy value is kept whatever its type, and so is an array
    whatever its elements.  For the response "{}" the result is exactly
    the all-defaults record. *)
Theorem falsy_keys_get_defaults JSON_parse env songTitle artist lyrics content props :
  chat_json env (lyricsPrompt songTitle artist lyrics) = ChatContent content →
  JSON_parse (ToString (js_or (of_opt_str content) (JStr "{}"))) = Ok (JObj props) →
  ∃ r,
    analyzeLyrics JSON_parse env songTitle artist lyrics = Ok r
    ∧ meaning r
      = (if truthy (prop_get props "meaning") then prop_get props "meaning"
         else JStr "Unable to analyze the meaning of this song.")
    ∧ themes r
      = match prop_get props "themes" with JArr items => items | _ => [] end
    ∧ mood r
      = (if truthy (prop_get props "mood") then prop_get props "mood"
         else JStr "Unknown")
    ∧ interpretation r
      = (if truthy (prop_get props "interpretation") then prop_get props "interpretation"
         else JStr "No additional interpretation available.")
    ∧ (props = [] →
         r = {| meaning := JStr "Unable to analyze the meaning of this song.";
                themes := [];
                mood := JStr "Unknown";
                interpretation := JStr "No additional interpretation available." |}).
Proof.
  intros Hchat Hparse. unfold analyzeLyrics. rewrite Hchat, Hparse. simpl.
  eexists. split; [reflexivity|]. simpl. split_and!; try done. by intros ->.
Qed.

(** The model answers with the empty JSON object. *)
Definition empty_object_answer : Env :=
  {| GENIUS_ACCESS_TOKEN := None;
     LASTFM_API_KEY := None;
     genius_search := λ _, Threw;
     lyrics_ovh := λ _ _, Body (Some "No matter how hard I try");
     lastfm_track_getInfo := λ _ _, Threw;
     musicbrainz_recording := λ _ _, Threw;
     chat_json := λ _, ChatContent (Some "{}");
     chat_text := λ _, ChatThrew "Connection error.";
     db_ok := λ _, true;
     now := 0 |}.

Lemma falsy_keys_get_defaults_witness :
  analyzeLyrics Json.parse empty_object_answer
    (JStr "Believe") (JStr "Cher") (JStr "No matter how hard I try")
  = Ok {| meaning := JStr "Unable to analyze the meaning of this song.";
          themes := [];
          mood := JStr "Unknown";
          interpretation := JStr "No additional interpretation available." |}.
Proof.
  destruct (falsy_keys_get_defaults Json.parse empty_object_answer
              (JStr "Believe") (JStr "Cher") (JStr "No matter how hard I try")
              (Some "{}") [] eq_refl eq_refl)
    as (r & Hr & _ & _ & _ & _ & Hall).
  rewrite Hr, (Hall eq_refl). reflexivity.
Defined.

(** The model answers with an object where the meaning should be a string. *)
Definition nested_answer_text : string :=
  "{" +:+ dq +:+ "meaning" +:+ dq +:+ ": {" +:+ dq +:+ "text" +:+ dq +:+ ": "
  +:+ dq +:+ "A song about loss" +:+ dq +:+ "}}".

Definition nested_answer : Env :=
  {| GENIUS_ACCESS_TOKEN := None;
     LASTFM_API_KEY := None;
     genius_search := λ _, Threw;
     lyrics_ovh := λ _ _, Body (Some "No matter how hard I try");
     lastfm_track_getInfo := λ _ _, Threw;
     musicbrainz_recording := λ _ _, Threw;
     chat_json := λ _, ChatContent (Some nested_answer_text);
     chat_text := λ _, ChatThrew "Connection error.";
     db_ok := λ _, true;
     now := 0 |}.

(** C7 as stated fails: a malformed meaning, an object instead of a
    string, is kept. *)
Lemma malformed_key_kept_counterexample :
  ¬ malformed_keys_get_defaults Json.parse nested_answer
      (JStr "Believe") (JStr "Cher") (JStr "No matter how hard I try").
Proof.
  intros H.
  destruct (H nested_answer_text [("meaning", JObj [("text", JStr "A song about loss")])]
              {| meaning := JObj [("text", JStr "A song about loss")];
                 themes := []; mood := JStr "Unknown";
                 interpretation := JStr "No additional interpretation available." |})
    as [Hm _]; [reflexivity..|].
  specialize (Hm eq_refl). discriminate.
Qed.

(** ** Favorites *)

(** The favorite records of a (user, analysis) pair. *)
Definition favorite_count (userId : string) (songAnalysisId : Z) (db : DB) : nat :=
  length (filter (λ f, fav_userId f = userId ∧ fav_songAnalysisId f = songAnalysisId)
                 (favorites db)).

Lemma isFavorite_count env userId songAnalysisId db b :
  Storage.isFavorite env userId songAnalysisId db = Ok b →
  b = bool_decide (1 ≤ favorite_count userId songAnalysisId db)%nat.
Proof.
  unfold Storage.isFavorite, favorite_count.
  destruct (negb _); [done|].
  destruct (filter _ _); intros; simplify_eq; symmetry.
  - apply bool_decide_eq_false_2. simpl. lia.
  - apply bool_decide_eq_true_2. simpl. lia.
Qed.

Lemma isFavorite_up env userId songAnalysisId db :
  db_ok env "isFavorite" = true →
  Storage.isFavorite env userId songAnalysisId db
  = Ok (bool_decide (1 ≤ favorite_count userId songAnalysisId db)%nat).
Proof.
  intros Hup. unfold Storage.isFavorite, favorite_count. rewrite Hup. simpl.
  by destruct (filter _ _).
Qed.

Lemma validateFavorite_user req v : validateFavorite req = Ok v → insf_userId v = claims_sub req.
Proof. unfold validateFavorite. intros H. repeat case_match; by simplify_eq. Qed.

Lemma already_favorite_refused env req db v :
  validateFavorite req = Ok v →
  db_ok env "isFavorite" = true →
  (1 ≤ favorite_count (claims_sub req) (insf_songAnalysisId v) db)%nat →
  addFavoriteRoute env req db
  = ({| status := 400; json := Message "Song is already in favorites" |}, db).
Proof.
  intros Hv Hup Hcount. unfold addFavoriteRoute.
  rewrite Hv, (isFavorite_up env) by done. by rewrite bool_decide_eq_true_2.
Qed.

Lemma first_favorite_counts_one env req db favorite db1 :
  addFavoriteRoute env req db = ({| status := 201; json := FavoriteJson favorite |}, db1) →
  ∃ v, validateFavorite req = Ok v
       ∧ insf_songAnalysisId v = fav_songAnalysisId favorite
       ∧ favorite_count (claims_sub req) (fav_songAnalysisId favorite) db = 0%nat
       ∧ favorite_count (claims_sub req) (fav_songAnalysisId favorite) db1 = 1%nat.
Proof.
  intros Hfirst. unfold addFavoriteRoute in Hfirst.
  destruct (validateFavorite req) as [v|] eqn:Hv; [|done].
  pose proof (validateFavorite_user _ _ Hv) as Hu.
  destruct (Storage.isFavorite env _ _ db) as [[]|] eqn:Hfav; [done| |done].
  apply isFavorite_count in Hfav. symmetry in Hfav. apply bool_decide_eq_false_1 in Hfav.
  unfold Storage.addToFavorites in Hfirst.
  destruct (negb _); [done|]. destruct (_ && _); [|done]. simplify_eq. simpl.
  exists v. split_and!; [done..|lia|].
  unfold favorite_count in *. simpl. rewrite filter_app, length_app.
  rewrite filter_cons_True by done. simpl. lia.
Qed.

(** C8: once a pair is a favorite, a further add-favorite request for it is
    refused with "Song is already in favorites" and the database is left as
    it was.  In particular, after a first request that succeeded the second
    one is refused and the pair still has exactly one favorite record. *)
Theorem duplicate_favorite_rejected env req db :
  db_ok env "isFavorite" = true →
  (∀ v, validateFavorite req = Ok v →
        (1 ≤ favorite_count (claims_sub req) (insf_songAnalysisId v) db)%nat →
        addFavoriteRoute env req db
        = ({| status := 400; json := Message "Song is already in favorites" |}, db))
  ∧ (∀ env0 db0 favorite,
       addFavoriteRoute env0 req db0
       = ({| status := 201; json := FavoriteJson favorite |}, db) →
       favorite_count (claims_sub req) (fav_songAnalysisId favorite) db = 1%nat
       ∧ addFavoriteRoute env req db
         = ({| status := 400; json := Message "Song is already in favorites" |}, db)
       ∧ favorite_count (claims_sub req) (fav_songAnalysisId favorite)
           (addFavoriteRoute env req db).2 = 1%nat).
Proof.
  intros Hup. split.
  - intros v Hv Hcount. by apply already_favorite_refused with v.
  - intros env0 db0 favorite Hfirst.
    destruct (first_favorite_counts_one _ _ _ _ _ Hfirst) as (v & Hv & Hid & _ & Hone).
    assert (addFavoriteRoute env req db
            = ({| status := 400; json := Message "Song is already in favorites" |}, db))
      as Hsecond.
    { apply already_favorite_refused with v; [done..|]. rewrite Hid. lia. }
    by rewrite Hsecond.
Qed.

Definition believe_analysis : SongAnalysis :=
  {| sa_id := 1; sa_title := "Believe"; sa_artist := "Cher"; sa_genre := Some "pop";
     sa_yearReleased := Some 1998; sa_lyricsAnalysis := "A song about moving on.";
     sa_userId := "u1"; sa_createdAt := 0 |}.

Definition one_analysis : DB :=
  {| users := {["u1"]}; songAnalyses := [believe_analysis]; favorites := [];
     searchHistory := [];
     songAnalyses_seq := 2; favorites_seq := 1; searchHistory_seq := 1 |}.

Definition favorite_request : Request :=
  {| claims_sub := "u1"; body := JObj [("songAnalysisId", JNum 1)];
     query_limit := None; params_songAnalysisId := "" |}.

Lemma duplicate_favorite_rejected_witness :
  ∃ db1,
    status (addFavoriteRoute offline favorite_request one_analysis).1 = 201
    ∧ db1 = (addFavoriteRoute offline favorite_request one_analysis).2
    ∧ addFavoriteRoute offline favorite_request db1
      = ({| status := 400; json := Message "Song is already in favorites" |}, db1)
    ∧ favorite_count "u1" 1 db1 = 1%nat.
Proof.
  eexists. split; [reflexivity|]. split; [reflexivity|].
  destruct (duplicate_favorite_rejected offline favorite_request
              (addFavoriteRoute offline favorite_request one_analysis).2 eq_refl)
    as [_ H].
  destruct (H offline one_analysis _ eq_refl) as (Hone & Hsecond & _).
  split; [exact Hsecond|exact Hone].
Defined.

(** ** The search handler and the history *)

(** What an insert into the table [t] leaves behind when it is refused:
    the database as it was, but for the id it may have used up. *)
Definition refused_insert (t : Storage.table) (db db' : DB) : Prop :=
  db' = db ∨ db' = Storage.nextval t db.

Lemma createSongAnalysis_appends env analysis db row db1 :
  Storage.createSongAnalysis env analysis db = (Ok row, db1) →
  songAnalyses db1 = songAnalyses db ++ [row] ∧ searchHistory db1 = searchHistory db.
Proof.
  unfold Storage.createSongAnalysis. cbv zeta. intros H. repeat case_match; by simplify_eq.
Qed.

Lemma createSongAnalysis_refused env analysis db message db1 :
  Storage.createSongAnalysis env analysis db = (Throw message, db1) →
  refused_insert Storage.SongAnalysesTable db db1.
Proof.
  unfold Storage.createSongAnalysis, Storage.unavailable, refused_insert. cbv zeta.
  intros H. repeat case_match; simplify_eq; auto.
Qed.

Lemma addToSearchHistory_appends env search db row db1 :
  Storage.addToSearchHistory env search db = (Ok row, db1) →
  songAnalyses db1 = songAnalyses db
  ∧ searchHistory db1 = searchHistory db ++ [row]
  ∧ sh_songAnalysisId row = inss_songAnalysisId search.
Proof.
  unfold Storage.addToSearchHistory. intros H. repeat case_match; by simplify_eq.
Qed.

Lemma addToSearchHistory_refused env search db message db1 :
  Storage.addToSearchHistory env search db = (Throw message, db1) →
  refused_insert Storage.SearchHistoryTable db db1.
Proof.
  unfold Storage.addToSearchHistory, Storage.unavailable, refused_insert.
  intros H. repeat case_match; simplify_eq; auto.
Qed.

(** C9: a search request writes a history entry only after it has created
    the analysis record, and the entry refers to that record.  When the
    request fails (at the creation of the analysis or anywhere before or
    after it) and whenever no analysis record was created, the history is
    left as it was; a refused creation leaves the database as it was, but
    for the analysis id it may have used up. *)
Theorem history_only_after_analysis JSON_parse env req db :
  let response := (searchRoute JSON_parse env req db).1 in
  let db' := (searchRoute JSON_parse env req db).2 in
  (status response ≠ 200 → searchHistory db' = searchHistory db)
  ∧ (songAnalyses db' = songAnalyses db → searchHistory db' = searchHistory db)
  ∧ (∀ query finalSongInfo analysis message,
       member (body req) "query" = Ok (JStr query) →
       query ≠ "" →
       resolve env query = Some finalSongInfo →
       analyse JSON_parse env finalSongInfo = Ok analysis →
       (Storage.createSongAnalysis env (toInsert (claims_sub req) finalSongInfo analysis) db).1
       = Throw message →
       response = {| status := 500; json := Failure "Failed to analyze song" message |}
       ∧ (db' = db ∨ db' = Storage.nextval Storage.SongAnalysesTable db))
  ∧ (searchHistory db' = searchHistory db
     ∨ ∃ songAnalysis entry,
         songAnalyses db' = songAnalyses db ++ [songAnalysis]
         ∧ searchHistory db' = searchHistory db ++ [entry]
         ∧ sh_songAnalysisId entry = Some (sa_id songAnalysis)
         ∧ songAnalysis ∈ songAnalyses db'
         ∧ response = {| status := 200; json := AnalysisJson songAnalysis |}).
Proof.
  intros response db'.
  assert (searchHistory db' = searchHistory db ∧ status response ≠ 200
          ∨ ∃ songAnalysis entry,
              songAnalyses db' = songAnalyses db ++ [songAnalysis]
              ∧ searchHistory db' = searchHistory db ++ [entry]
              ∧ sh_songAnalysisId entry = Some (sa_id songAnalysis)
              ∧ response = {| status := 200; json := AnalysisJson songAnalysis |}) as Hcases.
  { subst response db'. unfold searchRoute, failed.
    destruct (member (body req) "query") as [[]|]; simpl; try (by left).
    case_bool_decide; simpl; [by left|].
    destruct (resolve env s); simpl; [|by left].
    destruct (analyse _ _ _); simpl; [|by left].
    destruct (Storage.createSongAnalysis _ _ _) as [[row|m] db1] eqn:Hcreate; simpl.
    2: { apply createSongAnalysis_refused in Hcreate as [-> | ->]; by left. }
    apply createSongAnalysis_appends in Hcreate as [Hsa Hsh].
    destruct (Storage.addToSearchHistory _ _ _) as [[entry|m] db2] eqn:Hadd; simpl.
    - apply addToSearchHistory_appends in Hadd as (Hsa2 & Hsh2 & Hid). simpl in Hid.
      right. exists row, entry. by rewrite Hsa2, Hsh2, Hsa, Hsh.
    - apply addToSearchHistory_refused in Hadd as [-> | ->]; by left. }
  split_and!.
  - intros Hstatus. destruct Hcases as [[H _]|(a & h & _ & _ & _ & Hresp)]; [done|].
    by rewrite Hresp in Hstatus.
  - intros Hsame. destruct Hcases as [[H _]|(a & h & Hsa & _)]; [done|].
    rewrite Hsame in Hsa. apply (f_equal length) in Hsa. rewrite length_app in Hsa.
    simpl in Hsa. lia.
  - intros query final analysis message Hq Hne Hres Han Hcreate.
    subst response db'. unfold searchRoute.
    rewrite Hq, bool_decide_eq_false_2, Hres, Han by done.
    destruct (Storage.createSongAnalysis _ _ _) as [r db1] eqn:Hc.
    simpl in Hcreate. subst r. split; [done|].
    by apply createSongAnalysis_refused in Hc.
  - destruct Hcases as [[H _]|(a & h & Hsa & Hsh & Hid & Hresp)]; [by left|].
    right. exists a, h. split_and!; try done. rewrite Hsa. set_solver.
Qed.

(** The model answers the metadata-only request; the user is not in the
    database, so the analysis cannot be saved. *)
Definition free_text_answer : Env :=
  {| GENIUS_ACCESS_TOKEN := None;
     LASTFM_API_KEY := None;
     genius_search := λ _, Threw;
     lyrics_ovh := λ _ _, Threw;
     lastfm_track_getInfo := λ _ _, Threw;
     musicbrainz_recording := λ _ _, Threw;
     chat_json := λ _, ChatThrew "Connection error.";
     chat_text := λ _,
       ChatContent (Some ("## Core Theme" +:+ nl +:+ "Longing." +:+ nl
                          +:+ "Genre: Pop" +:+ nl +:+ "Release Year: 2013"));
     db_ok := λ _, true;
     now := 7 |}.

Definition no_user : DB :=
  {| users := ∅; songAnalyses := []; favorites := []; searchHistory := [];
     songAnalyses_seq := 1; favorites_seq := 1; searchHistory_seq := 1 |}.

Lemma history_only_after_analysis_witness :
  status (searchRoute Json.parse free_text_answer (search_request "Stay") no_user).1 = 500
  ∧ searchHistory (searchRoute Json.parse free_text_answer (search_request "Stay") no_user).2
    = [].
Proof.
  split; [reflexivity|].
  destruct (history_only_after_analysis Json.parse free_text_answer
              (search_request "Stay") no_user) as (H & _).
  apply H. vm_compute. discriminate.
Defined.

Example search_saves_analysis_then_history :
  searchRoute Json.parse free_text_answer (search_request "Stay") one_user
  = ({| status := 200;
        json := AnalysisJson
          {| sa_id := 1; sa_title := "Stay"; sa_artist := "Unknown Artist";
             sa_genre := Some "Pop"; sa_yearReleased := Some 2013;
             sa_lyricsAnalysis := "## Core Theme" +:+ nl +:+ "Longing.";
             sa_userId := "u1"; sa_createdAt := 7 |} |},
     {| users := {["u1"]};
        songAnalyses :=
          [{| sa_id := 1; sa_title := "Stay"; sa_artist := "Unknown Artist";
              sa_genre := Some "Pop"; sa_yearReleased := Some 2013;
              sa_lyricsAnalysis := "## Core Theme" +:+ nl +:+ "Longing.";
              sa_userId := "u1"; sa_createdAt := 7 |}];
        favorites := [];
        searchHistory :=
          [{| sh_id := 1; sh_userId := "u1"; sh_searchQuery := "Stay";
              sh_songAnalysisId := Some 1; sh_createdAt := 7 |}];
        songAnalyses_seq := 2; favorites_seq := 1; searchHistory_seq := 2 |}).
Proof. reflexivity. Qed.

(** ** Listings *)

Global Instance newest_first_total {A} (created : A → Z) : Total (newest_first created).
Proof. intros a b. unfold newest_first. lia. Qed.

Global Instance newest_first_trans {A} (created : A → Z) : Transitive (newest_first created).
Proof. intros a b c. unfold newest_first. lia. Qed.

Lemma StronglySorted_take {A} (R : relation A) n l :
  StronglySorted R l → StronglySorted R (take n l).
Proof.
  intros H. rewrite <- (take_drop n l) in H. by apply StronglySorted_app_1_l in H.
Qed.

Lemma limited_take {A} (limit : Z) (rows : list A) :
  0 ≤ limit → Storage.limited limit rows = take (Z.to_nat limit) rows.
Proof. unfold Storage.limited. intros H. by destruct (limit <? 0) eqn:E; [lia|]. Qed.


(** Twenty-five analyses of one user, all of them favorites, one per tick. *)
Definition many_favorites : DB :=
  {| users := {["u1"]};
     songAnalyses :=
       (λ i, {| sa_id := i; sa_title := "Song"; sa_artist := "Artist"; sa_genre := None;
                sa_yearReleased := None; sa_lyricsAnalysis := "Text";
                sa_userId := "u1"; sa_createdAt := i |}) <$> seqZ 1 25;
     favorites :=
       (λ i, {| fav_id := i; fav_userId := "u1"; fav_songAnalysisId := i;
                fav_createdAt := 100 + i |}) <$> seqZ 1 25;
     searchHistory := [];
     songAnalyses_seq := 26; favorites_seq := 26; searchHistory_seq := 1 |}.

Definition listing_request (limit : option string) : Request :=
  {| claims_sub := "u1"; body := JUndefined; query_limit := limit;
     params_songAnalysisId := "" |}.


(** The number of analyses that GET /api/songs/history lists. *)
Definition listed (limit : option string) (db : DB) : option nat :=
  match json (songsHistoryRoute offline (listing_request limit) db).1 with
  | AnalysesJson l => Some (length l)
  | _ => None
  end.

Example history_limit_from_request :
  limitOf (listing_request (Some "50")) = 50
  ∧ limitOf (listing_request None) = 20
  ∧ limitOf (listing_request (Some "0")) = 20
  ∧ limitOf (listing_request (Some "-5")) = -5
  ∧ listed (Some "50") many_favorites = Some 25%nat
  ∧ listed None many_favorites = Some 20%nat
  ∧ listed (Some "5") many_favorites = Some 5%nat
  ∧ listed (Some "-5") many_favorites = Some 25%nat.
Proof. split_and!; reflexivity. Qed.


(** * Further properties of the code *)

(** ** Trimming and the parser's rules *)

Lemma trimStart_idem s : trimStart (trimStart s) = trimStart s.
Proof.
  induction s as [|c s IH]; simpl; [done|].
  destruct (Chars.is_ws c) eqn:E; [done|]. simpl. by rewrite E.
Qed.

Lemma trimEnd_idem s : trimEnd (trimEnd s) = trimEnd s.
Proof.
  induction s as [|c s IH]; simpl; [done|].
  destruct (trimEnd s) as [|d t] eqn:E.
  - destruct (Chars.is_ws c) eqn:Ec; simpl; [done|]. by rewrite Ec.
  - change (trimEnd (String c (String d t)))
      with (match trimEnd (String d t) with
            | EmptyString => if Chars.is_ws c then EmptyString else String c EmptyString
            | t' => String c t'
            end).
    by rewrite IH.
Qed.

Lemma trimStart_head c t : Chars.is_ws c = false → trimStart (String c t) = String c t.
Proof. intros H. simpl. by rewrite H. Qed.

Lemma trimStart_trim s : trimStart (trim s) = trim s.
Proof.
  destruct (whitespace_only s) eqn:E.
  - by rewrite (trim_blank s E).
  - destruct (trim_not_blank s E) as (c & t & -> & Hc). by apply trimStart_head.
Qed.

Lemma trim_idem s : trim (trim s) = trim s.
Proof. unfold trim at 1. rewrite trimStart_trim. unfold trim. apply trimEnd_idem. Qed.

(** X1: the parser looks at the trimmed query only, and every artist or
    title it returns is itself trimmed. *)
Theorem parseQuery_trimmed query :
  parseQuery (trim query) = parseQuery query
  ∧ (∀ t, title (parseQuery query) = Some t → trim t = t)
  ∧ (∀ a, artist (parseQuery query) = Some a → trim a = a).
Proof.
  split_and!.
  - unfold parseQuery. by rewrite trim_idem.
  - unfold parseQuery. intros t.
    repeat case_match; intros Ht; simplify_eq; cbn [title] in Ht; simplify_eq;
      apply trim_idem.
  - unfold parseQuery. intros a.
    repeat case_match; intros Ha; simplify_eq; cbn [artist] in Ha; simplify_eq;
      apply trim_idem.
Qed.

Lemma parseQuery_trimmed_witness :
  parseQuery (trim "  Stay (Rihanna) ") = parseQuery "  Stay (Rihanna) "
  ∧ trim "Stay" = "Stay".
Proof.
  destruct (parseQuery_trimmed "  Stay (Rihanna) ") as (H1 & H2 & _).
  split; [exact H1|]. apply H2. reflexivity.
Defined.

Lemma parseQuery_colon_rule query pre post :
  includes " - " (trim query) = false →
  leftmost ": " pre post (trim query) →
  parseQuery query = {| artist := Some (trim pre); title := Some (trim post) |}.
Proof.
  intros Hdash [Heq Hfirst]. unfold parseQuery. rewrite Hdash. rewrite Heq in *.
  rewrite includes_app.
  destruct (split_leftmost ": " pre post) as (Hlen & Hhead & Hjoin); [done..|].
  rewrite bool_decide_eq_true_2 by done. by rewrite Hhead, Hjoin.
Qed.

(** X2: when the trimmed query has no " - " but contains ": ", the parser
    cuts it at the leftmost ": ": the trimmed text before it is the artist
    and the trimmed text after it, later ": " included, is the title. *)
Theorem parseQuery_colon query pre post :
  includes " - " (trim query) = false →
  leftmost ": " pre post (trim query) →
  parseQuery query = {| artist := Some (trim pre); title := Some (trim post) |}.
Proof. apply parseQuery_colon_rule. Qed.

Lemma parseQuery_colon_witness :
  parseQuery "Queen: Bohemian Rhapsody: live"
  = {| artist := Some "Queen"; title := Some "Bohemian Rhapsody: live" |}.
Proof.
  apply (parseQuery_colon "Queen: Bohemian Rhapsody: live" "Queen" "Bohemian Rhapsody: live");
    [reflexivity|].
  split; [reflexivity|].
  intros a b H.
  destruct a as [|? [|? [|? [|? [|? a]]]]]; [vm_compute in H; discriminate..|simpl; lia].
Defined.

(** ** What the patterns match *)

Fixpoint all_chars (p : ascii → bool) (s : string) : bool :=
  match s with
  | String c s' => p c && all_chars p s'
  | EmptyString => true
  end.

(** A quantified class consumes a run of characters of the class, not
    empty for [+], and hands the rest to what follows. *)
Lemma rep_sound {R} p greedy (k : string → option R) here s r :
  Regex.rep p greedy k here s = Some r →
  ∃ pre rest, s = pre +:+ rest ∧ all_chars p pre = true
              ∧ (here = false → pre ≠ "") ∧ k rest = Some r.
Proof.
  revert here. induction s as [|c s IH]; intros here H.
  - exists "", "". destruct greedy, here; simpl in H; try done;
      destruct (k "") eqn:E; by simplify_eq.
  - destruct greedy; simpl in H.
    + destruct (p c) eqn:Hc.
      * destruct (Regex.rep p true k true s) as [r'|] eqn:E.
        -- simplify_eq. destruct (IH true E) as (pre & rest & -> & Hall & _ & Hk).
           exists (String c pre), rest. simpl. rewrite Hc. done.
        -- destruct here; [|done]. by exists "", (String c s).
      * destruct here; [|done]. by exists "", (String c s).
    + destruct here.
      * destruct (k (String c s)) as [r'|] eqn:Ek.
        -- simplify_eq. by exists "", (String c s).
        -- destruct (p c) eqn:Hc; [|done].
           destruct (IH true H) as (pre & rest & -> & Hall & _ & Hk).
           exists (String c pre), rest. simpl. rewrite Hc. done.
      * destruct (p c) eqn:Hc; [|done].
        destruct (IH true H) as (pre & rest & -> & Hall & _ & Hk).
        exists (String c pre), rest. simpl. rewrite Hc. done.
Qed.

Lemma take_chars_app a b :
  take_chars (String.length (a +:+ b) - String.length b) (a +:+ b) = a.
Proof.
  rewrite str_length_app.
  replace (String.length a + String.length b - String.length b)%nat
    with (String.length a) by lia.
  induction a as [|c a IH]; [by destruct b|]. rewrite str_app_cons. simpl. by rewrite IH.
Qed.

(** A match never reads past the text: the unread rest is a suffix. *)
Lemma exec_suffix r : ∀ opened s caps rest,
  Regex.exec r opened s = Some (caps, rest) → ∃ pre, s = pre +:+ rest.
Proof.
  induction r as [|[p|greedy plus p| | |] r IH]; intros opened s caps rest H; simpl in H.
  - simplify_eq. by exists "".
  - destruct s as [|c s]; [done|]. destruct (p c); [|done].
    destruct (IH _ _ _ _ H) as [pre ->]. by exists (String c pre).
  - destruct (rep_sound _ _ _ _ _ _ H) as (pre & rest' & -> & _ & _ & Hk).
    destruct (IH _ _ _ _ Hk) as [pre' ->]. exists (pre +:+ pre'). by rewrite str_app_assoc.
  - by apply (IH _ _ _ _ H).
  - destruct opened as [|o os]; [done|].
    destruct (Regex.exec r os s) as [[caps' rest']|] eqn:E; [|done]. simplify_eq.
    by apply (IH _ _ _ _ E).
  - destruct s; [|done]. by apply (IH _ _ _ _ H).
Qed.

(** What a match of the "by" pattern looks like. *)
Lemma byPattern_sound s caps rest :
  Regex.exec byPattern [] s = Some (caps, rest) →
  ∃ g1 w1 b y w2 g2,
    s = g1 +:+ w1 +:+ String b (String y (w2 +:+ g2))
    ∧ caps = [g1; g2] ∧ rest = ""
    ∧ g1 ≠ "" ∧ g2 ≠ ""
    ∧ all_chars Chars.is_dot g1 = true ∧ all_chars Chars.is_dot g2 = true
    ∧ w1 ≠ "" ∧ w2 ≠ ""
    ∧ all_chars Chars.is_ws w1 = true ∧ all_chars Chars.is_ws w2 = true
    ∧ Chars.upper b = "B"%char ∧ Chars.upper y = "Y"%char.
Proof.
  unfold byPattern. simpl. intros H.
  destruct (rep_sound _ _ _ _ _ _ H) as (g1 & r1 & -> & Hg1 & Hne1 & H1). clear H.
  simpl in H1.
  match type of H1 with
  | match ?x with _ => _ end = _ => destruct x as [[caps1 rest1]|] eqn:E1; [|done]
  end.
  simplify_eq. rewrite take_chars_app.
  destruct (rep_sound _ _ _ _ _ _ E1) as (w1 & r2 & -> & Hw1 & Hnew1 & H2). clear E1.
  cbv beta in H2.
  destruct r2 as [|b r2]; [done|]. case_bool_decide as Hb; [|done].
  destruct r2 as [|y r2]; [done|]. case_bool_decide as Hy; [|done].
  destruct (rep_sound _ _ _ _ _ _ H2) as (w2 & r3 & -> & Hw2 & Hnew2 & H3). clear H2.
  cbv beta in H3.
  destruct (rep_sound _ _ _ _ _ _ H3) as (g2 & r4 & -> & Hg2 & Hne2 & H4). clear H3.
  cbv beta in H4. destruct r4; [|done]. simplify_eq.
  rewrite take_chars_app, str_app_nil_r.
  exists g1, w1, b, y, w2, g2. split_and!; auto.
Qed.

(** What a match of the parentheses pattern looks like. *)
Lemma parenthesesPattern_sound s caps rest :
  Regex.exec parenthesesPattern [] s = Some (caps, rest) →
  ∃ g1 w g2,
    s = g1 +:+ w +:+ "(" +:+ g2 +:+ ")"
    ∧ caps = [g1; g2] ∧ rest = ""
    ∧ g1 ≠ "" ∧ g2 ≠ ""
    ∧ all_chars Chars.is_dot g1 = true ∧ all_chars Chars.is_dot g2 = true
    ∧ all_chars Chars.is_ws w = true.
Proof.
  unfold parenthesesPattern. simpl. intros H.
  destruct (rep_sound _ _ _ _ _ _ H) as (g1 & r1 & -> & Hg1 & Hne1 & H1). clear H.
  simpl in H1.
  match type of H1 with
  | match ?x with _ => _ end = _ => destruct x as [[caps1 rest1]|] eqn:E1; [|done]
  end.
  simplify_eq. rewrite take_chars_app.
  destruct (rep_sound _ _ _ _ _ _ E1) as (w & r2 & -> & Hw & _ & H2). clear E1.
  cbv beta in H2.
  destruct r2 as [|o r2]; [done|]. case_bool_decide as Ho; [|done].
  destruct (rep_sound _ _ _ _ _ _ H2) as (g2 & r3 & -> & Hg2 & Hne2 & H3). clear H2.
  cbv beta in H3.
  destruct r3 as [|c r3]; [done|]. case_bool_decide as Hc; [|done].
  destruct r3; [|done]. simplify_eq.
  rewrite take_chars_app.
  exists g1, w, g2. split_and!; auto.
Qed.

(** ** Non-empty titles *)

Lemma length_trimStart s : (String.length (trimStart s) ≤ String.length s)%nat.
Proof. induction s as [|c s IH]; simpl; [done|]. destruct (Chars.is_ws c); simpl; lia. Qed.

Lemma length_trimEnd s : (String.length (trimEnd s) ≤ String.length s)%nat.
Proof.
  induction s as [|c s IH]; simpl; [done|].
  destruct (trimEnd s); [destruct (Chars.is_ws c)|]; simpl in *; lia.
Qed.

Lemma trimEnd_blank s : whitespace_only s = true → trimEnd s = "".
Proof.
  induction s as [|c s IH]; simpl; [done|]. intros [-> H]%andb_true_iff. by rewrite IH.
Qed.

Lemma trimEnd_app_blank a b : whitespace_only b = true → trimEnd (a +:+ b) = trimEnd a.
Proof.
  intros Hb. induction a as [|c a IH]; [by apply trimEnd_blank|].
  rewrite str_app_cons. simpl. by rewrite IH.
Qed.

(** A trimmed text neither starts nor ends with a blank piece. *)
Lemma trimmed_prefix_not_blank s a b :
  trimStart s = s → s = a +:+ b → a ≠ "" → whitespace_only a = false.
Proof.
  intros Hs -> Ha. destruct a as [|c a]; [done|]. simpl.
  destruct (Chars.is_ws c) eqn:Hc; [|done]. exfalso.
  rewrite str_app_cons in Hs. simpl in Hs. rewrite Hc in Hs.
  pose proof (length_trimStart (a +:+ b)) as Hlen. rewrite Hs in Hlen. simpl in Hlen. lia.
Qed.

Lemma trimmed_suffix_not_blank s a b :
  trimEnd s = s → s = a +:+ b → b ≠ "" → whitespace_only b = false.
Proof.
  intros Hs -> Hb. destruct (whitespace_only b) eqn:E; [|done]. exfalso.
  rewrite trimEnd_app_blank in Hs by done.
  pose proof (length_trimEnd a) as Hlen. rewrite Hs, str_length_app in Hlen.
  destruct b; [done|]. simpl in Hlen. lia.
Qed.

Lemma not_blank_trim s : whitespace_only s = false → trim s ≠ "".
Proof. intros (c & t & -> & _)%trim_not_blank. done. Qed.

(** A text that contains the separator has a leftmost occurrence of it. *)
Lemma includes_leftmost sep s :
  includes sep s = true → ∃ pre post, leftmost sep pre post s.
Proof.
  induction s as [|c s IH]; simpl; intros H.
  - rewrite orb_false_r in H. exists "", "". destruct sep; [|done].
    split; [done|]. intros; simpl; lia.
  - destruct (starts_with sep (String c s)) eqn:E.
    + exists "", (drop_chars (String.length sep) (String c s)). split.
      * rewrite str_app_nil_l. by apply starts_with_drop.
      * intros; simpl; lia.
    + simpl in H. destruct (IH H) as (pre & post & -> & Hfirst).
      exists (String c pre), post. split; [done|].
      intros [|c' a] b Hab.
      * rewrite str_app_nil_l in Hab. rewrite Hab, starts_with_app in E. done.
      * rewrite !str_app_cons in Hab. simplify_eq.
        match goal with Heq : _ = a +:+ sep +:+ b |- _ => specialize (Hfirst a b Heq) end.
        simpl. lia.
Qed.

(** A trimmed text cut at a separator that ends in a space has a piece that
    is not blank after it, and one before it when the separator also starts
    with a space. *)
Lemma cut_post_not_blank s x pre post :
  trimEnd s = s → s = pre +:+ (x +:+ " ") +:+ post → whitespace_only post = false.
Proof.
  intros Hend Hs.
  assert (whitespace_only (" " +:+ post) = false) as H.
  { apply (trimmed_suffix_not_blank s (pre +:+ x)); [done| |done].
    by rewrite Hs, !str_app_assoc. }
  by rewrite str_app_cons in H.
Qed.

Lemma cut_pre_not_blank s pre c rest :
  trimStart s = s → s = pre +:+ String c rest → Chars.is_ws c = true →
  whitespace_only pre = false.
Proof.
  intros Hstart Hs Hc. destruct pre as [|d pre].
  - exfalso. rewrite str_app_nil_l in Hs.
    pose proof (trimmed_prefix_not_blank s (String c "") rest Hstart Hs) as H.
    simpl in H. rewrite Hc in H. by specialize (H ltac:(done)).
  - by apply (trimmed_prefix_not_blank s (String d pre) (String c rest)).
Qed.

Lemma trimmed_facts query :
  whitespace_only query = false →
  trim query ≠ "" ∧ trimStart (trim query) = trim query ∧ trimEnd (trim query) = trim query.
Proof.
  intros H. split_and!.
  - by apply not_blank_trim.
  - apply trimStart_trim.
  - pose proof (trim_idem query) as Hi. unfold trim at 1 in Hi. by rewrite trimStart_trim in Hi.
Qed.

(** X3: for a query that is not blank the parser always returns a
    non-empty title, whichever rule applies; and when the trimmed query
    contains " - ", the artist is non-empty as well. *)
Theorem parseQuery_title_nonempty query :
  whitespace_only query = false →
  (∃ t, title (parseQuery query) = Some t ∧ t ≠ "")
  ∧ (includes " - " (trim query) = true →
     ∃ a, artist (parseQuery query) = Some a ∧ a ≠ "").
Proof.
  intros Hq. destruct (trimmed_facts query Hq) as (Hne & Hstart & Hend).
  destruct (includes " - " (trim query)) eqn:Hdash.
  { destruct (includes_leftmost _ _ Hdash) as (pre & post & Hl).
    rewrite (parseQuery_dash _ _ _ Hl). destruct Hl as [Hs _].
    pose proof (cut_post_not_blank (trim query) " -" pre post Hend Hs) as Hpost.
    pose proof (cut_pre_not_blank (trim query) pre " " ("- " +:+ post) Hstart Hs eq_refl)
      as Hpre.
    split; [|intros _]; eexists; (split; [reflexivity|]); by apply not_blank_trim. }
  split; [|done].
  destruct (includes ": " (trim query)) eqn:Hcolon.
  { destruct (includes_leftmost _ _ Hcolon) as (pre & post & Hl).
    rewrite (parseQuery_colon_rule _ _ _ Hdash Hl). destruct Hl as [Hs _].
    pose proof (cut_post_not_blank (trim query) ":" pre post Hend Hs) as Hpost.
    eexists. split; [reflexivity|]. by apply not_blank_trim. }
  unfold parseQuery. rewrite Hdash, Hcolon.
  destruct (Regex.exec byPattern [] (trim query)) as [[caps rest]|] eqn:Eb.
  { apply byPattern_sound in Eb
      as (g1 & w1 & b & y & w2 & g2 & Hs & -> & -> & Hg1 & _).
    eexists. split; [reflexivity|]. apply not_blank_trim.
    by apply (trimmed_prefix_not_blank _ _ _ Hstart Hs). }
  destruct (Regex.exec parenthesesPattern [] (trim query)) as [[caps rest]|] eqn:Ep.
  { apply parenthesesPattern_sound in Ep as (g1 & w & g2 & Hs & -> & -> & Hg1 & _).
    eexists. split; [reflexivity|]. apply not_blank_trim.
    by apply (trimmed_prefix_not_blank _ _ _ Hstart Hs). }
  by eexists.
Qed.

Lemma parseQuery_title_nonempty_witness :
  (∃ t, title (parseQuery "  Stand by Me ") = Some t ∧ t ≠ "")
  ∧ ∃ a, artist (parseQuery "Sia - Chandelier") = Some a ∧ a ≠ "".
Proof.
  split.
  - apply (parseQuery_title_nonempty "  Stand by Me "). reflexivity.
  - apply (parseQuery_title_nonempty "Sia - Chandelier"); reflexivity.
Defined.

(** ** The source adapters *)

Lemma searchLyricsOvh_shape env query r :
  searchLyricsOvh env query = Some r →
  ∃ a t l,
    parseQuery query = {| artist := Some a; title := Some t |}
    ∧ a ≠ "" ∧ t ≠ "" ∧ l ≠ ""
    ∧ lyrics_ovh env a t = Body (Some l)
    ∧ r = object [("title", JStr t); ("artist", JStr a); ("lyrics", JStr l)].
Proof.
  unfold searchLyricsOvh, missing.
  intros H. destruct (parseQuery query) as [[a|] [t|]]; simpl in H; try done.
  - case_bool_decide as Ha; simpl in H; [done|].
    case_bool_decide as Ht; simpl in H; [done|].
    destruct (lyrics_ovh env a t) as [| |[l|]] eqn:E; simpl in H; try done.
    case_bool_decide as Hl; simpl in H; [done|]. simplify_eq.
    exists a, t, l. by split_and!.
  - by case_bool_decide.
Qed.

(** X4: lyrics.ovh is asked only for a query that parses into a non-empty
    artist and title, and a result it yields is exactly that title and artist
    with the non-empty lyrics the endpoint returned; a title-only query
    yields nothing. *)
Theorem searchLyricsOvh_result env query :
  (∀ r, searchLyricsOvh env query = Some r →
     ∃ a t l,
       parseQuery query = {| artist := Some a; title := Some t |}
       ∧ a ≠ "" ∧ t ≠ "" ∧ l ≠ ""
       ∧ lyrics_ovh env a t = Body (Some l)
       ∧ r = object [("title", JStr t); ("artist", JStr a); ("lyrics", JStr l)])
  ∧ (artist (parseQuery query) = None → searchLyricsOvh env query = None).
Proof.
  split.
  - apply searchLyricsOvh_shape.
  - unfold searchLyricsOvh, missing. by intros ->.
Qed.

Definition ovh_only : Env :=
  {| GENIUS_ACCESS_TOKEN := None;
     LASTFM_API_KEY := None;
     genius_search := λ _, Threw;
     lyrics_ovh := λ _ _, Body (Some "No matter how hard I try");
     lastfm_track_getInfo := λ _ _, Threw;
     musicbrainz_recording := λ _ _, Threw;
     chat_json := λ _, ChatThrew "Connection error.";
     chat_text := λ _, ChatThrew "Connection error.";
     db_ok := λ _, true;
     now := 0 |}.

Lemma searchLyricsOvh_result_witness :
  searchLyricsOvh ovh_only "Believe" = None
  ∧ ∃ a t l, parseQuery "Cher - Believe" = {| artist := Some a; title := Some t |}
             ∧ lyrics_ovh ovh_only a t = Body (Some l) ∧ l ≠ "".
Proof.
  split.
  - apply (searchLyricsOvh_result ovh_only "Believe"). reflexivity.
  - destruct (searchLyricsOvh_result ovh_only "Cher - Believe") as [H _].
    destruct (H _ eq_refl) as (a & t & l & Hp & _ & _ & Hl & Ho & _).
    by exists a, t, l.
Defined.

(** X5: a resolved record never has a key other than title, artist,
    genre, year and lyrics, whichever sources answered. *)
Theorem resolve_keys env query finalSongInfo k :
  resolve env query = Some finalSongInfo →
  is_Some (finalSongInfo !! k) →
  k = "title" ∨ k = "artist" ∨ k = "genre" ∨ k = "year" ∨ k = "lyrics".
Proof.
  unfold resolve. destruct (searchSong env (trim query)) as [songInfo|] eqn:Es; [|done].
  intros [= <-].
  assert (∀ k, is_Some (songInfo !! k) →
            k = "title" ∨ k = "artist" ∨ k = "genre" ∨ k = "year" ∨ k = "lyrics") as Hsong.
  { clear k. intros k Hk. unfold searchSong in Es.
    destruct (searchGenius env (trim query)) as [g|].
    - simplify_eq. unfold object, extend in Hk. simpl in Hk.
      repeat (rewrite lookup_insert in Hk; case_decide; [naive_solver|]).
      rewrite lookup_empty in Hk. by destruct Hk.
    - destruct (searchLyricsOvh env (trim query)) as [o|] eqn:Eo.
      + simplify_eq.
        destruct (searchLyricsOvh_shape _ _ _ Eo) as (a' & t' & l & _ & _ & _ & _ & _ & ->).
        unfold object, extend in Hk. simpl in Hk.
        repeat (rewrite lookup_insert in Hk; case_decide; [naive_solver|]).
        rewrite lookup_empty in Hk. by destruct Hk.
      + unfold extractSongInfo in Es. destruct (_ || _); simplify_eq;
          unfold object, extend in Hk; simpl in Hk;
          repeat (rewrite lookup_insert in Hk; case_decide; [naive_solver|]);
          rewrite lookup_empty in Hk; by destruct Hk. }
  intros Hk. rewrite lookup_spread in Hk.
  destruct (getSongDetails env _ _ !! k) eqn:Ed; [|by apply Hsong].
  unfold getSongDetails in Ed.
  destruct (musicbrainz_recording _ _ _) as [| |[[|r rest]|]];
    unfold object, extend in Ed; simpl in Ed;
    repeat (rewrite lookup_insert in Ed; case_decide; [naive_solver|]);
    by rewrite lookup_empty in Ed.
Qed.

Lemma resolve_keys_witness :
  ∃ finalSongInfo,
    resolve genius_and_musicbrainz "Cher - Believe" = Some finalSongInfo
    ∧ finalSongInfo !! "url" = None.
Proof.
  eexists. split; [reflexivity|].
  match goal with |- ?o !! _ = None => destruct (o !! "url") as [v|] eqn:E; [|done] end.
  exfalso.
  destruct (resolve_keys genius_and_musicbrainz "Cher - Believe" _ "url" eq_refl)
    as [H|[H|[H|[H|H]]]]; [by rewrite E|discriminate..].
Defined.

(** ** The analysis engine *)

(** X6: every failure of the lyrics-grounded analysis is reported as
    "Failed to analyze lyrics: " followed by its cause, and a failure of the
    model call always fails the analysis. *)
Theorem analyzeLyrics_failures JSON_parse env songTitle artist lyrics :
  (∀ m, analyzeLyrics JSON_parse env songTitle artist lyrics = Throw m →
        ∃ cause, m = "Failed to analyze lyrics: " +:+ cause)
  ∧ (∀ cause, chat_json env (lyricsPrompt songTitle artist lyrics) = ChatThrew cause →
        analyzeLyrics JSON_parse env songTitle artist lyrics
        = Throw ("Failed to analyze lyrics: " +:+ cause)).
Proof.
  unfold analyzeLyrics. split.
  - intros m H. destruct (chat_json env _) as [c|content]; [by simplify_eq; eauto|].
    destruct (JSON_parse _) as [parsed|c]; [|by simplify_eq; eauto].
    destruct parsed; simpl in H; simplify_eq; eauto.
  - by intros cause ->.
Qed.

Lemma analyzeLyrics_failures_witness :
  analyzeLyrics Json.parse offline (JStr "Believe") (JStr "Cher") (JStr "la la")
  = Throw "Failed to analyze lyrics: Connection error.".
Proof.
  apply (analyzeLyrics_failures Json.parse offline (JStr "Believe") (JStr "Cher") (JStr "la la")).
  reflexivity.
Defined.

(** X7: in a successful lyrics-grounded analysis the meaning, the mood and
    the interpretation are never undefined, null, false, 0, NaN or the
    empty string: such an answer is replaced by the default sentence.  (Any
    other value of the answer is kept, a string or not.) *)
Theorem analyzeLyrics_fields_present JSON_parse env songTitle artist lyrics r v :
  analyzeLyrics JSON_parse env songTitle artist lyrics = Ok r →
  v = meaning r ∨ v = mood r ∨ v = interpretation r →
  truthy v = true
  ∧ v ≠ JUndefined ∧ v ≠ JNull ∧ v ≠ JBool false ∧ v ≠ JNum 0 ∧ v ≠ JNaN ∧ v ≠ JStr "".
Proof.
  intros H Hv.
  assert (truthy v = true) as Ht.
  { unfold analyzeLyrics in H.
    destruct (chat_json env _) as [c|content]; [done|].
    destruct (JSON_parse _) as [parsed|c]; [|done].
    destruct parsed; simpl in H; simplify_eq; cbn [meaning mood interpretation] in Hv;
      destruct Hv as [-> | [-> | ->]]; first [done | by apply truthy_js_or]. }
  split; [done|]. split_and!; by intros ->.
Qed.

Lemma analyzeLyrics_fields_present_witness :
  ∃ r, analyzeLyrics Json.parse empty_object_answer
         (JStr "Believe") (JStr "Cher") (JStr "la la") = Ok r
       ∧ meaning r ≠ JStr "".
Proof.
  eexists. split; [reflexivity|].
  destruct (analyzeLyrics_fields_present Json.parse empty_object_answer
              (JStr "Believe") (JStr "Cher") (JStr "la la") _ _ eq_refl (or_introl eq_refl))
    as (_ & _ & _ & _ & _ & _ & H).
  exact H.
Defined.

(** X8: when the model's content parses to a JSON value that is not an
    object, the analysis is the all-defaults record for a boolean, a number,
    a string or an array, and a failure for [null]. *)
Theorem analyzeLyrics_non_object JSON_parse env songTitle artist lyrics content parsed :
  chat_json env (lyricsPrompt songTitle artist lyrics) = ChatContent content →
  JSON_parse (ToString (js_or (of_opt_str content) (JStr "{}"))) = Ok parsed →
  match parsed with
  | JBool _ | JNum _ | JStr _ | JArr _ =>
      analyzeLyrics JSON_parse env songTitle artist lyrics = Ok allDefaults
  | JNull =>
      ∃ m, analyzeLyrics JSON_parse env songTitle artist lyrics = Throw m
  | _ => True
  end.
Proof.
  intros Hchat Hparse. unfold analyzeLyrics. rewrite Hchat, Hparse.
  destruct parsed; simpl; eauto.
Qed.

Definition array_answer : Env :=
  {| GENIUS_ACCESS_TOKEN := None;
     LASTFM_API_KEY := None;
     genius_search := λ _, Threw;
     lyrics_ovh := λ _ _, Threw;
     lastfm_track_getInfo := λ _ _, Threw;
     musicbrainz_recording := λ _ _, Threw;
     chat_json := λ _, ChatContent (Some "[1, 2]");
     chat_text := λ _, ChatContent None;
     db_ok := λ _, true;
     now := 0 |}.

Lemma analyzeLyrics_non_object_witness :
  analyzeLyrics Json.parse array_answer (JStr "Believe") (JStr "Cher") (JStr "la la")
  = Ok allDefaults.
Proof.
  apply (analyzeLyrics_non_object Json.parse array_answer
           (JStr "Believe") (JStr "Cher") (JStr "la la") (Some "[1, 2]")
           (JArr [JNum 1; JNum 2]) eq_refl eq_refl).
Defined.

(** X9: the metadata-only analysis never returns an empty text: an absent
    or empty content is replaced by "Unable to generate analysis for this
    song.", and a failure of the model call is reported as "Failed to
    generate song meaning: " followed by its cause. *)
Theorem generateSongMeaning_text env songTitle artist genre year :
  (∀ text, generateSongMeaning env songTitle artist genre year = Ok text → text ≠ "")
  ∧ (∀ content, chat_text env (meaningPrompt songTitle artist genre year)
                = ChatContent content →
        content = None ∨ content = Some "" →
        generateSongMeaning env songTitle artist genre year
        = Ok "Unable to generate analysis for this song.")
  ∧ (∀ m, generateSongMeaning env songTitle artist genre year = Throw m ↔
          ∃ cause, chat_text env (meaningPrompt songTitle artist genre year) = ChatThrew cause
                   ∧ m = "Failed to generate song meaning: " +:+ cause).
Proof.
  unfold generateSongMeaning. split_and!.
  - intros text H. destruct (chat_text env _) as [c|[content|]]; simplify_eq; [|done].
    unfold js_or. simpl. case_bool_decide; simpl; [done|]. by subst.
  - intros content -> [-> | ->]; done.
  - intros m. split.
    + destruct (chat_text env _) as [c|content]; intros; simplify_eq. eauto.
    + by intros (cause & -> & ->).
Qed.

Lemma generateSongMeaning_text_witness :
  generateSongMeaning array_answer (JStr "Stay") (JStr "Rihanna") JUndefined JUndefined
  = Ok "Unable to generate analysis for this song.".
Proof.
  destruct (generateSongMeaning_text array_answer (JStr "Stay") (JStr "Rihanna")
              JUndefined JUndefined) as (_ & H & _).
  apply (H None); [reflexivity|by left].
Defined.

(** ** Four-digit years *)

(** The number written by a string of decimal digits. *)
Fixpoint decimal_from (acc : Z) (s : string) : Z :=
  match s with
  | String c s' => decimal_from (10 * acc + (Z.of_nat (nat_of_ascii c) - 48)) s'
  | EmptyString => acc
  end.

Definition decimal (s : string) : Z := decimal_from 0 s.

(** The four digits that a text starts with, when it does. *)
Definition year_prefix (s : string) : option string :=
  match s with
  | String c1 (String c2 (String c3 (String c4 _))) =>
      if Chars.is_digit c1 && Chars.is_digit c2 && Chars.is_digit c3 && Chars.is_digit c4
      then Some (String c1 (String c2 (String c3 (String c4 ""))))
      else None
  | _ => None
  end.

(** The longest prefix of [s] made of characters of the class [p]. *)
Fixpoint run (p : ascii → bool) (s : string) : string :=
  match s with
  | String c s' => if p c then String c (run p s') else ""
  | EmptyString => ""
  end.

(** [label] is the text [t] up to the case of its letters. *)
Fixpoint same_letters (label t : string) : bool :=
  match label, t with
  | String d label', String c t' =>
      bool_decide (Chars.upper c = Chars.upper d) && same_letters label' t'
  | EmptyString, EmptyString => true
  | _, _ => false
  end.

Lemma digit_facts c :
  Chars.is_digit c = true →
  digit_value 10 c = Some (Z.of_nat (nat_of_ascii c) - 48)
  ∧ 0 ≤ Z.of_nat (nat_of_ascii c) - 48 ≤ 9
  ∧ Chars.is_ws c = false ∧ c ≠ "x"%char ∧ c ≠ "X"%char.
Proof.
  destruct c as [[] [] [] [] [] [] [] []]; simpl; try done; intros _;
    (split; [vm_compute; reflexivity|]); split_and!; try done; by vm_compute.
Qed.

Lemma parseInt_digits c t :
  Chars.is_digit c = true →
  (∀ c' t', t = String c' t' → c' ≠ "x"%char ∧ c' ≠ "X"%char) →
  parseInt (String c t)
  = match read_digits 10 None (String c t) with Some n => JNum n | None => JNaN end.
Proof.
  intros Hc Ht.
  assert (starts_with "x" t = false ∧ starts_with "X" t = false) as [Hx HX].
  { destruct t as [|c' t']; [done|]. destruct (Ht c' t' eq_refl) as [H1 H2].
    simpl. rewrite !andb_true_r. split; by apply bool_decide_eq_false_2. }
  assert (∀ a sep b s, starts_with (String a sep) (String b s)
                       = bool_decide (a = b) && starts_with sep s) as Hcons by done.
  destruct c as [[] [] [] [] [] [] [] []]; simpl in Hc; try done; clear Hc;
    unfold parseInt; cbn [trimStart Chars.is_ws];
    rewrite !Hcons, Hx, HX, !andb_false_r; reflexivity.
Qed.

(** Four digits are read as the number they write. *)
Lemma parseInt_year s y :
  year_prefix s = Some y →
  s = y +:+ drop_chars 4 s
  ∧ parseInt y = JNum (decimal y) ∧ 0 ≤ decimal y ≤ 9999
  ∧ ∃ c t, y = String c t ∧ Chars.is_ws c = false.
Proof.
  destruct s as [|c1 [|c2 [|c3 [|c4 s]]]]; try done. simpl.
  destruct (Chars.is_digit c1) eqn:H1; [|done].
  destruct (Chars.is_digit c2) eqn:H2; [|done].
  destruct (Chars.is_digit c3) eqn:H3; [|done].
  destruct (Chars.is_digit c4) eqn:H4; [|done].
  simpl. intros [= <-].
  destruct (digit_facts _ H1) as (Hd1 & ? & Hws & _).
  destruct (digit_facts _ H2) as (Hd2 & ? & _ & Hx & HX).
  destruct (digit_facts _ H3) as (Hd3 & ? & _).
  destruct (digit_facts _ H4) as (Hd4 & ? & _).
  split_and!.
  - done.
  - rewrite parseInt_digits; [|done|by intros ?? [= <- <-]].
    cbn [read_digits]. rewrite Hd1. cbn [read_digits]. rewrite Hd2. cbn [read_digits].
    rewrite Hd3. cbn [read_digits]. rewrite Hd4. cbn [read_digits default].
    unfold decimal. cbn [decimal_from]. f_equal; cbv [default from_option id]; lia.
  - unfold decimal. cbn [decimal_from]. lia.
  - unfold decimal. cbn [decimal_from]. lia.
  - eauto.
Qed.

(** The group of [/\d{4}/] and of the year label matches where four digits
    stand, and captures them. *)
Lemma exec_year_group s :
  Regex.exec fourDigits [] s
  = match year_prefix s with
    | Some y => Some ([y], drop_chars 4 s)
    | None => None
    end.
Proof.
  unfold fourDigits. destruct s as [|c1 [|c2 [|c3 [|c4 s]]]]; try done; simpl;
    try (by destruct (Chars.is_digit c1));
    try (by destruct (Chars.is_digit c1), (Chars.is_digit c2));
    try (by destruct (Chars.is_digit c1), (Chars.is_digit c2), (Chars.is_digit c3)).
  destruct (Chars.is_digit c1), (Chars.is_digit c2), (Chars.is_digit c3),
    (Chars.is_digit c4); simpl; try done.
  do 3 f_equal.
  replace (S (S (S (S (String.length s)))) - String.length s)%nat with 4%nat by lia.
  done.
Qed.

(** [search] finds the leftmost position where the pattern matches. *)
Lemma search_leftmost r s m :
  Regex.search r s = Some m →
  ∃ pre s', s = pre +:+ s' ∧ Regex.exec r [] s' = Some m
            ∧ ∀ a b, s = a +:+ b → (String.length a < String.length pre)%nat →
                     Regex.exec r [] b = None.
Proof.
  induction s as [|c s IH]; simpl; intros H.
  - destruct (Regex.exec r [] "") eqn:E; [|done]. simplify_eq. exists "", "".
    split_and!; [done..|]. intros a b _ Hlt. simpl in Hlt. lia.
  - destruct (Regex.exec r [] (String c s)) eqn:E.
    + simplify_eq. exists "", (String c s). split_and!; [done..|].
      intros a b _ Hlt. simpl in Hlt. lia.
    + destruct (IH H) as (pre & s' & -> & Hk & Hmin). exists (String c pre), s'.
      split_and!; [done..|]. intros a b Hab Hlt. destruct a as [|c' a].
      * rewrite str_app_nil_l in Hab. by subst b.
      * rewrite !str_app_cons in Hab. simplify_eq. apply (Hmin a); [done|].
        simpl in Hlt. lia.
Qed.

Lemma search_found r s a b m :
  s = a +:+ b → Regex.exec r [] b = Some m → is_Some (Regex.search r s).
Proof.
  revert s. induction a as [|c a IH]; intros s -> Hb.
  - rewrite str_app_nil_l. destruct b; simpl; simpl in Hb; rewrite Hb; eauto.
  - rewrite str_app_cons. simpl.
    destruct (Regex.exec r [] (String c (a +:+ b))) as [m0|]; [by exists m0|]. by apply (IH _ eq_refl).
Qed.


(** The literal text of a pattern under the [i] flag. *)
Lemma exec_text_sound t : ∀ r opened s res,
  Regex.exec (Regex.text true t ++ r) opened s = Some res →
  ∃ label s', s = label +:+ s' ∧ same_letters label t = true
              ∧ Regex.exec r opened s' = Some res.
Proof.
  induction t as [|c t IH]; intros r opened s res H; simpl in H.
  - by exists "", s.
  - destruct s as [|d s]; [done|]. unfold Chars.lit in H.
    case_bool_decide as Hlit; [|done].
    destruct (IH _ _ _ _ H) as (m & s' & -> & Hm & Hk).
    exists (String d m), s'. simpl. by rewrite Hm, bool_decide_eq_true_2.
Qed.

Lemma exec_text_complete t : ∀ label r opened s,
  same_letters label t = true →
  Regex.exec (Regex.text true t ++ r) opened (label +:+ s) = Regex.exec r opened s.
Proof.
  induction t as [|c t IH]; intros [|d label] r opened s H; try done.
  simpl in H. apply andb_true_iff in H as [Hc H].
  rewrite str_app_cons. simpl. unfold Chars.lit. rewrite Hc. by apply IH.
Qed.

Lemma same_letters_length label t :
  same_letters label t = true → String.length label = String.length t.
Proof.
  revert t. induction label as [|d label IH]; intros [|c t] H; try done.
  simpl in H. apply andb_true_iff in H as [_ H]. simpl. by rewrite (IH t).
Qed.

(** A greedy class takes all it can when what follows matches right after
    the run. *)
Lemma rep_greedy_first {R} p (k : string → option R) w rest res here :
  all_chars p w = true →
  (here = true ∨ w ≠ "") →
  (∀ c t, rest = String c t → p c = false) →
  k rest = Some res →
  Regex.rep p true k here (w +:+ rest) = Some res.
Proof.
  intros Hw Hhere Hstop Hk. revert here Hhere.
  induction w as [|c w IH]; intros here Hhere.
  - destruct Hhere as [-> | ?]; [|done]. rewrite str_app_nil_l.
    destruct rest as [|d rest]; simpl; [by rewrite Hk|].
    rewrite (Hstop d rest eq_refl). done.
  - simpl in Hw. apply andb_true_iff in Hw as [Hc Hw].
    rewrite str_app_cons. simpl. rewrite Hc. by rewrite (IH Hw true (or_introl eq_refl)).
Qed.

(** A greedy class followed by something that always matches takes the
    whole run. *)
Lemma rep_greedy_total {R} p (k : string → option R) s : ∀ here,
  (∀ t, is_Some (k t)) →
  Regex.rep p true k here s
  = if negb here && bool_decide (run p s = "") then None
    else k (drop_chars (String.length (run p s)) s).
Proof.
  induction s as [|c s IH]; intros here Hk; simpl.
  - by destruct here.
  - destruct (p c) eqn:Hc; simpl.
    + rewrite (IH true Hk). simpl. rewrite andb_false_r.
      by destruct (Hk (drop_chars (String.length (run p s)) s)) as [r ->].
    + by destruct here.
Qed.

Lemma run_drop p s : s = run p s +:+ drop_chars (String.length (run p s)) s.
Proof.
  induction s as [|c s IH]; simpl; [done|].
  destruct (p c); [|done]. rewrite str_app_cons. simpl. by rewrite <- IH.
Qed.

Lemma all_chars_run p s : all_chars p (run p s) = true.
Proof. induction s as [|c s IH]; simpl; [done|]. destruct (p c) eqn:E; simpl; by rewrite ?E. Qed.

Lemma run_stops p s c t : drop_chars (String.length (run p s)) s = String c t → p c = false.
Proof.
  induction s as [|d s IH]; simpl; [done|].
  destruct (p d) eqn:E; simpl; [done|]. by intros [= <- <-].
Qed.

(** The group of the genre pattern captures the rest of the line. *)
Lemma exec_genre_group s :
  Regex.exec [Regex.Open; Regex.Rep true true Chars.is_dot; Regex.Close] [] s
  = if bool_decide (run Chars.is_dot s = "") then None
    else Some ([run Chars.is_dot s], drop_chars (String.length (run Chars.is_dot s)) s).
Proof.
  change (Regex.exec [Regex.Open; Regex.Rep true true Chars.is_dot; Regex.Close] [] s)
    with (Regex.rep Chars.is_dot true
            (λ t, Some ([take_chars (String.length s - String.length t) s], t)) false s).
  rewrite rep_greedy_total by eauto. simpl. case_bool_decide; [done|].
  do 3 f_equal. pose proof (run_drop Chars.is_dot s) as Hs.
  generalize dependent (drop_chars (String.length (run Chars.is_dot s)) s). intros t Hs.
  generalize dependent (run Chars.is_dot s). intros g _ Hs. subst s. apply take_chars_app.
Qed.

Lemma all_chars_ws s : all_chars Chars.is_ws s = whitespace_only s.
Proof. induction s as [|c s IH]; simpl; [done|]. by rewrite IH. Qed.

Lemma whitespace_only_app a b :
  whitespace_only (a +:+ b) = whitespace_only a && whitespace_only b.
Proof.
  induction a as [|c a IH]; [done|]. rewrite str_app_cons. simpl.
  by rewrite IH, andb_assoc.
Qed.

Lemma not_ws_is_dot c : Chars.is_ws c = false → Chars.is_dot c = true.
Proof. by destruct c as [[] [] [] [] [] [] [] []]. Qed.

Lemma str_app_split a b c d :
  a +:+ b = c +:+ d → (String.length a ≤ String.length c)%nat →
  ∃ x, c = a +:+ x ∧ b = x +:+ d.
Proof.
  revert c. induction a as [|e a IH]; intros c Heq Hlen.
  - exists c. by rewrite str_app_nil_l in *.
  - destruct c as [|e' c]; [simpl in Hlen; lia|].
    rewrite !str_app_cons in Heq. simplify_eq.
    destruct (IH c) as (x & -> & ->); [done|simpl in Hlen; lia|]. by exists x.
Qed.





(** ** The metadata extractor *)

(** At [pre], the text has the year label, white space (or none) and the
    four digits [y]. *)
Definition year_label_at (analysis pre y : string) : Prop :=
  ∃ label ws post,
    analysis = pre +:+ label +:+ ws +:+ y +:+ post
    ∧ same_letters label "Release Year:" = true
    ∧ whitespace_only ws = true
    ∧ year_prefix (y +:+ post) = Some y.

(** At [pre], the text has the genre label, white space (or none) and then,
    from a visible character on, the line [genre]. *)
Definition genre_label_at (analysis pre genre : string) : Prop :=
  ∃ label ws c rest,
    analysis = pre +:+ label +:+ ws +:+ String c rest
    ∧ same_letters label "Genre:" = true
    ∧ whitespace_only ws = true
    ∧ Chars.is_ws c = false
    ∧ genre = run Chars.is_dot (String c rest).

Lemma year_label_exec label ws y post :
  same_letters label "Release Year:" = true →
  whitespace_only ws = true →
  year_prefix (y +:+ post) = Some y →
  Regex.exec yearPattern [] (label +:+ ws +:+ y +:+ post)
  = Some ([y], drop_chars 4 (y +:+ post)).
Proof.
  intros Hlabel Hws Hy. unfold yearPattern. rewrite exec_text_complete by done.
  change (Regex.rep Chars.is_ws true (Regex.exec fourDigits []) true (ws +:+ y +:+ post)
          = Some ([y], drop_chars 4 (y +:+ post))).
  destruct (parseInt_year _ _ Hy) as (_ & _ & _ & c & t & -> & Hc).
  apply rep_greedy_first.
  - by rewrite all_chars_ws.
  - by left.
  - rewrite str_app_cons. by intros ?? [= <- <-].
  - by rewrite exec_year_group, Hy.
Qed.

Lemma year_exec_label s m :
  Regex.exec yearPattern [] s = Some m →
  ∃ label ws y post,
    s = label +:+ ws +:+ y +:+ post
    ∧ same_letters label "Release Year:" = true
    ∧ whitespace_only ws = true
    ∧ year_prefix (y +:+ post) = Some y
    ∧ m = ([y], post).
Proof.
  unfold yearPattern. intros E.
  apply exec_text_sound in E as (label & s1 & -> & Hlabel & E).
  change (Regex.rep Chars.is_ws true (Regex.exec fourDigits []) true s1 = Some m) in E.
  apply rep_sound in E as (ws & r & -> & Hws & _ & E).
  rewrite exec_year_group in E. destruct (year_prefix r) as [y|] eqn:Hy; [|done].
  destruct (parseInt_year _ _ Hy) as (Hr & _).
  exists label, ws, y, (drop_chars 4 r). rewrite <- Hr. split_and!; try done.
  - by rewrite <- all_chars_ws.
  - by simplify_eq.
Qed.

Lemma genre_label_exec label ws c rest :
  same_letters label "Genre:" = true →
  whitespace_only ws = true →
  Chars.is_ws c = false →
  Regex.exec genrePattern [] (label +:+ ws +:+ String c rest)
  = Some ([run Chars.is_dot (String c rest)],
          drop_chars (String.length (run Chars.is_dot (String c rest))) (String c rest)).
Proof.
  intros Hlabel Hws Hc. unfold genrePattern. rewrite exec_text_complete by done.
  change (Regex.rep Chars.is_ws true
            (Regex.exec [Regex.Open; Regex.Rep true true Chars.is_dot; Regex.Close] [])
            true (ws +:+ String c rest) = Some
          ([run Chars.is_dot (String c rest)],
           drop_chars (String.length (run Chars.is_dot (String c rest))) (String c rest))).
  apply rep_greedy_first.
  - by rewrite all_chars_ws.
  - by left.
  - by intros ?? [= <- <-].
  - rewrite exec_genre_group. simpl. by rewrite (not_ws_is_dot c Hc).
Qed.

(** X11: when the analysis text has a "Release Year:" label (in any case)
    followed, after white space or none, by four digits, the year that is
    saved is the number written by the four digits after the first such
    label, or NULL when they are 0000; without such a label it is the year
    of the resolved record.  When the text has a "Genre:" label followed,
    after white space or none, by a visible character, the genre that is
    saved is the line that starts there after the first such label,
    trimmed.  In both cases the saved value does not depend on the resolved
    record. *)
Theorem extracted_metadata_wins analysis :
  (∀ pre y, year_label_at analysis pre y →
     ∃ pre' y',
       year_label_at analysis pre' y'
       ∧ (String.length pre' ≤ String.length pre)%nat
       ∧ 0 ≤ decimal y' ≤ 9999
       ∧ ∀ userId (finalSongInfo : jsobj),
           ins_yearReleased (toInsert userId finalSongInfo analysis)
           = if decimal y' =? 0 then JNull else JNum (decimal y'))
  ∧ ((∀ pre y, ¬ year_label_at analysis pre y) →
     ∀ userId (finalSongInfo : jsobj),
       ins_yearReleased (toInsert userId finalSongInfo analysis)
       = js_or (get finalSongInfo "year") JNull)
  ∧ (∀ pre genre, genre_label_at analysis pre genre →
     ∃ pre' genre',
       genre_label_at analysis pre' genre'
       ∧ (String.length pre' ≤ String.length pre)%nat
       ∧ trim genre' ≠ ""
       ∧ ∀ userId (finalSongInfo : jsobj),
           ins_genre (toInsert userId finalSongInfo analysis) = JStr (trim genre')).
Proof.
  split_and!.
  - intros pre y (label & ws & post & Hs & Hlabel & Hws & Hy).
    pose proof (year_label_exec label ws y post Hlabel Hws Hy) as Hexec.
    destruct (search_found yearPattern analysis pre _ _ Hs Hexec) as [m Hm].
    pose proof Hm as Hleft.
    apply search_leftmost in Hleft as (pre' & s' & Hs' & E & Hmin).
    apply year_exec_label in E as (label' & ws' & y' & post' & -> & Hl' & Hw' & Hy' & ->).
    destruct (parseInt_year _ _ Hy') as (_ & Hparse & Hn & _).
    exists pre', y'. split; [by exists label', ws', post'|]. split; [|split; [done|]].
    + destruct (decide (String.length pre' ≤ String.length pre)%nat) as [|Hgt]; [done|].
      rewrite (Hmin pre _ Hs) in Hexec by lia. done.
    + intros userId final. unfold toInsert. cbn [ins_yearReleased]. rewrite Hm, Hparse.
      unfold js_or. simpl. by destruct (decimal y' =? 0).
  - intros Hnone userId final. unfold toInsert. cbn [ins_yearReleased].
    destruct (Regex.search yearPattern analysis) as [m|] eqn:Hm; [|done].
    apply search_leftmost in Hm as (pre' & s' & Hs' & E & _).
    apply year_exec_label in E as (label' & ws' & y' & post' & -> & Hl' & Hw' & Hy' & ->).
    destruct (Hnone pre' y'). by exists label', ws', post'.
  - intros pre genre (label & ws & c & rest & Hs & Hlabel & Hws & Hc & ->).
    pose proof (genre_label_exec label ws c rest Hlabel Hws Hc) as Hexec.
    destruct (search_found genrePattern analysis pre _ _ Hs Hexec) as [m Hm].
    pose proof Hm as Hleft.
    apply search_leftmost in Hleft as (pre' & s' & Hs' & E & Hmin).
    assert (String.length pre' ≤ String.length pre)%nat as Hle.
    { destruct (decide (String.length pre' ≤ String.length pre)%nat) as [|Hgt]; [done|].
      rewrite (Hmin pre _ Hs) in Hexec by lia. done. }
    pose proof E as E'. unfold genrePattern in E'.
    apply exec_text_sound in E' as (label' & s1 & -> & Hl' & _).
    (* what follows the first label is not blank: the visible character
       of the given label lies in it *)
    assert (whitespace_only s1 = false) as Hvisible.
    { assert (pre' +:+ label' +:+ s1 = pre +:+ label +:+ ws +:+ String c rest) as Heq
        by congruence.
      rewrite <- !str_app_assoc in Heq.
      apply str_app_split in Heq as (x & _ & ->).
      - rewrite whitespace_only_app. simpl. rewrite Hc. by rewrite andb_false_r.
      - rewrite !str_length_app, (same_letters_length _ _ Hl'),
          (same_letters_length _ _ Hlabel). lia. }
    set (ws' := run Chars.is_ws s1).
    destruct (drop_chars (String.length ws') s1) as [|c' rest'] eqn:Hrest.
    { pose proof (run_drop Chars.is_ws s1) as Hs1. fold ws' in Hs1. rewrite Hrest in Hs1.
      rewrite str_app_nil_r in Hs1. rewrite Hs1 in Hvisible.
      unfold ws' in Hvisible. by rewrite <- all_chars_ws, all_chars_run in Hvisible. }
    pose proof (run_stops _ _ _ _ Hrest) as Hc'.
    assert (s1 = ws' +:+ String c' rest') as Hs1.
    { rewrite <- Hrest. apply run_drop. }
    assert (whitespace_only ws' = true) as Hws'.
    { unfold ws'. by rewrite <- all_chars_ws, all_chars_run. }
    rewrite Hs1, (genre_label_exec label' ws' c' rest' Hl' Hws' Hc') in E.
    exists pre', (run Chars.is_dot (String c' rest')). split; [|split; [done|split]].
    + exists label', ws', c', rest'. split_and!; try done. by rewrite Hs', Hs1.
    + simpl. rewrite (not_ws_is_dot c' Hc'). apply not_blank_trim. simpl. by rewrite Hc'.
    + intros userId final. unfold toInsert. cbn [ins_genre]. rewrite Hm.
      simplify_eq. unfold js_or. simpl.
      rewrite bool_decide_eq_false_2; [done|].
      rewrite (not_ws_is_dot c' Hc'). apply not_blank_trim. simpl. by rewrite Hc'.
Qed.

Definition labelled_analysis : string :=
  "Longing." +:+ nl +:+ "Genre: Pop" +:+ nl +:+ "Release Year: 2013".

Lemma extracted_metadata_wins_witness :
  ∃ y' genre',
    ins_yearReleased (toInsert "u1" (object [("year", JNum 1998)]) labelled_analysis)
    = (if decimal y' =? 0 then JNull else JNum (decimal y'))
    ∧ ins_genre (toInsert "u1" (object [("year", JNum 1998)]) labelled_analysis)
      = JStr (trim genre').
Proof.
  destruct (extracted_metadata_wins labelled_analysis) as (Hy & _ & Hg).
  destruct (Hy ("Longing." +:+ nl +:+ "Genre: Pop" +:+ nl) "2013")
    as (pre' & y' & _ & _ & _ & Hyear).
  { by exists "Release Year:", " ", "". }
  destruct (Hg ("Longing." +:+ nl) "Pop") as (pre'' & genre' & _ & _ & _ & Hgenre).
  { by exists "Genre:", " ", "P"%char, ("op" +:+ nl +:+ "Release Year: 2013"). }
  exists y', genre'. split; [apply Hyear|apply Hgenre].
Defined.

Example extracted_metadata_example :
  ins_yearReleased (toInsert "u1" (object [("year", JNum 1998)]) labelled_analysis) = JNum 2013
  ∧ ins_genre (toInsert "u1" (object [("year", JNum 1998)]) labelled_analysis) = JStr "Pop".
Proof. split; reflexivity. Qed.

Lemma remove_all_length r : ∀ fuel s,
  (String.length (Regex.remove_all fuel r s) ≤ String.length s)%nat.
Proof.
  induction fuel as [|fuel IH]; intros s; simpl; [done|].
  destruct (Regex.exec r [] s) as [[caps rest]|] eqn:E.
  - destruct (exec_suffix _ _ _ _ _ E) as [pre ->].
    specialize (IH rest). rewrite str_length_app. lia.
  - destruct s as [|c s]; simpl; [done|]. specialize (IH s). lia.
Qed.

Lemma length_trim s : (String.length (trim s) ≤ String.length s)%nat.
Proof.
  unfold trim. pose proof (length_trimEnd (trimStart s)). pose proof (length_trimStart s). lia.
Qed.

Lemma cleaned_text_trimmed userId (finalSongInfo : jsobj) analysis :
  trim (ins_lyricsAnalysis (toInsert userId finalSongInfo analysis))
  = ins_lyricsAnalysis (toInsert userId finalSongInfo analysis).
Proof. unfold toInsert. cbn [ins_lyricsAnalysis]. apply trim_idem. Qed.

(** X12: the analysis text that is saved is trimmed and never longer than
    the text the analysis engine returned: cleaning only removes. *)
Theorem cleaned_analysis_shrinks userId (finalSongInfo : jsobj) analysis :
  trim (ins_lyricsAnalysis (toInsert userId finalSongInfo analysis))
  = ins_lyricsAnalysis (toInsert userId finalSongInfo analysis)
  ∧ (String.length (ins_lyricsAnalysis (toInsert userId finalSongInfo analysis))
     ≤ String.length analysis)%nat.
Proof.
  unfold toInsert. cbn [ins_lyricsAnalysis]. split; [apply trim_idem|].
  etrans; [apply length_trim|]. unfold replace_all.
  etrans; [apply remove_all_length|]. apply remove_all_length.
Qed.

(** ** The database: keys and references *)

(** Serial keys are unique and below their sequence, and every reference to
    a user or an analysis points at an existing row. *)
Definition db_wf (db : DB) : Prop :=
  (∀ a, a ∈ songAnalyses db → sa_id a < songAnalyses_seq db ∧ sa_userId a ∈ users db)
  ∧ NoDup (sa_id <$> songAnalyses db)
  ∧ (∀ f, f ∈ favorites db →
       fav_id f < favorites_seq db ∧ fav_userId f ∈ users db
       ∧ fav_songAnalysisId f ∈ sa_id <$> songAnalyses db)
  ∧ NoDup (fav_id <$> favorites db)
  ∧ (∀ h, h ∈ searchHistory db →
       sh_id h < searchHistory_seq db ∧ sh_userId h ∈ users db
       ∧ ∀ id, sh_songAnalysisId h = Some id → id ∈ sa_id <$> songAnalyses db)
  ∧ NoDup (sh_id <$> searchHistory db).

Lemma NoDup_snoc_fresh {A} (key : A → Z) (l : list A) (y : A) :
  NoDup (key <$> l) → (∀ x, x ∈ l → key x < key y) → NoDup (key <$> l ++ [y]).
Proof.
  intros Hnd Hlt. rewrite fmap_app. apply NoDup_app. split_and!; [done| |].
  - intros k [x [Hk Hx]]%list_elem_of_fmap [y' [Hk' ->%list_elem_of_singleton]]%list_elem_of_fmap.
    specialize (Hlt x Hx). lia.
  - apply NoDup_singleton.
Qed.

Lemma NoDup_fmap_filter {A} (key : A → Z) (P : A → Prop) `{!∀ x, Decision (P x)} (l : list A) :
  NoDup (key <$> l) → NoDup (key <$> filter P l).
Proof.
  intros Hnd. eapply sublist_NoDup; [exact Hnd|]. apply fmap_sublist, sublist_filter.
Qed.

Lemma nextval_wf t db : db_wf db → db_wf (Storage.nextval t db).
Proof.
  intros (Ha & Hna & Hf & Hnf & Hh & Hnh). unfold db_wf. simpl. split_and!; try done.
  - intros a Hin. destruct (Ha a Hin). split; [destruct t; lia|done].
  - intros f Hin. destruct (Hf f Hin) as (? & ? & ?). split_and!; [destruct t; lia|done..].
  - intros h Hin. destruct (Hh h Hin) as (? & ? & ?). split_and!; [destruct t; lia|done..].
Qed.

Lemma refused_insert_wf t db db' : db_wf db → refused_insert t db db' → db_wf db'.
Proof. intros Hwf [-> | ->]; [done|by apply nextval_wf]. Qed.

Lemma addToFavorites_refused env favorite db message db1 :
  Storage.addToFavorites env favorite db = (Throw message, db1) →
  refused_insert Storage.FavoritesTable db db1.
Proof.
  unfold Storage.addToFavorites, Storage.unavailable, refused_insert.
  intros H. repeat case_match; simplify_eq; auto.
Qed.

Lemma createSongAnalysis_wf env analysis db :
  db_wf db → db_wf (Storage.createSongAnalysis env analysis db).2.
Proof.
  intros Hwf.
  destruct (Storage.createSongAnalysis env analysis db) as [[row|m] db1] eqn:H; simpl.
  2: { by eapply refused_insert_wf, createSongAnalysis_refused. }
  destruct Hwf as (Ha & Hna & Hf & Hnf & Hh & Hnh).
  unfold Storage.createSongAnalysis in H. cbv zeta in H.
  repeat case_match; simplify_eq.
  match goal with Hu : bool_decide _ = true |- _ => apply bool_decide_eq_true_1 in Hu end.
  unfold db_wf. simpl. split_and!; try done.
  - intros a [Hin | ->%list_elem_of_singleton]%elem_of_app; simpl.
    + destruct (Ha a Hin). split; [lia|done].
    + split; [lia|done].
  - apply NoDup_snoc_fresh; [done|]. intros x Hx. simpl. by destruct (Ha x Hx).
  - intros f Hin. destruct (Hf f Hin) as (? & ? & ?). split_and!; try done.
    rewrite fmap_app. apply elem_of_app. by left.
  - intros h Hin. destruct (Hh h Hin) as (? & ? & Hid). split_and!; try done.
    intros id Hsome. rewrite fmap_app. apply elem_of_app. left. by apply Hid.
Qed.

Lemma addToFavorites_wf env favorite db :
  db_wf db → db_wf (Storage.addToFavorites env favorite db).2.
Proof.
  intros Hwf.
  destruct (Storage.addToFavorites env favorite db) as [[row|m] db1] eqn:H; simpl.
  2: { by eapply refused_insert_wf, addToFavorites_refused. }
  destruct Hwf as (Ha & Hna & Hf & Hnf & Hh & Hnh).
  unfold Storage.addToFavorites in H.
  repeat case_match; simplify_eq.
  match goal with Hu : _ && _ = true |- _ =>
    apply andb_true_iff in Hu as [Hu1%bool_decide_eq_true_1 Hu2%bool_decide_eq_true_1] end.
  unfold db_wf. simpl. split_and!; try done.
  - intros f [Hin | ->%list_elem_of_singleton]%elem_of_app; simpl.
    + destruct (Hf f Hin) as (? & ? & ?). split_and!; [lia|done..].
    + split_and!; [lia|done..].
  - apply NoDup_snoc_fresh; [done|]. intros x Hx. simpl. by destruct (Hf x Hx).
Qed.

Lemma addToSearchHistory_wf env search db :
  db_wf db → db_wf (Storage.addToSearchHistory env search db).2.
Proof.
  intros Hwf.
  destruct (Storage.addToSearchHistory env search db) as [[row|m] db1] eqn:H; simpl.
  2: { by eapply refused_insert_wf, addToSearchHistory_refused. }
  destruct Hwf as (Ha & Hna & Hf & Hnf & Hh & Hnh).
  unfold Storage.addToSearchHistory in H.
  destruct (negb _); [done|].
  destruct (bool_decide (inss_userId search ∈ users db)) eqn:Hu; simpl in H; [|done].
  apply bool_decide_eq_true_1 in Hu.
  assert (∀ id, inss_songAnalysisId search = Some id → id ∈ sa_id <$> songAnalyses db)
    as Hid.
  { intros id Hs. rewrite Hs in H. by case_bool_decide. }
  assert (row = {| sh_id := searchHistory_seq db; sh_userId := inss_userId search;
                   sh_searchQuery := inss_searchQuery search;
                   sh_songAnalysisId := inss_songAnalysisId search;
                   sh_createdAt := now env |}
          ∧ songAnalyses db1 = songAnalyses db ∧ users db1 = users db
          ∧ favorites db1 = favorites db
          ∧ searchHistory db1 = searchHistory db ++ [row]
          ∧ songAnalyses_seq db1 = songAnalyses_seq db
          ∧ favorites_seq db1 = favorites_seq db
          ∧ searchHistory_seq db1 = searchHistory_seq db + 1)
    as (-> & E1 & E2 & E3 & E4 & E5 & E6 & E7).
  { destruct (inss_songAnalysisId search); [case_bool_decide|]; by simplify_eq. }
  unfold db_wf. rewrite E1, E2, E3, E4, E5, E6, E7. split_and!; try done.
  - intros h [Hin | ->%list_elem_of_singleton]%elem_of_app; simpl.
    + destruct (Hh h Hin) as (? & ? & ?). split_and!; [lia|done..].
    + split_and!; [lia|done..].
  - apply NoDup_snoc_fresh; [done|]. intros x Hx. simpl. by destruct (Hh x Hx).
Qed.

Lemma removeFromFavorites_wf env userId songAnalysisId db u db1 :
  db_wf db → Storage.removeFromFavorites env userId songAnalysisId db = Ok (u, db1) →
  db_wf db1.
Proof.
  intros (Ha & Hna & Hf & Hnf & Hh & Hnh) H. unfold Storage.removeFromFavorites in H.
  case_match; simplify_eq. unfold db_wf. simpl. split_and!; try done.
  - intros f [_ Hin]%list_elem_of_filter. by apply Hf.
  - by apply NoDup_fmap_filter.
Qed.

Lemma clearUserSearchHistory_wf env userId db u db1 :
  db_wf db → Storage.clearUserSearchHistory env userId db = Ok (u, db1) → db_wf db1.
Proof.
  intros (Ha & Hna & Hf & Hnf & Hh & Hnh) H. unfold Storage.clearUserSearchHistory in H.
  case_match; simplify_eq. unfold db_wf. simpl. split_and!; try done.
  - intros h [_ Hin]%list_elem_of_filter. by apply Hh.
  - by apply NoDup_fmap_filter.
Qed.

(** X13: every handler keeps the keys and references of the database
    sound: ids stay unique and below their sequences, and every favorite
    and history entry keeps pointing at an existing user and analysis. *)
Theorem handlers_keep_db_wf JSON_parse env req db :
  db_wf db →
  db_wf (searchRoute JSON_parse env req db).2
  ∧ db_wf (addFavoriteRoute env req db).2
  ∧ db_wf (removeFavoriteRoute env req db).2
  ∧ db_wf (clearSearchHistoryRoute env req db).2
  ∧ (favoritesRoute env req db).2 = db
  ∧ (songsHistoryRoute env req db).2 = db
  ∧ (searchHistoryRoute env req db).2 = db
  ∧ ∀ id, (songRoute env id db).2 = db.
Proof.
  intros Hwf. split_and!.
  - unfold searchRoute, failed.
    destruct (member (body req) "query") as [[]|]; simpl; try done.
    case_bool_decide; simpl; [done|].
    destruct (resolve env s); simpl; [|done].
    destruct (analyse _ _ _); simpl; [|done].
    match goal with |- context [Storage.createSongAnalysis ?e ?a ?d] =>
      pose proof (createSongAnalysis_wf e a d Hwf) as Hwf1;
      destruct (Storage.createSongAnalysis e a d) as [[row|m] db1] end;
      simpl in *; [|done].
    match goal with |- context [Storage.addToSearchHistory ?e ?a ?d] =>
      pose proof (addToSearchHistory_wf e a d Hwf1) as Hwf2;
      destruct (Storage.addToSearchHistory e a d) as [[entry|m] db2] end;
      simpl in *; done.
  - unfold addFavoriteRoute. destruct (validateFavorite req); simpl; [|done].
    destruct (Storage.isFavorite _ _ _ _) as [[]|]; simpl; try done.
    match goal with |- context [Storage.addToFavorites ?e ?a ?d] =>
      pose proof (addToFavorites_wf e a d Hwf) as Hwf1;
      destruct (Storage.addToFavorites e a d) as [[row|m] db1] end;
      simpl in *; done.
  - unfold removeFavoriteRoute. destruct (as_integer _) as [[n|]|]; simpl; try done.
    destruct (Storage.removeFromFavorites _ _ _ _) as [[u db1]|] eqn:Hr; simpl; [|done].
    by apply (removeFromFavorites_wf _ _ _ _ _ _ Hwf Hr).
  - unfold clearSearchHistoryRoute.
    destruct (Storage.clearUserSearchHistory _ _ _) as [[u db1]|] eqn:Hr; simpl; [|done].
    by apply (clearUserSearchHistory_wf _ _ _ _ _ Hwf Hr).
  - unfold favoritesRoute. by destruct (Storage.getUserFavorites _ _ _).
  - unfold songsHistoryRoute. by destruct (Storage.getUserSongAnalyses _ _ _ _).
  - unfold searchHistoryRoute. by destruct (Storage.getUserSearchHistory _ _ _ _).
  - intros id. unfold songRoute. destruct (as_integer _) as [[n|]|]; simpl; try done.
    by destruct (Storage.getSongAnalysis _ _ _) as [[]|].
Qed.

Lemma one_user_wf : db_wf one_user.
Proof.
  unfold db_wf, one_user. simpl. split_and!; try (by constructor); by intros ? ?%not_elem_of_nil.
Qed.

Lemma handlers_keep_db_wf_witness :
  db_wf (searchRoute Json.parse free_text_answer (search_request "Stay") one_user).2.
Proof.
  apply (handlers_keep_db_wf Json.parse free_text_answer (search_request "Stay") one_user).
  apply one_user_wf.
Defined.

(** ** What a search stores *)

Lemma searchRoute_success JSON_parse env req db songAnalysis db' :
  searchRoute JSON_parse env req db
  = ({| status := 200; json := AnalysisJson songAnalysis |}, db') →
  ∃ query finalSongInfo analysis db1 entry,
    member (body req) "query" = Ok (JStr query) ∧ query ≠ ""
    ∧ resolve env query = Some finalSongInfo
    ∧ analyse JSON_parse env finalSongInfo = Ok analysis
    ∧ Storage.createSongAnalysis env (toInsert (claims_sub req) finalSongInfo analysis) db
      = (Ok songAnalysis, db1)
    ∧ Storage.addToSearchHistory env
        {| inss_userId := claims_sub req; inss_searchQuery := query;
           inss_songAnalysisId := Some (sa_id songAnalysis) |} db1
      = (Ok entry, db').
Proof.
  unfold searchRoute, failed. intros H.
  destruct (member (body req) "query") as [[| | | | |query| |]|] eqn:Hm; try done.
  case_bool_decide as Hq; [done|].
  destruct (resolve env query) as [final|] eqn:Hres; [|done].
  destruct (analyse _ _ _) as [analysis|] eqn:Han; [|done].
  destruct (Storage.createSongAnalysis _ _ _) as [[row|m] db1] eqn:Hc; [|done].
  destruct (Storage.addToSearchHistory _ _ _) as [[entry|m] db2] eqn:Hh; [|done].
  simplify_eq. by exists query, final, analysis, db1, entry.
Qed.

Lemma createSongAnalysis_row env analysis db row db1 :
  Storage.createSongAnalysis env analysis db = (Ok row, db1) →
  sa_id row = songAnalyses_seq db
  ∧ sa_userId row = ins_userId analysis
  ∧ sa_createdAt row = now env
  ∧ sa_lyricsAnalysis row = ins_lyricsAnalysis analysis
  ∧ as_text (ins_title analysis) = Some (Some (sa_title row))
  ∧ as_text (ins_artist analysis) = Some (Some (sa_artist row))
  ∧ as_text (ins_genre analysis) = Some (sa_genre row)
  ∧ as_integer (ins_yearReleased analysis) = Some (sa_yearReleased row)
  ∧ ins_userId analysis ∈ users db
  ∧ users db1 = users db ∧ favorites db1 = favorites db.
Proof.
  unfold Storage.createSongAnalysis. cbv zeta. intros H.
  destruct (negb _); [done|].
  destruct (as_text (ins_title analysis)) as [[t|]|]; try done;
    destruct (as_text (ins_artist analysis)) as [[a|]|]; try done;
    destruct (as_text (ins_genre analysis)) as [g|]; try done;
    destruct (as_integer (ins_yearReleased analysis)) as [y|]; try done.
  case_bool_decide; [|done]. by simplify_eq.
Qed.

(** The text that is saved: the analysis without its "Genre: ..." lines
    (the label, white space and the rest of the line) and without its
    "Release Year: dddd" labels, trimmed: lines 75-78 of the handler. *)
Definition cleaned (analysis : string) : string :=
  trim (replace_all (Regex.text true "Release Year:"
                       ++ [Regex.Rep true false Chars.is_ws;
                           Regex.Lit Chars.is_digit; Regex.Lit Chars.is_digit;
                           Regex.Lit Chars.is_digit; Regex.Lit Chars.is_digit])
          (replace_all (Regex.text true "Genre:"
                          ++ [Regex.Rep true false Chars.is_ws;
                              Regex.Rep true true Chars.is_dot])
             analysis)).

(** X14: the record saved by a successful search belongs to the requesting
    user, takes the next id and the clock of the request, and carries the
    resolved title and artist and, as its text, the text the analysis engine
    returned for the resolved record, cleaned and trimmed.  Its genre is
    never the empty string and its year never 0: what is absent is saved as
    NULL.  The record is appended to the analyses, and the history entry
    written with it refers to it and keeps the query as it was typed. *)
Theorem search_saves_record JSON_parse env req db songAnalysis db' :
  searchRoute JSON_parse env req db
  = ({| status := 200; json := AnalysisJson songAnalysis |}, db') →
  sa_userId songAnalysis = claims_sub req
  ∧ sa_id songAnalysis = songAnalyses_seq db
  ∧ sa_createdAt songAnalysis = now env
  ∧ trim (sa_lyricsAnalysis songAnalysis) = sa_lyricsAnalysis songAnalysis
  ∧ sa_genre songAnalysis ≠ Some ""
  ∧ sa_yearReleased songAnalysis ≠ Some 0
  ∧ claims_sub req ∈ users db
  ∧ ∃ query finalSongInfo analysis entry,
      member (body req) "query" = Ok (JStr query)
      ∧ resolve env query = Some finalSongInfo
      ∧ analyse JSON_parse env finalSongInfo = Ok analysis
      ∧ sa_lyricsAnalysis songAnalysis = cleaned analysis
      ∧ get finalSongInfo "title" = JStr (sa_title songAnalysis)
      ∧ get finalSongInfo "artist" = JStr (sa_artist songAnalysis)
      ∧ songAnalyses db' = songAnalyses db ++ [songAnalysis]
      ∧ searchHistory db' = searchHistory db ++ [entry]
      ∧ sh_searchQuery entry = query
      ∧ sh_userId entry = claims_sub req
      ∧ sh_songAnalysisId entry = Some (sa_id songAnalysis).
Proof.
  intros H.
  destruct (searchRoute_success _ _ _ _ _ _ H)
    as (query & final & analysis & db1 & entry & Hq & Hne & Hres & Han & Hc & Hh).
  destruct (createSongAnalysis_row _ _ _ _ _ Hc)
    as (Hid & Hu & Ht & Hl & Htitle & Hartist & Hgenre & Hyear & Huser & _).
  destruct (createSongAnalysis_appends _ _ _ _ _ Hc) as [Hsa1 Hsh1].
  split_and!; try done.
  - rewrite Hl. apply cleaned_text_trimmed.
  - intros Hg. rewrite Hg in Hgenre. cbn [toInsert ins_genre] in Hgenre.
    unfold js_or in Hgenre. destruct (truthy _) eqn:Et.
    + destruct (match Regex.search genrePattern analysis with
                | Some (genre :: _, _) => JStr (trim genre)
                | _ => get final "genre" end) as [| | | | |g'| |]; simpl in *; by simplify_eq.
    + done.
  - intros Hy. rewrite Hy in Hyear. cbn [toInsert ins_yearReleased] in Hyear.
    unfold js_or in Hyear. destruct (truthy _) eqn:Et.
    + destruct (match Regex.search yearPattern analysis with
                | Some (year :: _, _) => parseInt year
                | _ => get final "year" end) as [| | |n| | | |]; simpl in *; simplify_eq.
      destruct (int4 n); by simplify_eq.
    + done.
  - exists query, final, analysis, entry.
    destruct (addToSearchHistory_appends _ _ _ _ _ Hh) as (Hsa & Hsh & Hentry).
    cbn [toInsert ins_title ins_artist] in Htitle, Hartist.
    assert (sh_searchQuery entry = query ∧ sh_userId entry = claims_sub req) as [? ?].
    { unfold Storage.addToSearchHistory in Hh. repeat case_match; by simplify_eq. }
    split_and!; try done.
    + destruct (get final "title"); simpl in Htitle; by simplify_eq.
    + destruct (get final "artist"); simpl in Hartist; by simplify_eq.
    + by rewrite Hsa, Hsa1.
    + by rewrite Hsh, Hsh1.
Qed.

Lemma search_saves_record_witness :
  ∃ songAnalysis db',
    searchRoute Json.parse free_text_answer (search_request "Stay") one_user
    = ({| status := 200; json := AnalysisJson songAnalysis |}, db')
    ∧ sa_userId songAnalysis = "u1"
    ∧ sa_genre songAnalysis ≠ Some "".
Proof.
  eexists. eexists. split; [reflexivity|].
  destruct (search_saves_record Json.parse free_text_answer (search_request "Stay") one_user
              _ _ eq_refl) as (Hu & _ & _ & _ & Hg & _).
  split; [exact Hu|exact Hg].
Defined.

Lemma head_filter_snoc_fresh {A} (P : A → Prop) `{!∀ x, Decision (P x)} (l : list A) (y : A) :
  (∀ x, x ∈ l → ¬ P x) → P y → head (filter P (l ++ [y])) = Some y.
Proof.
  intros Hl Hy. rewrite filter_app.
  assert (filter P l = []) as ->.
  { induction l as [|x l IH]; [done|]. rewrite filter_cons_False.
    - apply IH. intros z Hz. apply Hl. by right.
    - apply Hl. by left. }
  simpl. by rewrite filter_cons_True.
Qed.

(** X15: an analysis saved by a successful search can be read back by its
    id, for any later reader, as long as the database is reachable; and a
    request for an id that no analysis has is answered with 404. *)
Theorem saved_analysis_is_readable JSON_parse env req db songAnalysis db' env' id :
  db_wf db →
  searchRoute JSON_parse env req db
  = ({| status := 200; json := AnalysisJson songAnalysis |}, db') →
  db_ok env' "getSongAnalysis" = true →
  as_integer (parseInt id) = Some (Some (sa_id songAnalysis)) →
  songRoute env' id db' = ({| status := 200; json := AnalysisJson songAnalysis |}, db')
  ∧ ∀ other n,
      as_integer (parseInt other) = Some (Some n) →
      n ∉ sa_id <$> songAnalyses db' →
      songRoute env' other db'
      = ({| status := 404; json := Message "Song analysis not found" |}, db').
Proof.
  intros Hwf H Hup Hid.
  destruct (searchRoute_success _ _ _ _ _ _ H)
    as (query & final & analysis & db1 & entry & _ & _ & _ & _ & Hc & Hh).
  destruct (createSongAnalysis_row _ _ _ _ _ Hc) as (Hrow & _).
  destruct (createSongAnalysis_appends _ _ _ _ _ Hc) as [Hsa1 _].
  destruct (addToSearchHistory_appends _ _ _ _ _ Hh) as (Hsa & _ & _).
  destruct Hwf as (Ha & _).
  unfold songRoute, Storage.getSongAnalysis. rewrite Hup. simpl. split.
  - rewrite Hid, Hsa, Hsa1.
    rewrite head_filter_snoc_fresh; [done| |done].
    intros x Hx. destruct (Ha x Hx). lia.
  - intros other n Hn Hnot. rewrite Hn.
    assert (filter (λ a, sa_id a = n) (songAnalyses db') = []) as ->; [|done].
    destruct (filter _ _) as [|x l] eqn:E; [done|]. exfalso. apply Hnot.
    assert (x ∈ filter (λ a, sa_id a = n) (songAnalyses db')) as Hx by (rewrite E; by left).
    apply list_elem_of_filter in Hx as [<- Hx]. by apply list_elem_of_fmap_2.
Qed.

Lemma saved_analysis_is_readable_witness :
  ∃ songAnalysis db',
    searchRoute Json.parse free_text_answer (search_request "Stay") one_user
    = ({| status := 200; json := AnalysisJson songAnalysis |}, db')
    ∧ songRoute offline "1" db' = ({| status := 200; json := AnalysisJson songAnalysis |}, db')
    ∧ songRoute offline "2" db'
      = ({| status := 404; json := Message "Song analysis not found" |}, db').
Proof.
  eexists. eexists. split; [reflexivity|].
  destruct (saved_analysis_is_readable Json.parse free_text_answer (search_request "Stay")
              one_user _ _ offline "1" one_user_wf eq_refl eq_refl eq_refl) as [Hread Hnone].
  split; [exact Hread|]. apply (Hnone "2" 2); [reflexivity|].
  simpl. intros [Heq|Hnil]%elem_of_cons; [discriminate|by apply not_elem_of_nil in Hnil].
Defined.

(** X16: a search never changes the users or the favorites, and a 400
    leaves the database untouched.  When the answer is not 200, either the
    database is as it was but for the analysis id that a refused insert may
    have used up, or the analysis was saved and only the history entry is
    missing. *)
Theorem search_failure_effects JSON_parse env req db :
  let response := (searchRoute JSON_parse env req db).1 in
  let db' := (searchRoute JSON_parse env req db).2 in
  users db' = users db
  ∧ favorites db' = favorites db
  ∧ (status response = 400 → db' = db)
  ∧ (status response ≠ 200 →
     (db' = db ∨ db' = Storage.nextval Storage.SongAnalysesTable db)
     ∨ ∃ analysis songAnalysis db1,
         Storage.createSongAnalysis env analysis db = (Ok songAnalysis, db1)
         ∧ (db' = db1 ∨ db' = Storage.nextval Storage.SearchHistoryTable db1)
         ∧ status response = 500).
Proof.
  intros response db'. subst response db'. unfold searchRoute, failed.
  destruct (member (body req) "query") as [[| | | | |query| |]|]; simpl;
    try (by split_and!; auto).
  case_bool_decide; simpl; [by split_and!; auto|].
  destruct (resolve env query); simpl; [|by split_and!; auto].
  destruct (analyse _ _ _); simpl; [|by split_and!; auto].
  destruct (Storage.createSongAnalysis _ _ _) as [[row|m] db1] eqn:Hc; simpl.
  2: { apply createSongAnalysis_refused in Hc as [-> | ->]; split_and!; auto; done. }
  destruct (createSongAnalysis_row _ _ _ _ _ Hc) as (_ & _ & _ & _ & _ & _ & _ & _ & _ & Hu & Hf).
  destruct (Storage.addToSearchHistory _ _ _) as [[entry|m] db2] eqn:Hh; simpl.
  - assert (users db2 = users db1 ∧ favorites db2 = favorites db1) as [-> ->].
    { unfold Storage.addToSearchHistory in Hh. repeat case_match; by simplify_eq. }
    split_and!; done.
  - apply addToSearchHistory_refused in Hh.
    split_and!; [by destruct Hh as [-> | ->]|by destruct Hh as [-> | ->]|done|].
    intros _. right. by eexists _, row, db1.
Qed.

(** The user is not in the database: the insert is refused and id 1 is
    used up. *)
Lemma search_failure_effects_witness :
  (searchRoute Json.parse free_text_answer (search_request "Stay") no_user).2
  = Storage.nextval Storage.SongAnalysesTable no_user.
Proof.
  destruct (search_failure_effects Json.parse free_text_answer (search_request "Stay") no_user)
    as (_ & _ & _ & H).
  destruct H as [[H|H]|(a & s & db1 & Hc & _)]; [vm_compute; discriminate| |exact H|].
  - exfalso. apply (f_equal songAnalyses_seq) in H. vm_compute in H. discriminate.
  - exfalso.
    destruct (createSongAnalysis_row _ _ _ _ _ Hc) as (_ & _ & _ & _ & _ & _ & _ & _ & Hu & _).
    cbn in Hu. set_solver.
Defined.

(** ** Listings and deletions *)

Lemma elem_of_take_list {A} (x : A) n l : x ∈ take n l → x ∈ l.
Proof. intros (i & Hi & _)%elem_of_take. by apply list_elem_of_lookup_2 in Hi. Qed.

Lemma unique_match {A} (key : A → Z) (l : list A) k :
  NoDup (key <$> l) → k ∈ key <$> l → ∃ a, filter (λ a, k = key a) l = [a].
Proof.
  induction l as [|x l IH]; simpl; intros Hnd Hin; [by apply not_elem_of_nil in Hin|].
  apply NoDup_cons in Hnd as [Hx Hnd].
  destruct (decide (k = key x)) as [->|Hne].
  - exists x. rewrite filter_cons_True by done. f_equal.
    destruct (filter _ l) as [|y l'] eqn:E; [done|]. exfalso. apply Hx.
    assert (y ∈ filter (λ a, key x = key a) l) as Hy by (rewrite E; by left).
    apply list_elem_of_filter in Hy as [-> Hy]. by apply list_elem_of_fmap_2.
  - rewrite filter_cons_False by done. apply IH; [done|].
    apply elem_of_cons in Hin as [?|?]; done.
Qed.

Lemma joined_filter_length userId (al : list SongAnalysis) (fl : list Favorite) :
  NoDup (sa_id <$> al) →
  (∀ f, f ∈ fl → fav_songAnalysisId f ∈ sa_id <$> al) →
  length (filter (λ r : Favorite * SongAnalysis, fav_userId r.1 = userId)
            (f ← fl; a ← filter (λ a, fav_songAnalysisId f = sa_id a) al; [(f, a)]))
  = length (filter (λ f, fav_userId f = userId) fl).
Proof.
  intros Hna. induction fl as [|f fl IH]; intros Hf; [done|].
  assert (fav_songAnalysisId f ∈ sa_id <$> al) as Hin by (apply Hf; by left).
  destruct (unique_match sa_id _ _ Hna Hin) as [a Ha].
  rewrite bind_cons, Ha. simpl. rewrite filter_cons. simpl.
  rewrite (filter_cons (λ f0 : Favorite, fav_userId f0 = userId)).
  assert (∀ f, f ∈ fl → fav_songAnalysisId f ∈ sa_id <$> al) as Hfl.
  { intros f' Hf'. apply Hf. by right. }
  specialize (IH Hfl). destruct (decide _); simpl; by rewrite IH.
Qed.

Lemma userFavorites_length userId db :
  db_wf db →
  length (Storage.userFavorites userId db)
  = length (filter (λ f, fav_userId f = userId) (favorites db)).
Proof.
  intros (_ & Hna & Hf & _). unfold Storage.userFavorites, Storage.joined.
  apply joined_filter_length; [done|]. intros f Hin. by apply Hf.
Qed.

Lemma listed_favorite env userId db favorites_ f a :
  Storage.getUserFavorites env userId db = Ok favorites_ →
  (f, a) ∈ favorites_ →
  f ∈ favorites db ∧ a ∈ songAnalyses db
  ∧ fav_userId f = userId ∧ fav_songAnalysisId f = sa_id a.
Proof.
  unfold Storage.getUserFavorites. destruct (negb _); [done|].
  intros [= <-]. rewrite limited_take by done. intros Hin%elem_of_take_list.
  rewrite merge_sort_Permutation in Hin.
  unfold Storage.userFavorites in Hin. apply list_elem_of_filter in Hin as [Hu Hin].
  unfold Storage.joined in Hin.
  apply list_elem_of_bind in Hin as (f' & Hin & Hf').
  apply list_elem_of_bind in Hin as (a' & Hin & Ha').
  apply list_elem_of_singleton in Hin. simplify_eq.
  apply list_elem_of_filter in Ha' as [Hid Ha']. done.
Qed.

(** X17: the favorites listing shows only favorites of the requesting
    user, each paired with the analysis it refers to; on a sound database it
    shows [min 20 n] entries when the user has [n] favorites. *)
Theorem favorites_listing_contents env userId db favorites_ :
  Storage.getUserFavorites env userId db = Ok favorites_ →
  (∀ f a, (f, a) ∈ favorites_ →
     f ∈ favorites db ∧ a ∈ songAnalyses db
     ∧ fav_userId f = userId ∧ fav_songAnalysisId f = sa_id a)
  ∧ (db_wf db →
     length favorites_
     = (20 `min` length (filter (λ f, fav_userId f = userId) (favorites db)))%nat).
Proof.
  intros H. split.
  - intros f a Hin. by apply (listed_favorite env userId db favorites_).
  - intros Hwf. revert H. unfold Storage.getUserFavorites. destruct (negb _); [done|].
    intros [= <-]. rewrite limited_take by done. change (Z.to_nat 20) with 20%nat.
    rewrite length_take, merge_sort_Permutation.
    by rewrite userFavorites_length.
Qed.

Lemma favorites_listing_contents_witness :
  ∃ favorites_,
    Storage.getUserFavorites offline "u1" many_favorites = Ok favorites_
    ∧ ∀ f a, (f, a) ∈ favorites_ → fav_userId f = "u1" ∧ fav_songAnalysisId f = sa_id a.
Proof.
  eexists. split; [reflexivity|]. intros f a Hin.
  destruct (favorites_listing_contents offline "u1" many_favorites _ eq_refl) as [H _].
  destruct (H f a Hin) as (_ & _ & Hu & Hid). by split.
Defined.

Lemma elem_of_limited {A} (x : A) limit l : x ∈ Storage.limited limit l → x ∈ l.
Proof. unfold Storage.limited. destruct (limit <? 0); [done|apply elem_of_take_list]. Qed.

Lemma StronglySorted_limited {A} (R : relation A) limit l :
  StronglySorted R l → StronglySorted R (Storage.limited limit l).
Proof. unfold Storage.limited. destruct (limit <? 0); [done|apply StronglySorted_take]. Qed.

Lemma length_limited {A} limit (l : list A) :
  length (Storage.limited limit l)
  = if limit <? 0 then length l else Nat.min (Z.to_nat limit) (length l).
Proof. unfold Storage.limited. destruct (limit <? 0); [done|apply length_take]. Qed.

(** X18: both history listings show only rows of the requesting user,
    newest first.  Of the user's [n] rows they show the first [min limit n]
    for a limit that is not negative, and all [n] for a negative one; the
    limit is 20 for the search history and 50 for the analyses when the
    caller gives none. *)
Theorem history_listings_contents env userId limit db :
  (∀ history,
     Storage.getUserSearchHistory env userId limit db = Ok history →
     (∀ h, h ∈ history → h ∈ searchHistory db ∧ sh_userId h = userId)
     ∧ StronglySorted (newest_first sh_createdAt) history
     ∧ length history
       = let n := length (filter (λ h, sh_userId h = userId) (searchHistory db)) in
         if default 20 limit <? 0 then n else Nat.min (Z.to_nat (default 20 limit)) n)
  ∧ (∀ analyses,
       Storage.getUserSongAnalyses env userId limit db = Ok analyses →
       (∀ a, a ∈ analyses → a ∈ songAnalyses db ∧ sa_userId a = userId)
       ∧ StronglySorted (newest_first sa_createdAt) analyses
       ∧ length analyses
         = let n := length (filter (λ a, sa_userId a = userId) (songAnalyses db)) in
           if default 50 limit <? 0 then n else Nat.min (Z.to_nat (default 50 limit)) n).
Proof.
  split.
  - intros history. unfold Storage.getUserSearchHistory. destruct (negb _); [done|].
    intros [= <-]. split_and!.
    + intros h Hin%elem_of_limited. rewrite merge_sort_Permutation in Hin.
      apply list_elem_of_filter in Hin as [? ?]. done.
    + apply StronglySorted_limited.
      apply (StronglySorted_merge_sort (newest_first sh_createdAt)).
    + rewrite length_limited. cbv zeta. destruct (_ <? 0); by rewrite merge_sort_Permutation.
  - intros analyses. unfold Storage.getUserSongAnalyses. destruct (negb _); [done|].
    intros [= <-]. split_and!.
    + intros a Hin%elem_of_limited. rewrite merge_sort_Permutation in Hin.
      apply list_elem_of_filter in Hin as [? ?]. done.
    + apply StronglySorted_limited.
      apply (StronglySorted_merge_sort (newest_first sa_createdAt)).
    + rewrite length_limited. cbv zeta. destruct (_ <? 0); by rewrite merge_sort_Permutation.
Qed.

Lemma history_listings_contents_witness :
  ∃ analyses all,
    Storage.getUserSongAnalyses offline "u1" (Some 5) many_favorites = Ok analyses
    ∧ length analyses = 5%nat
    ∧ Storage.getUserSongAnalyses offline "u1" (Some (-5)) many_favorites = Ok all
    ∧ length all = 25%nat.
Proof.
  eexists. eexists. split; [reflexivity|].
  destruct (history_listings_contents offline "u1" (Some 5) many_favorites) as [_ H].
  destruct (H _ eq_refl) as (_ & _ & Hlen).
  destruct (history_listings_contents offline "u1" (Some (-5)) many_favorites) as [_ H'].
  destruct (H' _ eq_refl) as (_ & _ & Hlen').
  split; [rewrite Hlen; reflexivity|]. split; [reflexivity|]. rewrite Hlen'. reflexivity.
Defined.

(** ** Favorites: adding, listing, removing *)

Lemma addFavoriteRoute_success env req db favorite db1 :
  addFavoriteRoute env req db = ({| status := 201; json := FavoriteJson favorite |}, db1) →
  ∃ v, validateFavorite req = Ok v
       ∧ Storage.addToFavorites env v db = (Ok favorite, db1).
Proof.
  unfold addFavoriteRoute. intros H.
  destruct (validateFavorite req) as [v|] eqn:Hv; [|done].
  destruct (Storage.isFavorite env _ _ db) as [[]|]; [done| |done].
  destruct (Storage.addToFavorites env v db) as [[f|m] d] eqn:Hadd; [|done].
  exists v. by simplify_eq.
Qed.

Lemma isFavorited_true favorites_ songId :
  Client.isFavorited favorites_ songId = true
  ↔ ∃ f a, (f, a) ∈ favorites_ ∧ fav_songAnalysisId f = songId.
Proof.
  unfold Client.isFavorited. rewrite existsb_exists. split.
  - intros ([f a] & Hin%list_elem_of_In & Hid%bool_decide_eq_true_1). by exists f, a.
  - intros (f & a & Hin%list_elem_of_In & Hid). exists (f, a).
    split; [done|]. by apply bool_decide_eq_true_2.
Qed.

(** X19: a favorite that was just added is shown by the favorites listing
    of its user, paired with its analysis, as long as the user had fewer
    than 20 favorites; the page then marks the song as a favorite. *)
Theorem added_favorite_is_listed env req db favorite db1 env' :
  db_wf db →
  addFavoriteRoute env req db = ({| status := 201; json := FavoriteJson favorite |}, db1) →
  db_ok env' "getUserFavorites" = true →
  (length (filter (λ f, fav_userId f = claims_sub req) (favorites db)) < 20)%nat →
  ∃ listing a,
    favoritesRoute env' req db1 = ({| status := 200; json := FavoritesJson listing |}, db1)
    ∧ (favorite, a) ∈ listing
    ∧ a ∈ songAnalyses db
    ∧ sa_id a = fav_songAnalysisId favorite
    ∧ fav_userId favorite = claims_sub req
    ∧ Client.isFavorited listing (fav_songAnalysisId favorite) = true.
Proof.
  intros Hwf Hroute Hup Hfew.
  destruct (addFavoriteRoute_success _ _ _ _ _ Hroute) as (v & Hv & Hadd).
  pose proof (validateFavorite_user _ _ Hv) as Huser.
  pose proof (addToFavorites_wf env v db Hwf) as Hwf1. rewrite Hadd in Hwf1. simpl in Hwf1.
  unfold Storage.addToFavorites in Hadd.
  destruct (negb _); [done|].
  destruct (_ && _) eqn:Hfk; [|done].
  apply andb_true_iff in Hfk as [_ Hfk%bool_decide_eq_true_1].
  apply list_elem_of_fmap in Hfk as (a & Hid & Ha).
  set (row := {| fav_id := favorites_seq db; fav_userId := insf_userId v;
                 fav_songAnalysisId := insf_songAnalysisId v;
                 fav_createdAt := now env |}) in *.
  assert (favorite = row) as -> by congruence.
  assert (favorites db1 = favorites db ++ [row]) as Hfav by (by simplify_eq).
  assert (songAnalyses db1 = songAnalyses db) as Hsa by (by simplify_eq).
  clear Hadd.
  set (sorted := merge_sort (newest_first (λ r : Favorite * SongAnalysis, fav_createdAt r.1))
                   (Storage.userFavorites (claims_sub req) db1)).
  assert (favoritesRoute env' req db1
          = ({| status := 200; json := FavoritesJson sorted |}, db1)) as Hlist.
  { unfold favoritesRoute, Storage.getUserFavorites. rewrite Hup. simpl.
    rewrite limited_take by done.
    change (Z.to_nat 20) with 20%nat. rewrite take_ge; [done|].
    rewrite merge_sort_Permutation, userFavorites_length, Hfav, filter_app, length_app by done.
    rewrite filter_cons_True by done. simpl. lia. }
  assert ((row, a) ∈ sorted) as Hin.
  { unfold sorted. rewrite merge_sort_Permutation. unfold Storage.userFavorites.
    apply list_elem_of_filter. split; [done|]. unfold Storage.joined.
    apply list_elem_of_bind. exists row. split.
    - apply list_elem_of_bind. exists a. split; [by apply list_elem_of_singleton|].
      apply list_elem_of_filter. split; [done|]. by rewrite Hsa.
    - rewrite Hfav. apply elem_of_app. right. by apply list_elem_of_singleton. }
  exists sorted, a. split_and!; try done.
  apply isFavorited_true. by exists row, a.
Qed.

Lemma one_analysis_wf : db_wf one_analysis.
Proof.
  unfold db_wf, one_analysis. simpl. split_and!.
  - intros a ->%list_elem_of_singleton. simpl. split; [lia|set_solver].
  - apply NoDup_singleton.
  - intros f Hf. by apply not_elem_of_nil in Hf.
  - apply NoDup_nil_2.
  - intros h Hh. by apply not_elem_of_nil in Hh.
  - apply NoDup_nil_2.
Qed.

Lemma added_favorite_is_listed_witness :
  ∃ listing a,
    favoritesRoute offline favorite_request
      (addFavoriteRoute offline favorite_request one_analysis).2
    = ({| status := 200; json := FavoritesJson listing |},
       (addFavoriteRoute offline favorite_request one_analysis).2)
    ∧ sa_id a = 1
    ∧ Client.isFavorited listing 1 = true.
Proof.
  destruct (added_favorite_is_listed offline favorite_request one_analysis
              {| fav_id := 1; fav_userId := "u1"; fav_songAnalysisId := 1;
                 fav_createdAt := 0 |}
              (addFavoriteRoute offline favorite_request one_analysis).2 offline
              one_analysis_wf)
    as (listing & a & Hl & _ & _ & Hid & _ & Hfav);
    [reflexivity|reflexivity|simpl; lia|].
  exists listing, a. split_and!; done.
Defined.

Lemma filter_filter_neg {A} (P : A → Prop) `{!∀ x, Decision (P x)} (l : list A) :
  filter P (filter (λ x, ¬ P x) l) = [].
Proof.
  induction l as [|x l IH]; [done|].
  rewrite (filter_cons (λ x, ¬ P x)). destruct (decide (¬ P x)); [|done].
  by rewrite filter_cons_False.
Qed.

Definition remove_request (songAnalysisId : string) : Request :=
  {| claims_sub := "u1"; body := JUndefined; query_limit := None;
     params_songAnalysisId := songAnalysisId |}.

(** X20: removing a favorite answers 204 whether or not the pair was a
    favorite; afterwards the pair has no favorite record and the listing of
    the user does not show the song, the favorites of every other pair, the
    analyses and the history are as before, and a repeated request changes
    nothing more. *)
Theorem removed_favorite_is_gone env req db songAnalysisId :
  as_integer (parseInt (params_songAnalysisId req)) = Some (Some songAnalysisId) →
  db_ok env "removeFromFavorites" = true →
  let response := (removeFavoriteRoute env req db).1 in
  let db' := (removeFavoriteRoute env req db).2 in
  response = {| status := 204; json := NoContent |}
  ∧ favorite_count (claims_sub req) songAnalysisId db' = 0%nat
  ∧ (∀ userId id, userId ≠ claims_sub req ∨ id ≠ songAnalysisId →
       favorite_count userId id db' = favorite_count userId id db)
  ∧ songAnalyses db' = songAnalyses db
  ∧ searchHistory db' = searchHistory db
  ∧ removeFavoriteRoute env req db' = (response, db')
  ∧ (∀ env' listing,
       Storage.getUserFavorites env' (claims_sub req) db' = Ok listing →
       Client.isFavorited listing songAnalysisId = false).
Proof.
  intros Hid Hup response db'.
  assert (removeFavoriteRoute env req db
          = ({| status := 204; json := NoContent |},
             {| users := users db;
                songAnalyses := songAnalyses db;
                favorites :=
                  filter (λ f, ¬ (fav_userId f = claims_sub req
                                  ∧ fav_songAnalysisId f = songAnalysisId))
                         (favorites db);
                searchHistory := searchHistory db;
                songAnalyses_seq := songAnalyses_seq db;
                favorites_seq := favorites_seq db;
                searchHistory_seq := searchHistory_seq db |})) as Hroute.
  { unfold removeFavoriteRoute, Storage.removeFromFavorites. by rewrite Hid, Hup. }
  unfold response, db'. rewrite Hroute. simpl. split_and!; try done.
  - unfold favorite_count. simpl. by rewrite filter_filter_neg.
  - intros userId id Hother. unfold favorite_count. simpl.
    apply (f_equal length). apply list_filter_filter_l.
    intros f [<- <-] [? ?]. by destruct Hother.
  - unfold removeFavoriteRoute, Storage.removeFromFavorites. rewrite Hid, Hup. simpl.
    do 2 f_equal. apply list_filter_filter_r. naive_solver.
  - intros env' listing Hlist.
    destruct (Client.isFavorited listing songAnalysisId) eqn:E; [|done].
    apply isFavorited_true in E as (f & a & Hin & Hf).
    destruct (listed_favorite _ _ _ _ _ _ Hlist Hin) as (Hfav & _ & Hu & _).
    simpl in Hfav. apply list_elem_of_filter in Hfav as [Hne _]. by destruct Hne.
Qed.

Lemma removed_favorite_is_gone_witness :
  (removeFavoriteRoute offline (remove_request "7") one_analysis).1
  = {| status := 204; json := NoContent |}
  ∧ favorite_count "u1" 7 (removeFavoriteRoute offline (remove_request "7") one_analysis).2
    = 0%nat.
Proof.
  destruct (removed_favorite_is_gone offline (remove_request "7") one_analysis 7)
    as (H1 & H2 & _); [reflexivity|reflexivity|]. by split.
Defined.

(** X21: a request to add a favorite answers 201, 400 or 500.  Only a 201
    changes a table; a 400 leaves the database untouched, and a 500 leaves
    it as it was but for the favorite id it may have used up.  A body
    without an integer [songAnalysisId] is answered with 500 "Failed to add
    to favorites" before the database is asked; an id that no analysis has
    gets the same answer from the refused insert, which uses up an id.  The
    stored favorite belongs to the authenticated user and takes the next
    id. *)
Theorem add_favorite_outcomes env req db :
  let response := (addFavoriteRoute env req db).1 in
  let db' := (addFavoriteRoute env req db).2 in
  (status response = 201 ∨ status response = 400 ∨ status response = 500)
  ∧ (status response ≠ 201 → db' = db ∨ db' = Storage.nextval Storage.FavoritesTable db)
  ∧ (status response = 400 → db' = db)
  ∧ (∀ message, validateFavorite req = Throw message →
       response = {| status := 500; json := Message "Failed to add to favorites" |}
       ∧ db' = db)
  ∧ (∀ v, db_wf db →
       validateFavorite req = Ok v →
       insf_songAnalysisId v ∉ sa_id <$> songAnalyses db →
       response = {| status := 500; json := Message "Failed to add to favorites" |}
       ∧ (db_ok env "isFavorite" = true → db_ok env "addToFavorites" = true →
          favorites_seq db' = favorites_seq db + 1))
  ∧ (status response = 201 →
     ∃ favorite,
       json response = FavoriteJson favorite
       ∧ favorites db' = favorites db ++ [favorite]
       ∧ fav_userId favorite = claims_sub req
       ∧ fav_id favorite = favorites_seq db
       ∧ favorites_seq db' = favorites_seq db + 1
       ∧ member (body req) "songAnalysisId" = Ok (JNum (fav_songAnalysisId favorite))
       ∧ songAnalyses db' = songAnalyses db
       ∧ searchHistory db' = searchHistory db).
Proof.
  assert (db = db ∨ db = Storage.nextval Storage.FavoritesTable db) as Hrefl by (by left).
  intros response db'. unfold response, db', addFavoriteRoute.
  destruct (validateFavorite req) as [v|m] eqn:Hv; simpl.
  2: { split_and!;
         first [done | by right; right | by intros; exact Hrefl | by intros; lia]. }
  pose proof (validateFavorite_user _ _ Hv) as Huser.
  assert (member (body req) "songAnalysisId" = Ok (JNum (insf_songAnalysisId v))) as Hbody.
  { unfold validateFavorite in Hv. unfold member.
    destruct (body req); try done.
    destruct (prop_get _ _); try done. destruct (int4 _); by simplify_eq. }
  destruct (Storage.isFavorite env _ _ db) as [[]|] eqn:Hfav; simpl.
  - assert (db_wf db → insf_songAnalysisId v ∈ sa_id <$> songAnalyses db) as Hknown.
    { intros (_ & _ & Hf & _).
      apply isFavorite_count in Hfav. symmetry in Hfav. apply bool_decide_eq_true_1 in Hfav.
      unfold favorite_count in Hfav.
      destruct (filter _ (favorites db)) as [|f l] eqn:E; [simpl in Hfav; lia|].
      assert (f ∈ filter (λ f, fav_userId f = claims_sub req
                               ∧ fav_songAnalysisId f = insf_songAnalysisId v)
                  (favorites db)) as Hin by (rewrite E; by left).
      apply list_elem_of_filter in Hin as [[_ <-] Hin]. by apply Hf. }
    split_and!;
      first [done | by right; left | by intros; exact Hrefl | by intros; lia | idtac].
    intros v' Hwf ? Hno. simplify_eq. by destruct Hno; apply Hknown.
  - destruct (Storage.addToFavorites env v db) as [[favorite|m] db1] eqn:Hadd; simpl.
    + assert (favorites db1 = favorites db ++ [favorite]
              ∧ fav_userId favorite = insf_userId v
              ∧ fav_id favorite = favorites_seq db
              ∧ favorites_seq db1 = favorites_seq db + 1
              ∧ fav_songAnalysisId favorite = insf_songAnalysisId v
              ∧ songAnalyses db1 = songAnalyses db
              ∧ searchHistory db1 = searchHistory db
              ∧ insf_songAnalysisId v ∈ sa_id <$> songAnalyses db)
        as (E1 & E2 & E3 & E4 & E5 & E6 & E7 & E8).
      { unfold Storage.addToFavorites in Hadd. destruct (negb _); [done|].
        destruct (bool_decide (insf_userId v ∈ users db)); [|done].
        case_bool_decide; [|done]. simpl in Hadd. simplify_eq. simpl. by split_and!. }
      split_and!; first [done | by left | by intros; lia | idtac].
      * intros v' _ ? Hno. by simplify_eq.
      * intros _. exists favorite. split_and!; try done; congruence.
    + pose proof (addToFavorites_refused _ _ _ _ _ Hadd) as Hr.
      split_and!; first [done | by right; right | by intros; lia | idtac].
      intros v' _ ? Hno. simplify_eq. split; [done|]. intros _ Hup.
      unfold Storage.addToFavorites in Hadd. rewrite Hup in Hadd. simpl in Hadd.
      destruct (_ && _); by simplify_eq.
  - split_and!;
      first [done | by right; right | by intros; exact Hrefl | by intros; lia | idtac].
    intros v' _ ? Hno. split; [done|]. intros Hup.
    unfold Storage.isFavorite in Hfav. rewrite Hup in Hfav. simpl in Hfav.
    by destruct (filter _ _).
Qed.

Definition unknown_analysis_request : Request :=
  {| claims_sub := "u1"; body := JObj [("songAnalysisId", JNum 9)];
     query_limit := None; params_songAnalysisId := "" |}.

(** A request for an analysis that does not exist is refused, and the
    favorite added next has id 2. *)
Lemma add_favorite_outcomes_witness :
  ∃ db1 favorite,
    addFavoriteRoute offline unknown_analysis_request one_analysis
    = ({| status := 500; json := Message "Failed to add to favorites" |}, db1)
    ∧ favorites db1 = []
    ∧ json (addFavoriteRoute offline favorite_request db1).1 = FavoriteJson favorite
    ∧ fav_id favorite = 2.
Proof.
  destruct (add_favorite_outcomes offline unknown_analysis_request one_analysis)
    as (_ & _ & _ & _ & Hunknown & _).
  destruct (Hunknown {| insf_userId := "u1"; insf_songAnalysisId := 9 |} one_analysis_wf)
    as [Hresponse Hseq]; [reflexivity| |].
  { simpl. intros [Heq|Hnil]%elem_of_cons; [discriminate|by apply not_elem_of_nil in Hnil]. }
  destruct (add_favorite_outcomes offline favorite_request
              (addFavoriteRoute offline unknown_analysis_request one_analysis).2)
    as (_ & _ & _ & _ & _ & Hadded).
  destruct Hadded as (favorite & Hjson & _ & _ & Hid & _); [reflexivity|].
  exists (addFavoriteRoute offline unknown_analysis_request one_analysis).2, favorite.
  split_and!; [|reflexivity|exact Hjson|].
  - apply injective_projections; [exact Hresponse|reflexivity].
  - rewrite Hid. apply (Hseq eq_refl eq_refl).
Defined.

(** ** Clearing the search history *)

(** X22: clearing the search history answers 204 and removes the entries
    of the requesting user only: their search-history listing is empty
    afterwards, the listing of every other user is as before, and the
    analyses and the favorites are untouched, so the songs-history listing
    still shows every analysis. *)
Theorem cleared_history_effects env req db :
  db_ok env "clearUserSearchHistory" = true →
  let response := (clearSearchHistoryRoute env req db).1 in
  let db' := (clearSearchHistoryRoute env req db).2 in
  response = {| status := 204; json := NoContent |}
  ∧ (∀ h, h ∈ searchHistory db' ↔ h ∈ searchHistory db ∧ sh_userId h ≠ claims_sub req)
  ∧ (∀ env' limit,
       db_ok env' "getUserSearchHistory" = true → 0 ≤ default 20 limit →
       Storage.getUserSearchHistory env' (claims_sub req) limit db' = Ok [])
  ∧ (∀ env' userId limit,
       userId ≠ claims_sub req →
       Storage.getUserSearchHistory env' userId limit db'
       = Storage.getUserSearchHistory env' userId limit db)
  ∧ (∀ env' userId limit,
       Storage.getUserSongAnalyses env' userId limit db'
       = Storage.getUserSongAnalyses env' userId limit db)
  ∧ favorites db' = favorites db.
Proof.
  intros Hup response db'.
  assert (clearSearchHistoryRoute env req db
          = ({| status := 204; json := NoContent |},
             {| users := users db;
                songAnalyses := songAnalyses db;
                favorites := favorites db;
                searchHistory :=
                  filter (λ h, sh_userId h ≠ claims_sub req) (searchHistory db);
                songAnalyses_seq := songAnalyses_seq db;
                favorites_seq := favorites_seq db;
                searchHistory_seq := searchHistory_seq db |})) as Hroute.
  { unfold clearSearchHistoryRoute, Storage.clearUserSearchHistory. by rewrite Hup. }
  unfold response, db'. rewrite Hroute. simpl. split_and!; try done.
  - intros h. rewrite list_elem_of_filter. split; intros [? ?]; done.
  - intros env' limit Hup' Hlimit. unfold Storage.getUserSearchHistory. rewrite Hup'. simpl.
    rewrite filter_filter_neg, limited_take by done.
    change (merge_sort (newest_first sh_createdAt) []) with (@nil SearchHistory).
    by rewrite take_nil.
  - intros env' userId limit Hne. unfold Storage.getUserSearchHistory. simpl.
    rewrite list_filter_filter_l; [done|]. by intros h ->.
Qed.

Definition searched_twice : DB :=
  {| users := {["u1"; "u2"]};
     songAnalyses := [believe_analysis];
     favorites := [];
     searchHistory :=
       [{| sh_id := 1; sh_userId := "u1"; sh_searchQuery := "Cher - Believe";
           sh_songAnalysisId := Some 1; sh_createdAt := 0 |};
        {| sh_id := 2; sh_userId := "u2"; sh_searchQuery := "Believe";
           sh_songAnalysisId := Some 1; sh_createdAt := 1 |}];
     songAnalyses_seq := 2; favorites_seq := 1; searchHistory_seq := 3 |}.

Lemma cleared_history_effects_witness :
  sh_id <$> searchHistory (clearSearchHistoryRoute offline (listing_request None)
                             searched_twice).2 = [2]
  ∧ Storage.getUserSearchHistory offline "u1" None
      (clearSearchHistoryRoute offline (listing_request None) searched_twice).2
    = Ok [].
Proof.
  split; [reflexivity|].
  destruct (cleared_history_effects offline (listing_request None) searched_twice eq_refl)
    as (_ & _ & H & _).
  apply H; [reflexivity|simpl; lia].
Defined.

(** ** The pages *)

Lemma findIndex_None {A} (p : A → bool) (l : list A) :
  Client.findIndex p l = None ↔ existsb p l = false.
Proof.
  induction l as [|x l IH]; simpl; [done|].
  destruct (p x); simpl; [done|].
  destruct (Client.findIndex p l); simpl; [|done].
  split; [done|]. intros H. by apply IH in H.
Qed.

Lemma findIndex_snoc {A} (p : A → bool) (l : list A) (x : A) :
  existsb p l = false → p x = true → Client.findIndex p (l ++ [x]) = Some (length l).
Proof.
  induction l as [|y l IH]; simpl; intros Hl Hx; [by rewrite Hx|].
  apply orb_false_iff in Hl as [-> Hl]. by rewrite IH.
Qed.

Lemma filter_index_all {A} (keep : nat → bool) (i : nat) (l : list A) :
  (∀ j, (i ≤ j)%nat → keep j = true) → Client.filter_index keep i l = l.
Proof.
  revert i. induction l as [|x l IH]; intros i Hkeep; simpl; [done|].
  rewrite Hkeep by lia. f_equal. apply IH. intros j Hj. apply Hkeep. lia.
Qed.

(** Dropping the index found by [findIndex] drops the first match. *)
Lemma filter_index_found {A} (p : A → bool) (l : list A) (k i : nat) :
  Client.findIndex p l = Some k →
  ∃ l1 x l2,
    l = l1 ++ x :: l2 ∧ p x = true ∧ existsb p l1 = false
    ∧ Client.filter_index (λ index, negb (index =? i + k)%nat) i l = l1 ++ l2.
Proof.
  revert k i. induction l as [|y l IH]; intros k i; simpl; [done|].
  destruct (p y) eqn:Hy.
  - intros [= <-]. exists [], y, l. split_and!; try done.
    rewrite Nat.add_0_r, Nat.eqb_refl. simpl. apply filter_index_all.
    intros j Hj. apply negb_true_iff, Nat.eqb_neq. lia.
  - destruct (Client.findIndex p l) as [k'|] eqn:Hk; [|done]. simpl. intros [= <-].
    destruct (IH k' (S i) eq_refl) as (l1 & x & l2 & -> & Hx & Hl1 & Hf).
    exists (y :: l1), x, l2. simpl. rewrite Hy. split_and!; try done.
    assert ((i =? i + S k')%nat = false) as -> by (apply Nat.eqb_neq; lia). simpl.
    f_equal. rewrite <- Hf. f_equal.
    replace (i + S k')%nat with (S i + k')%nat by lia. done.
Qed.

Lemma filter_index_snoc {A} (l : list A) (x : A) (i : nat) :
  Client.filter_index (λ index, negb (index =? i + length l)%nat) i (l ++ [x]) = l.
Proof.
  revert i. induction l as [|y l IH]; intros i; simpl.
  - by rewrite Nat.add_0_r, Nat.eqb_refl.
  - assert ((i =? i + S (length l))%nat = false) as -> by (apply Nat.eqb_neq; lia). simpl.
    f_equal. rewrite <- (IH (S i)) at 2. f_equal.
    replace (i + S (length l))%nat with (S i + length l)%nat by lia. done.
Qed.

(** X23: the optimistic update can be taken back: for a song that is not
    a favorite, toggling twice gives the list of favorites back unchanged,
    whether or not the first toggle could add an entry. *)
Theorem toggle_twice_restores user now now' history songAnalysisId prevFavorites :
  Client.isFavorited prevFavorites songAnalysisId = false →
  Client.optimisticToggleFavorite user now' history songAnalysisId
    (Client.optimisticToggleFavorite user now history songAnalysisId prevFavorites)
  = prevFavorites.
Proof.
  intros Hno. unfold Client.isFavorited in Hno.
  pose proof (proj2 (findIndex_None _ _) Hno) as Hidx.
  unfold Client.optimisticToggleFavorite at 2. rewrite Hidx.
  destruct (find _ history) as [songAnalysis|] eqn:Hfind;
    [destruct (Client.user_id user) as [userId|] eqn:Huser|].
  - unfold Client.optimisticToggleFavorite.
    rewrite findIndex_snoc; [|done|by apply bool_decide_eq_true_2].
    apply (filter_index_snoc prevFavorites _ 0).
  - unfold Client.optimisticToggleFavorite. by rewrite Hidx, Hfind, Huser.
  - unfold Client.optimisticToggleFavorite. by rewrite Hidx, Hfind.
Qed.

Lemma toggle_twice_restores_witness :
  Client.optimisticToggleFavorite (JObj [("id", JStr "u1")]) 8 [believe_analysis] 1
    (Client.optimisticToggleFavorite (JObj [("id", JStr "u1")]) 7 [believe_analysis] 1 [])
  = [].
Proof. apply toggle_twice_restores. reflexivity. Defined.

(** X24: for a song that is a favorite, the optimistic update removes the
    first entry for it and nothing else; the other songs stay marked as
    they were. *)
Theorem toggle_removes_first user now history songAnalysisId prevFavorites :
  Client.isFavorited prevFavorites songAnalysisId = true →
  ∃ before entry after,
    prevFavorites = before ++ entry :: after
    ∧ fav_songAnalysisId entry.1 = songAnalysisId
    ∧ Client.isFavorited before songAnalysisId = false
    ∧ Client.optimisticToggleFavorite user now history songAnalysisId prevFavorites
      = before ++ after
    ∧ ∀ other, other ≠ songAnalysisId →
        Client.isFavorited (before ++ after) other = Client.isFavorited prevFavorites other.
Proof.
  intros Hyes. unfold Client.optimisticToggleFavorite.
  destruct (Client.findIndex _ prevFavorites) as [k|] eqn:Hk.
  2: { apply findIndex_None in Hk. unfold Client.isFavorited in Hyes. congruence. }
  destruct (filter_index_found _ _ _ 0%nat Hk) as (l1 & x & l2 & -> & Hx & Hl1 & Hf).
  exists l1, x, l2. split_and!; try done.
  - by apply bool_decide_eq_true_1 in Hx.
  - intros other Hne. unfold Client.isFavorited. rewrite !existsb_app. simpl.
    apply bool_decide_eq_true_1 in Hx.
    rewrite (bool_decide_eq_false_2 (fav_songAnalysisId x.1 = other)) by congruence. done.
Qed.

Lemma toggle_removes_first_witness :
  ∃ after,
    Client.optimisticToggleFavorite JNull 7 [] 1
      [({| fav_id := 1; fav_userId := "u1"; fav_songAnalysisId := 1; fav_createdAt := 0 |},
        believe_analysis)]
    = after ∧ Client.isFavorited after 2 = false.
Proof.
  destruct (toggle_removes_first JNull 7 [] 1
              [({| fav_id := 1; fav_userId := "u1"; fav_songAnalysisId := 1;
                   fav_createdAt := 0 |}, believe_analysis)] eq_refl)
    as (before & entry & after & _ & _ & _ & Ht & Hother).
  exists (before ++ after). split; [done|]. rewrite Hother; [reflexivity|lia].
Defined.

Lemma trim_empty_iff s : trim s = "" ↔ whitespace_only s = true.
Proof.
  split; [|apply trim_blank].
  destruct (whitespace_only s) eqn:E; [done|]. intros H. by apply not_blank_trim in E.
Qed.

(** X25: the search box sends nothing for a blank input, and otherwise
    sends the trimmed input, which the search handler never refuses: the
    answer is 200 or 500, not 400 or 404. *)
Theorem handleSearch_request searchQuery :
  (Client.handleSearch searchQuery = None ↔ whitespace_only searchQuery = true)
  ∧ ∀ sent, Client.handleSearch searchQuery = Some sent →
      member sent "query" = Ok (JStr (trim searchQuery))
      ∧ trim searchQuery ≠ ""
      ∧ ∀ JSON_parse env req db,
          body req = sent →
          status (searchRoute JSON_parse env req db).1 = 200
          ∨ status (searchRoute JSON_parse env req db).1 = 500.
Proof.
  unfold Client.handleSearch. split.
  - rewrite <- trim_empty_iff. by case_bool_decide.
  - intros sent. case_bool_decide as Hblank; [done|]. intros [= <-].
    split_and!; [done..|]. intros JSON_parse env req db Hbody.
    unfold searchRoute. rewrite Hbody. simpl.
    rewrite bool_decide_eq_false_2 by done.
    unfold resolve. destruct (searchSong_is_Some env (trim (trim searchQuery))) as [info ->].
    destruct (analyse _ _ _); [|by right].
    destruct (Storage.createSongAnalysis _ _ _) as [[] ?]; [|by right].
    destruct (Storage.addToSearchHistory _ _ _) as [[] ?]; [by left|by right].
Qed.

Lemma handleSearch_request_witness :
  Client.handleSearch "  Cher - Believe " = Some (JObj [("query", JStr "Cher - Believe")])
  ∧ (status (searchRoute Json.parse offline (search_request "Cher - Believe") one_user).1 = 200
     ∨ status (searchRoute Json.parse offline (search_request "Cher - Believe") one_user).1
       = 500).
Proof.
  split; [reflexivity|].
  destruct (handleSearch_request "  Cher - Believe ") as [_ H].
  destruct (H _ eq_refl) as (_ & _ & Hroute).
  apply (Hroute Json.parse offline (search_request "Cher - Believe") one_user). reflexivity.
Defined.

Lemma toLowerCase_app s t :
  Client.toLowerCase (s +:+ t) = Client.toLowerCase s +:+ Client.toLowerCase t.
Proof. induction s as [|c s IH]; [done|]. rewrite str_app_cons. simpl. by rewrite IH. Qed.

Lemma includes_toLowerCase q s :
  includes q s = true → includes (Client.toLowerCase q) (Client.toLowerCase s) = true.
Proof.
  intros (pre & post & ->)%includes_spec. rewrite !toLowerCase_app. apply includes_app.
Qed.

Lemma includes_empty s : includes "" s = true.
Proof. by destruct s. Qed.

Lemma lower_idem c : Client.lower (Client.lower c) = Client.lower c.
Proof. by destruct c as [[] [] [] [] [] [] [] []]. Qed.

Lemma toLowerCase_idem s : Client.toLowerCase (Client.toLowerCase s) = Client.toLowerCase s.
Proof. induction s as [|c s IH]; [done|]. simpl. by rewrite lower_idem, IH. Qed.

(** X26: the filter of the history page keeps the order of the history and
    shows every analysis whose title, artist or genre contains the typed
    text; letter case does not matter; an empty filter shows everything;
    and at most ten analyses are displayed. *)
Theorem filteredHistory_matches history localSearchQuery :
  Client.filteredHistory history "" = history
  ∧ Client.filteredHistory history localSearchQuery `sublist_of` history
  ∧ (∀ analysis,
       analysis ∈ history →
       includes localSearchQuery (sa_title analysis) = true
       ∨ includes localSearchQuery (sa_artist analysis) = true
       ∨ (∃ genre, sa_genre analysis = Some genre ∧ includes localSearchQuery genre = true) →
       analysis ∈ Client.filteredHistory history localSearchQuery)
  ∧ Client.filteredHistory history (Client.toLowerCase localSearchQuery)
    = Client.filteredHistory history localSearchQuery
  ∧ (length (Client.recentAnalyses history localSearchQuery) ≤ 10)%nat.
Proof.
  split_and!.
  - unfold Client.filteredHistory. induction history as [|a l IH]; [done|].
    rewrite filter_cons_True; [by rewrite IH|]. simpl. by rewrite includes_empty.
  - apply sublist_filter.
  - intros a Hin Hmatch. unfold Client.filteredHistory. apply list_elem_of_filter.
    split; [|done]. destruct Hmatch as [H|[H|(genre & Hg & H)]].
    + by rewrite (includes_toLowerCase _ _ H).
    + rewrite (includes_toLowerCase _ _ H). by rewrite orb_true_r.
    + rewrite Hg. destruct genre as [|c genre].
      * simpl in H. rewrite orb_false_r in H. destruct localSearchQuery; [|done].
        simpl. by rewrite includes_empty.
      * rewrite (includes_toLowerCase _ _ H). simpl. by rewrite orb_true_r.
  - unfold Client.filteredHistory. by rewrite toLowerCase_idem.
  - unfold Client.recentAnalyses. rewrite length_take. lia.
Qed.

Lemma filteredHistory_matches_witness :
  believe_analysis ∈ Client.filteredHistory [believe_analysis] "POP".
Proof.
  destruct (filteredHistory_matches [believe_analysis] "POP") as (_ & _ & H & Hcase & _).
  rewrite <- Hcase. apply (filteredHistory_matches [believe_analysis] "pop").
  - by left.
  - right. right. by exists "pop".
Defined.
